(** * Payday scheduler: salary calculation and payday schedule

    A shallow embedding of [salary_calculation.py]: the salary calculator
    [calculate_salary], the backward search [get_previous_working_day] and the
    schedule generator [get_payday_schedule], with the properties the
    specification states about them; then the re-indexing loop of
    [get_work_calendar] and the callers in [app.py] (the nearest year, the
    annual salary, the working days fed back to the schedule), with further
    properties read off the code.

    Python values are modelled as follows.
    - [int] is [Z] (unbounded).
    - [datetime.date] is a record of year, month and day; the checked
      constructor, the one-day shifts, the ordering and [weekday()] follow the
      proleptic Gregorian calendar of the [datetime] module, including its
      range 0001-01-01 .. 9999-12-31.  The rejection of arguments that make
      no date is one exception, [DateValueError]: the [ValueError] of the
      constructor (for an argument beyond a C int the C implementation of
      the module raises [OverflowError] in its place).
    - [float] is read through an arithmetic, [FloatOps].  The arithmetic of
      the code is [binary64]: IEEE 754 double precision with rounding to
      nearest, ties to even, as the [SpecFloat] library specifies it; an
      [int] operand is converted first, which raises [OverflowError] outside
      the range of [float]; a division by zero raises [ZeroDivisionError];
      an overflow gives an infinity, and NaN follows, without an exception.
      The arithmetic [exact] is the arithmetic of the rationals: the
      real-number reading of the same operations, in which nothing rounds or
      overflows.  It is used only by the properties that are stated over
      exact arithmetic.
    - exceptions are the [Raise] results of a small error monad.
    - the arguments have the types of the annotations: the amount is a
      [float], the year, the month and the day counts are [int]s.
    - the two memoised network fetches [get_work_calendar] and
      [get_holidays_and_short_days] are inputs: an environment that maps a
      year to the fetched calendar and holiday data.  A fetch that fails
      raises before anything else is computed; the statements below are
      about the calls whose two fetches have returned. *)

From Stdlib Require Import ZArith QArith Qabs Lia Lqa List Bool String Wf_nat.
From Stdlib Require Import Floats.SpecFloat.
From stdpp Require Import base option list gmap.
From Equations Require Import Equations.

Local Open Scope Z_scope.

(** ** Exceptions *)

Inductive py_error : Type :=
| DateValueError                      (* date(): arguments that make no date *)
| DateOverflowError                   (* date +/- timedelta out of range *)
| ZeroDivisionError                   (* x / 0 *)
| FloatOverflowError                  (* int too large to convert to float *)
| KeyError (key : Z)                  (* calendar[month] on a missing key *)
| IndexError                          (* working_days[month - 1] out of range *)
| WorkingDaysLengthError              (* "working_days must contain exactly 12 tuples" *)
| WorkingDaysTotalError (month total calendar_days : Z).
                                      (* "Total working days for month ... exceeds ..." *)

Inductive result (A : Type) : Type :=
| Ok (a : A)
| Raise (e : py_error).
Arguments Ok {A} a.
Arguments Raise {A} e.

#[global] Instance result_ret : MRet result := fun A a => Ok a.
#[global] Instance result_bind : MBind result := fun A B k r =>
  match r with
  | Ok a => k a
  | Raise e => Raise e
  end.

Definition is_ok {A : Type} (r : result A) : bool :=
  match r with Ok _ => true | Raise _ => false end.

(** ** Dates of the [datetime] module *)

Module Date.

Record date : Type := Date { year : Z; month : Z; day : Z }.

Definition MINYEAR : Z := 1.
Definition MAXYEAR : Z := 9999.

Definition is_leap (y : Z) : bool :=
  (y mod 4 =? 0) && (negb (y mod 100 =? 0) || (y mod 400 =? 0)).

Definition days_in_month (y m : Z) : Z :=
  match m with
  | 2 => if is_leap y then 29 else 28
  | 4 | 6 | 9 | 11 => 30
  | _ => 31
  end.

(* number of days before January 1st of year [y] *)
Definition days_before_year (y : Z) : Z :=
  let y' := y - 1 in y' * 365 + y' / 4 - y' / 100 + y' / 400.

(* number of days in year [y] before the first day of month [m] *)
Definition days_before_month (y m : Z) : Z :=
  match m with
  | 1 => 0 | 2 => 31 | 3 => 59 | 4 => 90 | 5 => 120 | 6 => 151
  | 7 => 181 | 8 => 212 | 9 => 243 | 10 => 273 | 11 => 304 | _ => 334
  end + (if (2 <? m) && is_leap y then 1 else 0).

Definition valid (d : date) : bool :=
  (MINYEAR <=? year d) && (year d <=? MAXYEAR) &&
  (1 <=? month d) && (month d <=? 12) &&
  (1 <=? day d) && (day d <=? days_in_month (year d) (month d)).

(* [date(y, m, d)] *)
Definition new (y m d : Z) : result date :=
  if valid (Date y m d) then Ok (Date y m d) else Raise DateValueError.

(* [d.toordinal()]: 0001-01-01 is day 1 *)
Definition toordinal (d : date) : Z :=
  days_before_year (year d) + days_before_month (year d) (month d) + day d.

(* [d.weekday()]: Monday is 0, Sunday is 6 *)
Definition weekday (d : date) : Z := (toordinal d + 6) mod 7.

(* [d - timedelta(days=1)] *)
Definition pred (d : date) : result date :=
  if 1 <? day d then Ok (Date (year d) (month d) (day d - 1))
  else if 1 <? month d then
    Ok (Date (year d) (month d - 1) (days_in_month (year d) (month d - 1)))
  else if MINYEAR <? year d then Ok (Date (year d - 1) 12 31)
  else Raise DateOverflowError.

(* [d + timedelta(days=1)] *)
Definition succ (d : date) : result date :=
  if day d <? days_in_month (year d) (month d) then
    Ok (Date (year d) (month d) (day d + 1))
  else if month d <? 12 then Ok (Date (year d) (month d + 1) 1)
  else if year d <? MAXYEAR then Ok (Date (year d + 1) 1 1)
  else Raise DateOverflowError.

(* [d1 == d2], [d1 <= d2], [d1 < d2]: comparison of (year, month, day) *)
Definition eqb (d1 d2 : date) : bool :=
  (year d1 =? year d2) && (month d1 =? month d2) && (day d1 =? day d2).

Definition ltb (d1 d2 : date) : bool :=
  (year d1 <? year d2) ||
  ((year d1 =? year d2) &&
   ((month d1 <? month d2) ||
    ((month d1 =? month d2) && (day d1 <? day d2)))).

Definition leb (d1 d2 : date) : bool := ltb d1 d2 || eqb d1 d2.

(* a measure that [pred] decreases on every record, valid or not *)
Definition rank (d : date) : nat :=
  Z.to_nat (year d) * 1000 + Z.to_nat (month d) * 32 + Z.to_nat (day d).

End Date.

Abbreviation date := Date.date.

(** ** Records of the module *)

Record Month : Type := {
  id : Z;
  name : string;
  workingDays : Z;
  notWorkingDays : Z;
  shortDays_count : Z;
  workingHours : Z
}.

Record SalaryResult (F : Type) : Type := {
  before_tax : F;
  tax : F;
  after_tax : F
}.
Arguments before_tax {F} _.
Arguments tax {F} _.
Arguments after_tax {F} _.

Record Holiday : Type := {
  holiday_date : date;
  holiday_name : string
}.

Record HolidaysData : Type := {
  holidays_year : Z;
  holidays : list Holiday;
  shortDays : list Holiday
}.

Inductive payment_kind : Type := advance | salary.

Record PaydayScheduleItem (F : Type) : Type := {
  item_date : date;
  it_is : payment_kind;
  working_days : Z;
  max_working_days : Z;
  item_salary : SalaryResult F;
  date_was_moved : bool
}.
Arguments item_date {F} _.
Arguments it_is {F} _.
Arguments working_days {F} _.
Arguments max_working_days {F} _.
Arguments item_salary {F} _.
Arguments date_was_moved {F} _.

(* the two literals of the [mode] parameter *)
Inductive salary_mode : Type :=
| BeforeTax      (* "До вычета НДФЛ": the amount is given before tax *)
| OnHand.        (* "На руки": the amount is the take-home target *)

(** ** Floats

    The operations on [float] that the module uses.  [float_of_Z] is the
    conversion of an [int] in the range of [float], [float_in_range] tells
    that range; [float_is_zero] is the test [x == 0.0] made by a division;
    [float_quot] is the quotient by a divisor that is not zero. *)

Class FloatOps (F : Type) : Type := {
  float_in_range : Z -> bool;
  float_of_Z : Z -> F;
  float_is_zero : F -> bool;
  float_add : F -> F -> F;
  float_sub : F -> F -> F;
  float_mul : F -> F -> F;
  float_quot : F -> F -> F
}.

(* the least magnitude of an [int] that rounds to 2^1024: from there on
   [float(i)] raises [OverflowError] *)
Definition float_int_bound : Z := 2 ^ 1024 - 2 ^ 970.

(* the floats of Python: IEEE 754 binary64, rounding to nearest, ties to even *)
#[global] Instance binary64 : FloatOps spec_float := {|
  float_in_range i := Z.abs i <? float_int_bound;
  float_of_Z i := binary_normalize 53 1024 i 0 false;
  float_is_zero x := match x with S754_zero _ => true | _ => false end;
  float_add := SFadd 53 1024;
  float_sub := SFsub 53 1024;
  float_mul := SFmul 53 1024;
  float_quot := SFdiv 53 1024
|}.

(* exact arithmetic: the rationals, where nothing rounds or overflows *)
#[global] Instance exact : FloatOps Q := {|
  float_in_range _ := true;
  float_of_Z := inject_Z;
  float_is_zero x := Qeq_bool x 0;
  float_add := Qplus;
  float_sub := Qminus;
  float_mul := Qmult;
  float_quot := Qdiv
|}.

Section Floats.

Context {F : Type} {ops : FloatOps F}.

(* the conversion of an [int] operand of a float operation *)
Definition float_of_int (i : Z) : result F :=
  if float_in_range i then Ok (float_of_Z i) else Raise FloatOverflowError.

(* [x / y] on floats *)
Definition float_truediv (x y : F) : result F :=
  if float_is_zero y then Raise ZeroDivisionError else Ok (float_quot x y).

(* [x / i], [x * i] and [i - y] for a float and an [int] *)
Definition float_div_int (x : F) (i : Z) : result F :=
  y ← float_of_int i; float_truediv x y.

Definition float_mul_int (x : F) (i : Z) : result F :=
  y ← float_of_int i; Ok (float_mul x y).

Definition int_sub_float (i : Z) (y : F) : result F :=
  x ← float_of_int i; Ok (float_sub x y).

(* the literal [0.13]: the float nearest to 13/100, which the correctly
   rounded quotient of 13.0 by 100.0 is *)
Definition TAX_RATE : F := float_quot (float_of_Z 13) (float_of_Z 100).

End Floats.

(* what the arithmetic of the module has to satisfy: only zero converts to
   zero, the ints in range form an interval around zero that holds the
   day counts of a month, and [1 - 0.13] is not zero *)
Class FloatLaws (F : Type) {ops : FloatOps F} : Prop := {
  float_of_Z_is_zero :
    forall i, float_in_range i = true ->
              (float_is_zero (float_of_Z i) = true <-> i = 0);
  float_in_range_between :
    forall a b i, float_in_range a = true -> float_in_range b = true ->
                  a <= i <= b -> float_in_range i = true;
  float_in_range_small :
    forall i, - 2 ^ 53 <= i <= 2 ^ 53 -> float_in_range i = true;
  float_complement_not_zero :
    float_is_zero (float_sub (float_of_Z 1) TAX_RATE) = false
}.

(** ** The backward search for a working day *)

Definition is_holiday (d : date) (holidays_data : HolidaysData) : bool :=
  existsb (fun h => Date.eqb (holiday_date h) d) (holidays holidays_data).

(* 5 is Saturday, 6 is Sunday *)
Definition is_weekend (d : date) : bool := 5 <=? Date.weekday d.

(* [not is_holiday and not is_weekend] *)
Definition is_working (d : date) (holidays_data : HolidaysData) : bool :=
  negb (is_holiday d holidays_data) && negb (is_weekend d).

(* remember the equation of a scrutinee across a [with] clause *)
Definition inspect {A : Type} (a : A) : {b : A | a = b} := exist _ a eq_refl.

Ltac split_ltb :=
  repeat match goal with
         | |- context [?a <? ?b] => destruct (Z.ltb_spec a b)
         end.

Ltac month_length_bound y m :=
  assert (Date.days_in_month y m <= 31) by
    (unfold Date.days_in_month;
     repeat match goal with
            | |- context [match ?x with _ => _ end] => destruct x
            end; lia).

(* [d'] precedes [d] in the search; the well-foundedness proof is wrapped so
   that evaluation never inspects it *)
Definition earlier : date -> date -> Prop := ltof date Date.rank.

#[local] Instance earlier_wf : WellFounded earlier :=
  Acc_intro_generator 8 (well_founded_ltof date Date.rank).

Equations? get_previous_working_day (d : date) (holidays_data : HolidaysData)
  : result date by wf d earlier :=
  get_previous_working_day current_date holidays_data
    with inspect (is_working current_date holidays_data) => {
    | exist _ true Hw := Ok current_date;
    | exist _ false Hw with inspect (Date.pred current_date) => {
      | exist _ (Ok previous) Hp := get_previous_working_day previous holidays_data;
      | exist _ (Raise e) Hp := Raise e } }.
Proof.
  unfold earlier, ltof. revert Hp.
  unfold Date.pred, Date.rank, Date.MINYEAR.
  destruct current_date as [y m dd]; simpl.
  month_length_bound y (m - 1).
  split_ltb; intros [= <-]; simpl; lia.
Qed.

(** ** Counting the working days of a period

    The loop [while current_day <= last_day] of [get_payday_schedule]; [acc]
    is [max_advance_working_days]. *)

Definition span (current_day last_day : date) : nat :=
  Z.to_nat (416 * (Date.year last_day - Date.year current_day + 1)
            + 32 * Z.max 0 (12 - Date.month current_day)
            + Z.max 0 (31 - Date.day current_day)).

(* the pair (current day, last day) gets nearer to the end of the loop *)
Definition nearer : date * date -> date * date -> Prop :=
  ltof (date * date) (fun p => span (fst p) (snd p)).

#[local] Instance nearer_wf : WellFounded nearer :=
  Acc_intro_generator 8
    (well_founded_ltof (date * date) (fun p => span (fst p) (snd p))).

Equations? count_working_days (current_day last_day : date)
  (holidays_data : HolidaysData) (acc : Z) : result Z
  by wf (current_day, last_day) nearer :=
  count_working_days current_day last_day holidays_data acc
    with inspect (Date.leb current_day last_day) => {
    | exist _ false Hle := Ok acc;
    | exist _ true Hle with inspect (Date.succ current_day) => {
      | exist _ (Ok next) Hs :=
          count_working_days next last_day holidays_data
            (if is_working current_day holidays_data then acc + 1 else acc);
      | exist _ (Raise e) Hs := Raise e } }.
Proof.
  unfold nearer, ltof; simpl. revert Hle Hs.
  unfold Date.leb, Date.ltb, Date.eqb, Date.succ, span, Date.MAXYEAR.
  destruct current_day as [y m dd], last_day as [Y M D]; simpl.
  month_length_bound y m.
  intros Hle.
  assert (y <= Y) by
    (repeat match type of Hle with
            | context [?a <? ?b] => destruct (Z.ltb_spec a b)
            | context [?a =? ?b] => destruct (Z.eqb_spec a b)
            end; simpl in Hle; try discriminate; lia).
  clear Hle.
  split_ltb; intros [= <-]; simpl; lia.
Qed.

(** ** The program, over the two fetched data sources *)

Section Program.

(* [get_work_calendar(year)]: month number -> month data *)
Variable get_work_calendar : Z -> gmap Z Month.
(* [get_holidays_and_short_days(year)] *)
Variable get_holidays_and_short_days : Z -> HolidaysData.

Context {F : Type} {ops : FloatOps F}.

(* [calendar[month]["workingDays"]] *)
Definition calendar_working_days (calendar : gmap Z Month) (month : Z) : result Z :=
  match calendar !! month with
  | Some m => Ok (workingDays m)
  | None => Raise (KeyError month)
  end.

Definition calculate_salary (month year days_worked : Z) (amount : F)
  (mode : salary_mode) : result (SalaryResult F) :=
  let calendar := get_work_calendar year in
  work_days ← calendar_working_days calendar month;
  daily_rate ← float_div_int amount work_days;
  period_amount ← float_mul_int daily_rate days_worked;
  match mode with
  | BeforeTax =>
      let before_tax := period_amount in
      let tax := float_mul before_tax TAX_RATE in
      let after_tax := float_sub before_tax tax in
      Ok {| before_tax := before_tax; tax := tax; after_tax := after_tax |}
  | OnHand =>
      let after_tax := period_amount in
      complement ← int_sub_float 1 TAX_RATE;
      before_tax ← float_truediv after_tax complement;
      let tax := float_mul before_tax TAX_RATE in
      Ok {| before_tax := before_tax; tax := tax; after_tax := after_tax |}
  end.

(* [(date(year, month + 1, 1) - timedelta(days=1)).day if month < 12 else 31] *)
Definition last_day_of (year month : Z) : result Z :=
  if month <? 12 then
    first_of_next ← Date.new year (month + 1) 1;
    last ← Date.pred first_of_next;
    Ok (Date.day last)
  else Ok 31.

(* the working days paid for in [month]: the caller's pair, checked against
   the calendar, or the computed maxima *)
Definition period_working_days (calendar : gmap Z Month)
  (working_days : option (list (Z * Z))) (month : Z)
  (max_advance_working_days max_salary_working_days : Z) : result (Z * Z) :=
  match working_days with
  | Some wd =>
      '(advance_working_days, salary_working_days) ←
        match wd !! Z.to_nat (month - 1) with
        | Some p => Ok p
        | None => Raise IndexError
        end;
      calendar_days ← calendar_working_days calendar month;
      if calendar_days <? advance_working_days + salary_working_days then
        Raise (WorkingDaysTotalError month
                 (advance_working_days + salary_working_days) calendar_days)
      else Ok (advance_working_days, salary_working_days)
  | None => Ok (max_advance_working_days, max_salary_working_days)
  end.

(* one iteration of [for month in range(1, 13)]: the two items appended *)
Definition payday_month (year advance_day : Z) (mode : salary_mode) (amount : F)
  (working_days : option (list (Z * Z)))
  (calendar : gmap Z Month) (holidays_data : HolidaysData) (month : Z)
  : result (PaydayScheduleItem F * PaydayScheduleItem F) :=
  (* advance payment date *)
  last_day_of_month ← last_day_of year month;
  let actual_advance_day := Z.min advance_day last_day_of_month in
  original_advance_date ← Date.new year month actual_advance_day;
  advance_date ← get_previous_working_day original_advance_date holidays_data;
  let advance_date_was_moved := negb (Date.eqb advance_date original_advance_date) in
  (* salary payment date (next month) *)
  let salary_day := advance_day - 15 in
  let salary_day := if salary_day <? 1 then 1 else salary_day in
  let salary_month := month + 1 in
  let salary_year := year in
  let '(salary_month, salary_year) :=
    if 12 <? salary_month then (1, year + 1) else (salary_month, salary_year) in
  last_day_of_salary_month ← last_day_of salary_year salary_month;
  let actual_salary_day := Z.min salary_day last_day_of_salary_month in
  original_salary_date ← Date.new salary_year salary_month actual_salary_day;
  salary_date ← get_previous_working_day original_salary_date holidays_data;
  let salary_date_was_moved := negb (Date.eqb salary_date original_salary_date) in
  (* working days in the first half of the month *)
  first_day ← Date.new year month 1;
  last_day ← Date.new year month 15;
  max_advance_working_days ← count_working_days first_day last_day holidays_data 0;
  (* for salary: remaining working days in month *)
  calendar_days ← calendar_working_days calendar month;
  let max_salary_working_days := calendar_days - max_advance_working_days in
  '(advance_working_days, salary_working_days) ←
    period_working_days calendar working_days month
      max_advance_working_days max_salary_working_days;
  (* salary for each period *)
  advance_salary ← calculate_salary month year advance_working_days amount mode;
  salary_salary ← calculate_salary month year salary_working_days amount mode;
  Ok ({| item_date := advance_date;
         it_is := advance;
         working_days := advance_working_days;
         max_working_days := max_advance_working_days;
         item_salary := advance_salary;
         date_was_moved := advance_date_was_moved |},
      {| item_date := salary_date;
         it_is := salary;
         working_days := salary_working_days;
         max_working_days := max_salary_working_days;
         item_salary := salary_salary;
         date_was_moved := salary_date_was_moved |}).

(* the loop over the months, appending to [schedule] *)
Fixpoint schedule_months (year advance_day : Z) (mode : salary_mode) (amount : F)
  (working_days : option (list (Z * Z)))
  (calendar : gmap Z Month) (holidays_data : HolidaysData)
  (months : list Z) (schedule : list (PaydayScheduleItem F))
  : result (list (PaydayScheduleItem F)) :=
  match months with
  | [] => Ok schedule
  | month :: rest =>
      '(advance_item, salary_item) ←
        payday_month year advance_day mode amount working_days
          calendar holidays_data month;
      schedule_months year advance_day mode amount working_days
        calendar holidays_data rest (schedule ++ [advance_item; salary_item])
  end.

Definition get_payday_schedule (year advance_day : Z) (mode : salary_mode)
  (amount : F) (working_days : option (list (Z * Z)))
  : result (list (PaydayScheduleItem F)) :=
  let calendar := get_work_calendar year in
  let holidays_data := get_holidays_and_short_days year in
  if match working_days with
     | Some wd => negb (Z.of_nat (length wd) =? 12)
     | None => false
     end
  then Raise WorkingDaysLengthError
  else schedule_months year advance_day mode amount working_days
         calendar holidays_data (seqZ 1 12) [].

End Program.

(** ** Concrete data: fetched calendars and holiday lists *)

Module Data.

Definition month_entry (i wd : Z) : Z * Month :=
  (i, {| id := i; name := ""; workingDays := wd; notWorkingDays := 0;
         shortDays_count := 0; workingHours := 8 * wd |}).

(* a calendar from the working-day counts of January .. December *)
Definition calendar_of (counts : list Z) : gmap Z Month :=
  list_to_map (zip_with month_entry (seqZ 1 (Z.of_nat (length counts))) counts).

Definition holiday (y m d : Z) : Holiday :=
  {| holiday_date := Date.Date y m d; holiday_name := "" |}.

Definition calendar_2025 : gmap Z Month :=
  calendar_of [17; 20; 21; 22; 18; 19; 23; 21; 22; 23; 19; 22].

Definition holidays_2025 : HolidaysData :=
  {| holidays_year := 2025;
     holidays :=
       map (fun md => holiday 2025 (fst md) (snd md))
         [(1, 1); (1, 2); (1, 3); (1, 4); (1, 5); (1, 6); (1, 7); (1, 8);
          (2, 23); (3, 8); (5, 1); (5, 2); (5, 8); (5, 9); (6, 12); (6, 13);
          (11, 3); (11, 4); (12, 31)];
     shortDays := [] |}.

Definition calendar_2022 : gmap Z Month :=
  calendar_of [16; 19; 22; 21; 18; 21; 21; 23; 22; 21; 21; 22].

Definition holidays_2022 : HolidaysData :=
  {| holidays_year := 2022;
     holidays :=
       map (fun md => holiday 2022 (fst md) (snd md))
         [(1, 1); (1, 2); (1, 3); (1, 4); (1, 5); (1, 6); (1, 7); (1, 8);
          (2, 23); (3, 7); (3, 8); (5, 1); (5, 2); (5, 3); (5, 9); (5, 10);
          (6, 12); (6, 13); (11, 4)];
     shortDays := [] |}.

(* a calendar whose January has no working day at all *)
Definition calendar_idle_january : gmap Z Month :=
  calendar_of [0; 20; 21; 22; 18; 19; 23; 21; 22; 23; 19; 22].

Definition get_work_calendar (year : Z) : gmap Z Month :=
  if year =? 2025 then calendar_2025
  else if year =? 2022 then calendar_2022
  else if year =? 2030 then calendar_idle_january
  else ∅.

Definition get_holidays_and_short_days (year : Z) : HolidaysData :=
  if year =? 2025 then holidays_2025
  else if year =? 2022 then holidays_2022
  else {| holidays_year := year; holidays := []; shortDays := [] |}.

(* the float of a whole amount *)
Definition rubles (i : Z) : spec_float := float_of_Z i.

Definition calculate_salary := calculate_salary (F := spec_float) get_work_calendar.

Definition get_payday_schedule :=
  get_payday_schedule (F := spec_float) get_work_calendar get_holidays_and_short_days.

(* the first day of the calendar, declared a holiday *)
Definition holidays_year_1 : HolidaysData :=
  {| holidays_year := 1; holidays := [holiday 1 1 1]; shortDays := [] |}.

(* the schedules of the examples *)
Definition returned {F : Type} (r : result (list (PaydayScheduleItem F)))
  : list (PaydayScheduleItem F) :=
  match r with Ok schedule => schedule | Raise _ => [] end.

Definition schedule_2025 : list (PaydayScheduleItem spec_float) :=
  returned (get_payday_schedule 2025 25 BeforeTax (rubles 60000) None).

Definition schedule_2022 : list (PaydayScheduleItem spec_float) :=
  returned (get_payday_schedule 2022 16 BeforeTax (rubles 60000) None).

(* a caller's list with a negative advance count for January *)
Definition overrides_negative : list (Z * Z) := (-1, 0) :: repeat (0, 0) 11.

Definition schedule_negative : list (PaydayScheduleItem spec_float) :=
  returned (get_payday_schedule 2025 25 BeforeTax (rubles 60000) (Some overrides_negative)).

(* a caller's list whose February pair exceeds the month's 20 working days *)
Definition overrides_february : list (Z * Z) :=
  (0, 0) :: (15, 15) :: repeat (0, 0) 10.

(* the default schedule of 2025 with the advance on the 16th *)
Definition schedule_2025_16 : list (PaydayScheduleItem spec_float) :=
  returned (get_payday_schedule 2025 16 BeforeTax (rubles 60000) None).

End Data.


(** ** The calendar provider and the callers of the page

    [get_work_calendar] re-indexes the months of the fetched response;
    [app.py] chooses the year nearest to the current one, adds up the twelve
    full-month salaries and feeds the working days of a schedule back to
    [get_payday_schedule]. *)

(* the entry stored for a month object of the response: ids 0..11 become 1..12 *)
Definition calendar_entry (month : Month) : Month :=
  {| id := id month + 1;
     name := name month;
     workingDays := workingDays month;
     notWorkingDays := notWorkingDays month;
     shortDays_count := shortDays_count month;
     workingHours := workingHours month |}.

(* the loop of [get_work_calendar] over [calendar_data["months"]] *)
Definition work_calendar (calendar_months : list Month) : gmap Z Month :=
  fold_left
    (fun months_data month => <[id month + 1 := calendar_entry month]> months_data)
    calendar_months ∅.

(* [min(items, key=key)] after its first item: a later item replaces the best
   one only when its key is strictly smaller *)
Fixpoint min_by {A : Type} (key : A -> Z) (best : A) (items : list A) : A :=
  match items with
  | [] => best
  | item :: rest => min_by key (if key item <? key best then item else best) rest
  end.

(* [get_nearest_year_index(years)] of [app.py], [current_year] being
   [datetime.now().year]; [None] is the [ValueError] of [min] on an empty
   sequence *)
Definition get_nearest_year_index (current_year : Z) (years : list Z) : option nat :=
  match seq 0 (length years) with
  | [] => None
  | first :: rest =>
      Some (min_by (fun i => Z.abs (default 0 (years !! i) - current_year)) first rest)
  end.

Section Page.

Variable get_work_calendar : Z -> gmap Z Month.

Context {F : Type} {ops : FloatOps F}.

(* [annual_result[k] += month_result[k]] for the three keys *)
Definition add_month (annual_result month_result : SalaryResult F) : SalaryResult F :=
  {| before_tax := float_add (before_tax annual_result) (before_tax month_result);
     tax := float_add (tax annual_result) (tax month_result);
     after_tax := float_add (after_tax annual_result) (after_tax month_result) |}.

(* the loop [for month in range(1, 13)] of the annual salary *)
Fixpoint annual_months (calendar : gmap Z Month) (year : Z) (amount : F)
  (mode : salary_mode) (months : list Z) (annual_result : SalaryResult F)
  : result (SalaryResult F) :=
  match months with
  | [] => Ok annual_result
  | month :: rest =>
      full_month ← calendar_working_days calendar month;
      month_result ← calculate_salary get_work_calendar month year full_month amount mode;
      annual_months calendar year amount mode rest (add_month annual_result month_result)
  end.

(* [annual_result] starts from the float 0.0 in the three keys *)
Definition annual_salary (year : Z) (amount : F) (mode : salary_mode)
  : result (SalaryResult F) :=
  let calendar := get_work_calendar year in
  annual_months calendar year amount mode (seqZ 1 12)
    {| before_tax := float_of_Z 0; tax := float_of_Z 0; after_tax := float_of_Z 0 |}.

End Page.

(* the rows of the schedule page: [schedule[i]] and [schedule[i + 1]] for
   i = 0, 2, 4, ... while [i + 1 < len(schedule)] *)
Fixpoint schedule_rows {F : Type} (schedule : list (PaydayScheduleItem F))
  : list (PaydayScheduleItem F * PaydayScheduleItem F) :=
  match schedule with
  | advance_row :: salary_row :: rest => (advance_row, salary_row) :: schedule_rows rest
  | _ => []
  end.

(* [working_days_list] when every input keeps its initial value, the
   [working_days] of the item *)
Definition initial_working_days {F : Type} (schedule : list (PaydayScheduleItem F))
  : list (Z * Z) :=
  map (fun row => (working_days (fst row), working_days (snd row)))
      (schedule_rows schedule).

(** ** More concrete data *)

Module Samples.

(* the months of a response for 2025, with the ids 0..11 of the source *)
Definition response_2025 : list Month :=
  map (fun m => snd (Data.month_entry (fst m) (snd m)))
    [(0, 17); (1, 20); (2, 21); (3, 22); (4, 18); (5, 19);
     (6, 23); (7, 21); (8, 22); (9, 23); (10, 19); (11, 22)].

(* a response in which July is sent twice and December is missing *)
Definition response_broken : list Month :=
  map (fun m => snd (Data.month_entry (fst m) (snd m)))
    [(0, 17); (1, 20); (2, 21); (3, 22); (4, 18); (5, 19);
     (6, 23); (7, 21); (8, 22); (9, 23); (10, 19); (6, 22)].

Definition YEARS : list Z := [2023; 2024; 2025].

End Samples.

(** ** Vocabulary of the statements *)

(* what the search returns, and when it raises *)
Definition search_result (start : date) (hs : HolidaysData) (r : result date) : Prop :=
  match r with
  | Ok found =>
      Date.valid found = true /\ Date.leb found start = true /\ is_working found hs = true /\
      forall d, Date.valid d = true -> Date.ltb found d = true -> Date.leb d start = true ->
                is_working d hs = false
  | Raise e =>
      e = DateOverflowError /\
      forall d, Date.valid d = true -> Date.leb d start = true -> is_working d hs = false
  end.

(* the two items of [month] in a schedule: positions 2(month-1) and 2(month-1)+1 *)
Definition advance_item {F : Type} (schedule : list (PaydayScheduleItem F)) (month : Z)
  : option (PaydayScheduleItem F) :=
  schedule !! Z.to_nat (2 * (month - 1)).

Definition salary_item {F : Type} (schedule : list (PaydayScheduleItem F)) (month : Z)
  : option (PaydayScheduleItem F) :=
  schedule !! Z.to_nat (2 * (month - 1) + 1).

(* the items a list of months contributes, in order *)
Definition month_pairs {F : Type}
  (pairs : list (PaydayScheduleItem F * PaydayScheduleItem F))
  : list (PaydayScheduleItem F) :=
  flat_map (fun p => [fst p; snd p]) pairs.

(* a caller's list of pairs that passes both checks *)
Definition valid_overrides (calendar : gmap Z Month) (wd : list (Z * Z)) : Prop :=
  length wd = 12%nat /\
  forall month a s days,
    wd !! Z.to_nat (month - 1) = Some (a, s) -> 1 <= month <= 12 ->
    calendar_working_days calendar month = Ok days -> a + s <= days.

(* the amount of the period, as the calculator computes it:
   [amount / work_days * days_worked] *)
Definition period_amount {F : Type} {ops : FloatOps F} (amount : F)
  (work_days days_worked : Z) : result F :=
  daily_rate ← float_div_int amount work_days;
  float_mul_int daily_rate days_worked.

(* the figures the calculator derives from the amount of the period *)
Definition salary_figures {F : Type} {ops : FloatOps F} (mode : salary_mode)
  (period_amount : F) : result (SalaryResult F) :=
  match mode with
  | BeforeTax =>
      let before_tax := period_amount in
      let tax := float_mul before_tax TAX_RATE in
      let after_tax := float_sub before_tax tax in
      Ok {| before_tax := before_tax; tax := tax; after_tax := after_tax |}
  | OnHand =>
      let after_tax := period_amount in
      complement ← int_sub_float 1 TAX_RATE;
      before_tax ← float_truediv after_tax complement;
      let tax := float_mul before_tax TAX_RATE in
      Ok {| before_tax := before_tax; tax := tax; after_tax := after_tax |}
  end.

(* the same amount over exact arithmetic *)
Definition exact_period_amount (amount : Q) (work_days days_worked : Z) : Q :=
  (amount / inject_Z work_days * inject_Z days_worked)%Q.

(* over exact arithmetic: all three figures of a result are non-negative *)
Definition nonnegative (r : SalaryResult Q) : Prop :=
  (0 <= before_tax r)%Q /\ (0 <= tax r)%Q /\ (0 <= after_tax r)%Q.

(* the float 0.0 and the comparisons [x >= 0.0] and [x < 0.0] of Python:
   both are false of NaN *)
Definition float_zero : spec_float := S754_zero false.

Definition float_ge_zero (x : spec_float) : bool := SFleb float_zero x.

Definition float_lt_zero (x : spec_float) : bool := SFltb x float_zero.

(* a float that is not below zero: a zero, a positive number, [inf] or NaN *)
Definition sign_not_negative (x : spec_float) : Prop :=
  match x with
  | S754_zero _ | S754_nan => True
  | S754_infinity s | S754_finite s _ _ => s = false
  end.

(* a float above zero: a positive number or [inf] *)
Definition sign_positive (x : spec_float) : Prop :=
  match x with
  | S754_infinity s | S754_finite s _ _ => s = false
  | _ => False
  end.

(* over the floats: none of the three figures of a result is below zero *)
Definition figures_not_negative (r : SalaryResult spec_float) : Prop :=
  float_lt_zero (before_tax r) = false /\ float_lt_zero (tax r) = false /\
  float_lt_zero (after_tax r) = false.



(* the month and year in which the salary of [month] is paid *)
Definition salary_month_of (year month : Z) : Z * Z :=
  if 12 <? month + 1 then (1, year + 1) else (month + 1, year).

(* the figure of a result that the mode takes from the prorated amount *)
Definition prorated_figure {F : Type} (mode : salary_mode) (r : SalaryResult F) : F :=
  match mode with
  | BeforeTax => before_tax r
  | OnHand => after_tax r
  end.

(* the two errors raised by the checks of the caller's list *)
Definition is_validation_error (e : py_error) : bool :=
  match e with
  | WorkingDaysLengthError | WorkingDaysTotalError _ _ _ => true
  | _ => false
  end.

(* the working days among the first fifteen days of a month *)
Definition first_half_working_days (year month : Z) (holidays_data : HolidaysData)
  : list Z :=
  filter (fun d => is_working (Date.Date year month d) holidays_data = true)
         (seqZ 1 15).

(* the inputs on which no step of [get_payday_schedule] raises: a year and
   an advance day that give valid dates, a calendar of twelve months whose
   counts are not zero and convert to [float], a working day on or before
   the first nominal date, and day counts that convert to [float]: the
   pairs of a list that passes both checks, or else the count left for the
   salary once the working days of the first half are taken *)
Definition schedule_inputs_ok (F : Type) {ops : FloatOps F}
  (calendar : gmap Z Month) (holidays_data : HolidaysData)
  (year advance_day : Z) (working_days : option (list (Z * Z))) : Prop :=
  1 <= year /\ year + 1 <= 9999 /\ 1 <= advance_day /\
  (forall month, 1 <= month <= 12 ->
     exists m, calendar !! month = Some m /\ workingDays m <> 0 /\
               float_in_range (workingDays m) = true) /\
  is_ok (get_previous_working_day
           (Date.Date year 1 (Z.min advance_day 31)) holidays_data) = true /\
  match working_days with
  | Some wd =>
      valid_overrides calendar wd /\
      forall a s, (a, s) ∈ wd ->
                  float_in_range a = true /\ float_in_range s = true
  | None =>
      forall month m, 1 <= month <= 12 -> calendar !! month = Some m ->
        float_in_range
          (workingDays m
           - Z.of_nat (length (first_half_working_days year month holidays_data)))
        = true
  end.

(* in January of [y] *)
Definition in_january (y : Z) (d : date) : Prop :=
  Date.year d = y /\ Date.month d = 1.

(* the nominal day of the salary payment *)
Definition nominal_salary_day (advance_day : Z) : Z :=
  Z.max 1 (advance_day - 15).

(* in month [m] of year [y] *)
Definition in_month (y m : Z) (d : date) : Prop :=
  Date.year d = y /\ Date.month d = m.

(* the nominal dates of the two payments of [month] *)
Definition nominal_advance_date (year advance_day month : Z) : date :=
  Date.Date year month (Z.min advance_day (Date.days_in_month year month)).

Definition nominal_salary_date (year advance_day month : Z) : date :=
  let '(salary_month, salary_year) := salary_month_of year month in
  Date.Date salary_year salary_month
    (Z.min (nominal_salary_day advance_day)
           (Date.days_in_month salary_year salary_month)).

(* the date computations of a month raise nothing: its two nominal dates
   are dates, and the search finds a working day from each *)
Definition month_dates_ok (year advance_day : Z) (holidays_data : HolidaysData)
  (month : Z) : Prop :=
  Date.valid (nominal_advance_date year advance_day month) = true /\
  Date.valid (nominal_salary_date year advance_day month) = true /\
  is_ok (get_previous_working_day
           (nominal_advance_date year advance_day month) holidays_data) = true /\
  is_ok (get_previous_working_day
           (nominal_salary_date year advance_day month) holidays_data) = true.

(* the exceptions [get_payday_schedule] can raise *)
Definition schedule_error (e : py_error) : Prop :=
  e = DateValueError \/ e = DateOverflowError \/ e = ZeroDivisionError \/
  e = FloatOverflowError \/
  (exists month, 1 <= month <= 12 /\ e = KeyError month) \/
  e = WorkingDaysLengthError \/
  (exists month total days,
      1 <= month <= 12 /\ days < total /\ e = WorkingDaysTotalError month total days).

(* over exact arithmetic: the three figures of two results are equal amounts *)
Definition same_amounts (r1 r2 : SalaryResult Q) : Prop :=
  (before_tax r1 == before_tax r2)%Q /\ (tax r1 == tax r2)%Q /\
  (after_tax r1 == after_tax r2)%Q.

(* over exact arithmetic: the three figures of [r1] are at most those of [r2] *)
Definition amounts_le (r1 r2 : SalaryResult Q) : Prop :=
  (before_tax r1 <= before_tax r2)%Q /\ (tax r1 <= tax r2)%Q /\
  (after_tax r1 <= after_tax r2)%Q.

(** * Properties *)

(** ** The calendar *)

Module DateFacts.
Import Date.

Lemma valid_spec d :
  valid d = true <->
  1 <= year d <= 9999 /\ 1 <= month d <= 12 /\
  1 <= day d <= days_in_month (year d) (month d).
Proof.
  unfold valid, MINYEAR, MAXYEAR.
  rewrite !andb_true_iff, !Z.leb_le. tauto.
Qed.

Lemma eqb_eq d1 d2 : eqb d1 d2 = true <-> d1 = d2.
Proof.
  unfold eqb. rewrite !andb_true_iff, !Z.eqb_eq.
  destruct d1, d2; simpl. split.
  - intros [[-> ->] ->]. reflexivity.
  - intros [= -> -> ->]. auto.
Qed.

Lemma eqb_refl d : eqb d d = true.
Proof. apply eqb_eq. reflexivity. Qed.

Lemma ltb_spec d1 d2 :
  ltb d1 d2 = true <->
  year d1 < year d2 \/
  (year d1 = year d2 /\
   (month d1 < month d2 \/ (month d1 = month d2 /\ day d1 < day d2))).
Proof.
  unfold ltb.
  rewrite !orb_true_iff, !andb_true_iff, !orb_true_iff, !andb_true_iff,
    !Z.ltb_lt, !Z.eqb_eq.
  tauto.
Qed.

Lemma leb_spec d1 d2 :
  leb d1 d2 = true <-> ltb d1 d2 = true \/ d1 = d2.
Proof. unfold leb. rewrite orb_true_iff, eqb_eq. tauto. Qed.

Lemma leb_refl d : leb d d = true.
Proof. apply leb_spec. right. reflexivity. Qed.

Lemma days_in_month_bounds y m : 28 <= days_in_month y m <= 31.
Proof.
  unfold days_in_month.
  repeat match goal with
         | |- context [match ?x with _ => _ end] => destruct x
         end; lia.
Qed.

Ltac to_props :=
  repeat match goal with
         | H : valid _ = true |- _ => apply valid_spec in H
         | H : leb _ _ = true |- _ => apply leb_spec in H
         | H : ltb _ _ = true |- _ => apply ltb_spec in H
         | H : eqb _ _ = true |- _ => apply eqb_eq in H
         end.

Lemma leb_trans d1 d2 d3 : leb d1 d2 = true -> leb d2 d3 = true -> leb d1 d3 = true.
Proof.
  intros H1 H2. apply leb_spec. to_props.
  destruct H1 as [H1 | ->]; [| tauto].
  destruct H2 as [H2 | <-]; [| tauto].
  to_props. left. apply ltb_spec. lia.
Qed.

Lemma ltb_leb_trans d1 d2 d3 : ltb d1 d2 = true -> leb d2 d3 = true -> ltb d1 d3 = true.
Proof.
  intros H1 H2. apply ltb_spec. to_props.
  destruct H2 as [H2 | <-]; [| exact H1].
  to_props. lia.
Qed.

Lemma ltb_irrefl d : ltb d d = false.
Proof.
  destruct (ltb d d) eqn:H; [| reflexivity]. to_props. lia.
Qed.

(* [d - timedelta(days=1)] of a date is a date, the day before *)
Lemma pred_valid d p : valid d = true -> pred d = Ok p -> valid p = true.
Proof.
  intros Hv. to_props. unfold pred, MINYEAR. destruct d as [y m dd]; simpl in *.
  pose proof (days_in_month_bounds y (m - 1)).
  split_ltb; intros [= <-]; apply valid_spec; simpl; lia.
Qed.

Lemma pred_ltb d p : valid d = true -> pred d = Ok p -> ltb p d = true.
Proof.
  intros Hv. to_props. unfold pred, MINYEAR. destruct d as [y m dd]; simpl in *.
  split_ltb; intros [= <-]; apply ltb_spec; simpl; lia.
Qed.

(* the only date without a previous day is 0001-01-01 *)
Lemma pred_overflow d e :
  valid d = true -> pred d = Raise e -> d = Date 1 1 1 /\ e = DateOverflowError.
Proof.
  intros Hv. to_props. unfold pred, MINYEAR. destruct d as [y m dd]; simpl in *.
  split_ltb; intros [= <-]. split; [f_equal; lia | reflexivity].
Qed.

(* no date lies strictly between a date and the day before *)
Lemma leb_pred d p x :
  valid d = true -> valid x = true -> pred d = Ok p ->
  leb x d = true -> x <> d -> leb x p = true.
Proof.
  intros Hd Hx Hp Hle Hne. to_props.
  destruct Hle as [Hlt | ->]; [| contradiction]. to_props.
  revert Hp. unfold pred, MINYEAR.
  destruct d as [y m dd], x as [xy xm xd]; simpl in *.
  split_ltb; intros [= <-]; apply leb_spec; simpl.
  - destruct (Z.eq_dec xd (dd - 1)) as [-> |].
    + destruct (Z.eq_dec xm m) as [-> |]; [| left; apply ltb_spec; simpl; lia].
      destruct (Z.eq_dec xy y) as [-> |]; [| left; apply ltb_spec; simpl; lia].
      right. reflexivity.
    + left. apply ltb_spec; simpl. lia.
  - destruct (Z.eq_dec xy y) as [-> |]; [| left; apply ltb_spec; simpl; lia].
    destruct (Z.eq_dec xm (m - 1)) as [-> |]; [| left; apply ltb_spec; simpl; lia].
    destruct (Z.eq_dec xd (days_in_month y (m - 1))) as [-> |];
      [right; reflexivity | left; apply ltb_spec; simpl; lia].
  - destruct (Z.eq_dec xy (y - 1)) as [-> |]; [| left; apply ltb_spec; simpl; lia].
    destruct (Z.eq_dec xm 12) as [-> |]; [| left; apply ltb_spec; simpl; lia].
    simpl in Hx.
    destruct (Z.eq_dec xd 31) as [-> |];
      [right; reflexivity | left; apply ltb_spec; simpl; lia].
Qed.

Lemma leb_min x : valid x = true -> leb x (Date 1 1 1) = true -> x = Date 1 1 1.
Proof.
  intros Hx Hle. to_props. destruct Hle as [Hlt | ->]; [| reflexivity].
  to_props. destruct x; simpl in *. lia.
Qed.

End DateFacts.

Section Search.
Import Date DateFacts.

Lemma get_previous_working_day_step d hs :
  get_previous_working_day d hs =
  if is_working d hs then Ok d
  else match pred d with
       | Ok p => get_previous_working_day p hs
       | Raise e => Raise e
       end.
Proof.
  funelim (get_previous_working_day d hs).
  - rewrite Hw. reflexivity.
  - rewrite Hw, Hp. reflexivity.
  - rewrite Hw, Hp. reflexivity.
Qed.

Lemma get_previous_working_day_spec start hs :
  valid start = true -> search_result start hs (get_previous_working_day start hs).
Proof.
  funelim (get_previous_working_day start hs); intros Hv.
  - repeat split; auto using leb_refl.
    intros d _ Hlt Hle.
    pose proof (ltb_leb_trans _ _ _ Hlt Hle) as Hc.
    rewrite ltb_irrefl in Hc. discriminate.
  - pose proof (pred_valid _ _ Hv Hp) as Hvp.
    pose proof (pred_ltb _ _ Hv Hp) as Hlt.
    specialize (H Hvp).
    assert (Hstep : forall d, valid d = true -> leb d current_date = true ->
                              d = current_date \/ leb d previous = true).
    { intros d Hd Hle. destruct (eqb d current_date) eqn:He.
      - left. apply eqb_eq. exact He.
      - right. apply (leb_pred current_date previous d); auto.
        intros ->. rewrite eqb_refl in He. discriminate. }
    destruct (get_previous_working_day previous holidays_data) as [found | e]; simpl in *.
    + destruct H as (Hvf & Hlf & Hwf & Hmax). repeat split; auto.
      * apply (leb_trans _ previous); auto. apply leb_spec. auto.
      * intros d Hd Hfd Hle. destruct (Hstep d Hd Hle) as [-> | Hle']; auto.
    + destruct H as (-> & Hnone). split; auto.
      intros d Hd Hle. destruct (Hstep d Hd Hle) as [-> | Hle']; auto.
  - destruct (pred_overflow _ _ Hv Hp) as [-> ->]. simpl. split; auto.
    intros d Hd Hle. rewrite (leb_min d Hd Hle). exact Hw.
Qed.

End Search.

(** C10 as stated fails at the first day of the calendar: when 0001-01-01
    (a Monday) is a listed holiday, the search from it steps below
    [date.min] and raises [OverflowError] instead of returning a day. *)
Lemma get_previous_working_day_overflows :
  Date.valid (Date.Date 1 1 1) = true /\
  get_previous_working_day (Date.Date 1 1 1) Data.holidays_year_1
    = Raise DateOverflowError /\
  ~ (exists found,
        get_previous_working_day (Date.Date 1 1 1) Data.holidays_year_1 = Ok found).
Proof.
  assert (H : get_previous_working_day (Date.Date 1 1 1) Data.holidays_year_1
              = Raise DateOverflowError) by (vm_compute; reflexivity).
  split; [reflexivity | split; [exact H |]].
  intros [found Hf]. rewrite H in Hf. discriminate.
Qed.

(** ** The error monad *)

Lemma bind_Ok {A B : Type} (r : result A) (k : A -> result B) (b : B) :
  r ≫= k = Ok b <-> exists a, r = Ok a /\ k a = Ok b.
Proof.
  destruct r as [a | e]; simpl; split.
  - intros H. exists a. auto.
  - intros (a' & [= <-] & H). exact H.
  - discriminate.
  - intros (a' & [=] & _).
Qed.

Lemma bind_Raise {A B : Type} (r : result A) (k : A -> result B) (e : py_error) :
  r ≫= k = Raise e <-> r = Raise e \/ exists a, r = Ok a /\ k a = Raise e.
Proof.
  destruct r as [a | e']; simpl; split.
  - intros H. right. exists a. auto.
  - intros [[=] | (a' & [= <-] & H)]. exact H.
  - intros [= ->]. auto.
  - intros [[= ->] | (a' & [=] & _)]. reflexivity.
Qed.

(** ** The arithmetic of the floats *)

Section Rounding.

(* the mantissa of a shifted record: the quotient by the power of two *)
Lemma shr_1_m mrs : 0 <= shr_m mrs -> shr_m (shr_1 mrs) = shr_m mrs / 2.
Proof.
  destruct mrs as [m r s]; simpl. intros Hm.
  destruct m as [| [p | p |] | p]; simpl; try lia;
    Z.to_euclidean_division_equations; lia.
Qed.

Lemma iter_shr_1_m (n : positive) : forall mrs,
  0 <= shr_m mrs ->
  shr_m (SpecFloat.iter_pos shr_1 n mrs) = shr_m mrs / 2 ^ Zpos n.
Proof.
  induction n as [n IH | n IH |]; intros mrs Hm; simpl SpecFloat.iter_pos.
  - assert (H1 : 0 <= shr_m (shr_1 mrs))
      by (rewrite shr_1_m by exact Hm; apply Z.div_pos; lia).
    assert (H2 : 0 <= shr_m (SpecFloat.iter_pos shr_1 n (shr_1 mrs)))
      by (rewrite IH by exact H1; apply Z.div_pos; lia).
    rewrite IH by exact H2. rewrite IH by exact H1. rewrite shr_1_m by exact Hm.
    rewrite !Z.div_div by lia. f_equal.
    rewrite Pos2Z.inj_xI, Z.pow_add_r, Z.pow_mul_r by lia.
    change (2 ^ 2) with 4. change (2 ^ 1) with 2.
    replace (4 ^ Z.pos n) with (2 ^ Z.pos n * 2 ^ Z.pos n)
      by (rewrite <- Z.pow_add_r by lia; replace (Z.pos n + Z.pos n) with (2 * Z.pos n) by lia;
          rewrite Z.pow_mul_r by lia; reflexivity).
    ring.
  - assert (H1 : 0 <= shr_m (SpecFloat.iter_pos shr_1 n mrs))
      by (rewrite IH by exact Hm; apply Z.div_pos; lia).
    rewrite IH by exact H1. rewrite IH by exact Hm.
    rewrite Z.div_div by lia. f_equal.
    rewrite Pos2Z.inj_xO. rewrite <- Z.pow_add_r by lia. f_equal. lia.
  - rewrite shr_1_m by exact Hm. reflexivity.
Qed.

Lemma digits2_pos_size p : digits2_pos p = Pos.size p.
Proof. induction p; simpl; congruence. Qed.

Lemma digits2_pos_le p : 2 ^ (Zpos (digits2_pos p) - 1) <= Zpos p.
Proof.
  rewrite digits2_pos_size.
  pose proof (Pos.size_le p) as H.
  assert (H' : 2 ^ Zpos (Pos.size p) <= 2 * Zpos p).
  { change 2 with (Zpos 2) at 1. rewrite <- Pos2Z.inj_pow. 
    change (2 * Z.pos p) with (Zpos (2 * p)). apply Pos2Z.pos_le_pos. exact H. }
  replace (Zpos (Pos.size p)) with (Zpos (Pos.size p) - 1 + 1) in H' by lia.
  rewrite Z.pow_add_r in H' by lia. lia.
Qed.

(* a positive mantissa at an exponent that is not below the least one
   stays positive under the shift of the rounding *)
Lemma shr_fexp_positive m e l mrs e' :
  0 < m -> -1074 <= e ->
  shr_fexp 53 1024 m e l = (mrs, e') ->
  0 < shr_m mrs /\ -1074 <= e'.
Proof.
  intros Hm He. unfold shr_fexp, shr.
  assert (Hrec : shr_m (shr_record_of_loc m l) = m)
    by (destruct l as [| []]; reflexivity).
  destruct m as [| p | p]; try lia.
  change (Zdigits2 (Z.pos p)) with (Zpos (digits2_pos p)).
  pose proof (digits2_pos_le p) as Hd.
  set (d := Zpos (digits2_pos p)) in *.
  assert (Hn : fexp 53 1024 (d + e) - e <= d - 1).
  { unfold fexp, emin. lia. }
  destruct (fexp 53 1024 (d + e) - e) as [| n | n] eqn:En.
  - intros [= <- <-]. rewrite Hrec. lia.
  - intros [= <- <-]. rewrite iter_shr_1_m by (rewrite Hrec; lia).
    rewrite Hrec. split; [| lia].
    apply Z.div_str_pos. split; [apply Z.pow_pos_nonneg; lia |].
    apply Z.le_trans with (2 ^ (d - 1)); [| exact Hd].
    apply Z.pow_le_mono_r; lia.
  - intros [= <- <-]. rewrite Hrec. lia.
Qed.

Lemma round_nearest_even_ge m l : m <= round_nearest_even m l.
Proof. destruct l as [| []]; simpl; try lia. destruct (Z.even m); lia. Qed.

(* rounding a positive mantissa at such an exponent gives a number or an
   infinity of the sign, neither a zero nor NaN *)
Lemma binary_round_aux_cases s m e l :
  0 < m -> -1074 <= e ->
  (exists m' e', binary_round_aux 53 1024 s m e l = S754_finite s m' e') \/
  binary_round_aux 53 1024 s m e l = S754_infinity s.
Proof.
  intros Hm He. unfold binary_round_aux.
  destruct (shr_fexp 53 1024 m e l) as [mrs' e'] eqn:E1.
  destruct (shr_fexp_positive _ _ _ _ _ Hm He E1) as [Hm' He'].
  pose proof (round_nearest_even_ge (shr_m mrs') (loc_of_shr_record mrs')) as Hr.
  destruct (shr_fexp 53 1024 _ e' loc_Exact) as [mrs'' e''] eqn:E2.
  assert (Hpos : 0 < round_nearest_even (shr_m mrs') (loc_of_shr_record mrs')) by lia.
  destruct (shr_fexp_positive _ _ _ _ _ Hpos He' E2) as [Hm'' _].
  destruct (shr_m mrs''); try lia.
  destruct (e'' <=? 1024 - 53); eauto.
Qed.

Lemma binary_round_aux_not_zero s m e l :
  0 < m -> -1074 <= e ->
  float_is_zero (binary_round_aux 53 1024 s m e l) = false.
Proof.
  intros Hm He.
  destruct (binary_round_aux_cases s m e l Hm He) as [(m' & e' & ->) | ->];
    reflexivity.
Qed.

Lemma binary_round_aux_not_nan s m e l :
  0 < m -> -1074 <= e -> binary_round_aux 53 1024 s m e l <> S754_nan.
Proof.
  intros Hm He.
  destruct (binary_round_aux_cases s m e l Hm He) as [(m' & e' & ->) | ->];
    discriminate.
Qed.

Lemma float_of_Z_not_zero i :
  i <> 0 -> float_is_zero (float_of_Z (F := spec_float) i) = false.
Proof.
  intros Hi. simpl. unfold binary_normalize.
  assert (Hround : forall s p, float_is_zero (binary_round 53 1024 s p 0) = false).
  { intros s p. unfold binary_round, shl_align.
    set (d := Zpos (digits2_pos p)).
    assert (Hf : -1074 <= fexp 53 1024 (d + 0)) by (unfold fexp, emin; lia).
    destruct (fexp 53 1024 (d + 0) - 0) as [| n | n] eqn:En;
      apply binary_round_aux_not_zero; lia. }
  destruct i as [| p | p]; [lia | apply Hround | apply Hround].
Qed.

End Rounding.

#[global] Instance binary64_laws : FloatLaws spec_float.
Proof.
  split.
  - intros i _. split.
    + intros Hz. destruct (Z.eq_dec i 0) as [-> | Hi]; [reflexivity |].
      rewrite (float_of_Z_not_zero i Hi) in Hz. discriminate.
    + intros ->. reflexivity.
  - intros a b i Ha Hb Hi. simpl in *.
    apply Z.ltb_lt in Ha, Hb. apply Z.ltb_lt. lia.
  - intros i Hi. simpl. apply Z.ltb_lt.
    assert (Hb : 2 ^ 53 < float_int_bound) by (vm_compute; reflexivity).
    lia.
  - vm_compute. reflexivity.
Qed.

#[global] Instance exact_laws : FloatLaws Q.
Proof.
  split.
  - intros i _. simpl. rewrite Qeq_bool_iff. unfold Qeq; simpl. lia.
  - reflexivity.
  - reflexivity.
  - vm_compute. reflexivity.
Qed.


(** ** The signs of the floats *)

Lemma binary_round_aux_sign m e l :
  sign_not_negative (binary_round_aux 53 1024 false m e l).
Proof.
  unfold binary_round_aux.
  destruct (shr_fexp 53 1024 m e l) as [mrs' e'].
  destruct (shr_fexp 53 1024 _ e' loc_Exact) as [mrs'' e''].
  destruct (shr_m mrs''); simpl; [exact I | | exact I].
  destruct (e'' <=? 1024 - 53); reflexivity.
Qed.

Lemma float_of_Z_sign i :
  0 <= i -> sign_not_negative (float_of_Z (F := spec_float) i).
Proof.
  intros Hi. simpl. unfold binary_normalize.
  destruct i as [| p | p]; [exact I | | lia].
  unfold binary_round. destruct (shl_align _ _ _) as [mz ez].
  apply binary_round_aux_sign.
Qed.

Lemma float_of_Z_positive i :
  0 < i -> sign_positive (float_of_Z (F := spec_float) i).
Proof.
  intros Hi.
  pose proof (float_of_Z_sign i ltac:(lia)) as Hs.
  pose proof (float_of_Z_not_zero i ltac:(lia)) as Hz.
  assert (Hn : float_of_Z (F := spec_float) i <> S754_nan).
  { simpl. unfold binary_normalize. destruct i as [| p | p]; try lia.
    unfold binary_round, shl_align.
    set (d := Zpos (digits2_pos p)).
    assert (Hf : -1074 <= fexp 53 1024 (d + 0)) by (unfold fexp, emin; lia).
    destruct (fexp 53 1024 (d + 0) - 0) as [| n | n] eqn:En;
      apply binary_round_aux_not_nan; lia. }
  destruct (float_of_Z (F := spec_float) i) as [s | s | | s m e];
    simpl in *; try discriminate; try congruence.
Qed.

Lemma float_ge_zero_sign x : float_ge_zero x = true -> sign_not_negative x.
Proof. destruct x as [s | [] | | [] m e]; simpl; try discriminate; auto. Qed.

Lemma sign_not_negative_lt_zero x : sign_not_negative x -> float_lt_zero x = false.
Proof. destruct x as [[] | [] | | [] m e]; simpl; try discriminate; auto. Qed.

Lemma sign_positive_not_negative x : sign_positive x -> sign_not_negative x.
Proof. destruct x; simpl; tauto. Qed.

Lemma SFmul_sign x y :
  sign_not_negative x -> sign_not_negative y ->
  sign_not_negative (SFmul 53 1024 x y).
Proof.
  destruct x as [sx | sx | | sx mx ex], y as [sy | sy | | sy my ey]; simpl;
    try tauto; try (intros -> ->; reflexivity).
  intros -> ->. apply binary_round_aux_sign.
Qed.

Lemma SFdiv_sign x y :
  sign_not_negative x -> sign_positive y ->
  sign_not_negative (SFdiv 53 1024 x y).
Proof.
  destruct x as [sx | sx | | sx mx ex], y as [sy | sy | | sy my ey]; simpl;
    try tauto; try (intros -> ->; reflexivity).
  intros -> ->. destruct (SFdiv_core_binary _ _ _ _ _ _) as [[mz ez] lz].
  apply binary_round_aux_sign.
Qed.

Lemma TAX_RATE_positive : sign_positive (TAX_RATE (F := spec_float)).
Proof. vm_compute. reflexivity. Qed.

Lemma complement_positive :
  sign_positive (float_sub (float_of_Z 1) (TAX_RATE (F := spec_float))).
Proof. vm_compute. reflexivity. Qed.

(** ** The size of the rounded floats *)

Section Bounds.

Lemma iter_pos_nat {A : Type} (f : A -> A) (n : positive) : forall x,
  SpecFloat.iter_pos f n x = Nat.iter (Pos.to_nat n) f x.
Proof.
  induction n as [n IH | n IH |]; intros x; simpl SpecFloat.iter_pos.
  - rewrite !IH, Pos2Nat.inj_xI.
    replace (S (2 * Pos.to_nat n)) with (Pos.to_nat n + (Pos.to_nat n + 1))%nat
      by lia.
    rewrite !Nat.iter_add. reflexivity.
  - rewrite !IH, Pos2Nat.inj_xO.
    replace (2 * Pos.to_nat n)%nat with (Pos.to_nat n + Pos.to_nat n)%nat by lia.
    rewrite Nat.iter_add. reflexivity.
  - reflexivity.
Qed.

(* the round bit after a shift is the bit shifted out *)
Lemma shr_1_r mrs : 0 <= shr_m mrs -> shr_r (shr_1 mrs) = Z.odd (shr_m mrs).
Proof.
  destruct mrs as [m r s]; simpl. intros Hm.
  destruct m as [| [p | p |] | p]; simpl; try reflexivity; lia.
Qed.

Lemma odd_quotient_mod m k :
  0 <= m -> 0 <= k -> Z.odd (m / 2 ^ k) = true -> 2 ^ k <= m mod 2 ^ (k + 1).
Proof.
  intros Hm Hk Hodd.
  assert (HP : 0 < 2 ^ k) by (apply Z.pow_pos_nonneg; lia).
  rewrite Z.pow_add_r by lia. change (2 ^ 1) with 2.
  set (P := 2 ^ k) in *.
  pose proof (Z.div_mod m P ltac:(lia)) as Hdm.
  pose proof (Z.mod_pos_bound m P HP) as Hr.
  set (q := m / P) in *. set (r0 := m mod P) in *.
  rewrite Z.odd_spec in Hodd. destruct Hodd as [q' Hq'].
  assert (Hmod : P + r0 = m mod (P * 2)).
  { apply (Z.mod_unique m (P * 2) q'); [left; lia | lia]. }
  lia.
Qed.

(* the record after [k] shifts of a mantissa that starts exact *)
Lemma shr_nat (k : nat) m :
  0 <= m ->
  let mrs := Nat.iter k shr_1 (Build_shr_record m false false) in
  shr_m mrs = m / 2 ^ Z.of_nat k /\
  (shr_r mrs = true -> (0 < k)%nat /\ 2 ^ (Z.of_nat k - 1) <= m mod 2 ^ Z.of_nat k).
Proof.
  intros Hm. induction k as [| k [IHm IHr]]; cbv zeta.
  - simpl. split; [rewrite Z.div_1_r; reflexivity | discriminate].
  - simpl Nat.iter.
    set (mrs := Nat.iter k shr_1 (Build_shr_record m false false)) in *.
    assert (Hpos : 0 <= shr_m mrs)
      by (rewrite IHm; apply Z.div_pos; [lia | apply Z.pow_pos_nonneg; lia]).
    split.
    + rewrite shr_1_m by exact Hpos. rewrite IHm, Z.div_div by
        (try apply Z.pow_pos_nonneg; lia).
      f_equal. rewrite Nat2Z.inj_succ, Z.pow_succ_r by lia. ring.
    + rewrite shr_1_r by exact Hpos. rewrite IHm. intros Hodd.
      split; [lia |].
      replace (Z.of_nat (S k) - 1) with (Z.of_nat k) by lia.
      replace (Z.of_nat (S k)) with (Z.of_nat k + 1) by lia.
      apply odd_quotient_mod; [exact Hm | lia | exact Hodd].
Qed.

Lemma round_nearest_even_le m l : round_nearest_even m l <= m + 1.
Proof. destruct l as [| []]; simpl; try lia. destruct (Z.even m); lia. Qed.

Lemma round_nearest_even_up mrs :
  shr_r mrs = false ->
  round_nearest_even (shr_m mrs) (loc_of_shr_record mrs) = shr_m mrs.
Proof. destruct mrs as [m [] []]; simpl; intros H; try discriminate; reflexivity. Qed.

(* the first step of the rounding of an exact product: the shifted and
   rounded mantissa is worth at most twice the product *)
Lemma shift_round_le m e mrs e1 :
  0 < m ->
  shr_fexp 53 1024 m e loc_Exact = (mrs, e1) ->
  let m2 := round_nearest_even (shr_m mrs) (loc_of_shr_record mrs) in
  0 <= m2 /\ e <= e1 /\ m2 * 2 ^ (e1 - e) <= 2 * m /\
  (e1 = e \/ e1 = fexp 53 1024 (Zdigits2 m + e)).
Proof.
  intros Hm. unfold shr_fexp, shr. simpl shr_record_of_loc.
  destruct (fexp 53 1024 (Zdigits2 m + e) - e) as [| n | n] eqn:En.
  - intros [= <- <-]. simpl. rewrite Z.sub_diag. simpl. lia.
  - intros [= <- <-]. rewrite iter_pos_nat.
    pose proof (shr_nat (Pos.to_nat n) m ltac:(lia)) as [Hsm Hsr].
    set (mrs := Nat.iter (Pos.to_nat n) shr_1 (Build_shr_record m false false)) in *.
    rewrite positive_nat_Z in Hsm, Hsr.
    assert (HP : 0 < 2 ^ Z.pos n) by (apply Z.pow_pos_nonneg; lia).
    assert (Hq : 0 <= m / 2 ^ Z.pos n) by (apply Z.div_pos; lia).
    pose proof (Z.div_mod m (2 ^ Z.pos n) ltac:(lia)) as Hdm.
    pose proof (Z.mod_pos_bound m (2 ^ Z.pos n) HP) as Hr.
    pose proof (round_nearest_even_ge (shr_m mrs) (loc_of_shr_record mrs)) as Hge.
    pose proof (round_nearest_even_le (shr_m mrs) (loc_of_shr_record mrs)) as Hle.
    cbv zeta. replace (e + Z.pos n - e) with (Z.pos n) by lia.
    split; [lia |]. split; [lia |]. split; [| right; lia].
    destruct (shr_r mrs) eqn:Er.
    + destruct (Hsr eq_refl) as [_ Hhalf].
      assert (Hpow : 2 ^ Z.pos n = 2 * 2 ^ (Z.pos n - 1)).
      { replace (Z.pos n) with (Z.succ (Z.pos n - 1)) at 1 by lia.
        rewrite Z.pow_succ_r by lia. reflexivity. }
      set (P := 2 ^ Z.pos n) in *. set (q := m / P) in *. set (r := m mod P) in *.
      set (m2 := round_nearest_even (shr_m mrs) (loc_of_shr_record mrs)) in *.
      assert (Hup : m2 * P <= (q + 1) * P) by (apply Z.mul_le_mono_nonneg_r; lia).
      lia.
    + rewrite (round_nearest_even_up mrs Er), Hsm.
      set (P := 2 ^ Z.pos n) in *. set (q := m / P) in *. set (r := m mod P) in *.
      lia.
  - intros [= <- <-]. simpl. rewrite Z.sub_diag. simpl. lia.
Qed.

Lemma Zdigits2_lt (z : Z) : 0 <= z -> z < 2 ^ Zdigits2 z.
Proof.
  destruct z as [| p | p]; [intros _; reflexivity | intros _ | lia].
  simpl. rewrite digits2_pos_size.
  pose proof (Pos.size_gt p) as H.
  apply Pos2Z.pos_lt_pos in H. rewrite Pos2Z.inj_pow in H. exact H.
Qed.

Lemma Zdigits2_le (z k : Z) : 0 <= z -> 0 <= k -> z < 2 ^ k -> Zdigits2 z <= k.
Proof.
  intros Hz Hk Hlt. destruct z as [| p | p]; [simpl; lia | | lia].
  simpl. pose proof (digits2_pos_le p) as Hd.
  destruct (Z.le_gt_cases (Z.pos (digits2_pos p)) k) as [H | H]; [exact H |].
  assert (Hmono : 2 ^ k <= 2 ^ (Z.pos (digits2_pos p) - 1))
    by (apply Z.pow_le_mono_r; lia).
  lia.
Qed.

(* the second step: the shift that absorbs a carry does not increase the value *)
Lemma shift_le m e l mrs e' :
  0 <= m ->
  shr_fexp 53 1024 m e l = (mrs, e') ->
  0 <= shr_m mrs /\ e <= e' /\ shr_m mrs * 2 ^ (e' - e) <= m /\
  shr_m mrs < 2 ^ 53 /\
  (e' = e \/ e' = fexp 53 1024 (Zdigits2 m + e)).
Proof.
  intros Hm. unfold shr_fexp, shr.
  assert (Hrec : shr_m (shr_record_of_loc m l) = m)
    by (destruct l as [| []]; reflexivity).
  pose proof (Zdigits2_lt m Hm) as Hd.
  assert (Hd0 : 0 <= Zdigits2 m) by (destruct m; simpl; lia).
  destruct (fexp 53 1024 (Zdigits2 m + e) - e) as [| n | n] eqn:En.
  - intros [= <- <-]. rewrite Hrec, Z.sub_diag. simpl.
    assert (Hle : 2 ^ Zdigits2 m <= 2 ^ 53)
      by (apply Z.pow_le_mono_r; unfold fexp, emin in En; lia).
    lia.
  - intros [= <- <-]. rewrite iter_shr_1_m by (rewrite Hrec; exact Hm).
    rewrite Hrec. replace (e + Z.pos n - e) with (Z.pos n) by lia.
    assert (HP : 0 < 2 ^ Z.pos n) by (apply Z.pow_pos_nonneg; lia).
    split; [apply Z.div_pos; lia |]. split; [lia |].
    split; [rewrite Z.mul_comm; apply Z.mul_div_le; lia |].
    split; [| right; lia].
    apply Z.div_lt_upper_bound; [lia |].
    rewrite <- Z.pow_add_r by lia.
    apply Z.lt_le_trans with (2 ^ Zdigits2 m); [exact Hd |].
    apply Z.pow_le_mono_r; [lia |]. unfold fexp, emin in En. lia.
  - intros [= <- <-]. rewrite Hrec, Z.sub_diag. simpl.
    assert (Hle : 2 ^ Zdigits2 m <= 2 ^ 53)
      by (apply Z.pow_le_mono_r; unfold fexp, emin in En; lia).
    lia.
Qed.

(* the rounding of an exact positive product: a number of bounded size,
   worth at most twice the product; an infinity only for a large product *)
Lemma binary_round_aux_exact s m e :
  0 < m ->
  match binary_round_aux 53 1024 s m e loc_Exact with
  | S754_zero s' => s' = s
  | S754_finite s' m' e' =>
      s' = s /\ Z.pos m' < 2 ^ 53 /\ e' <= 971 /\ e <= e' /\
      Z.pos m' * 2 ^ (e' - e) <= 2 * m
  | S754_infinity s' => s' = s /\ (971 < e \/ 2 ^ (1024 - e) <= 2 * m)
  | S754_nan => False
  end.
Proof.
  intros Hm. unfold binary_round_aux.
  destruct (shr_fexp 53 1024 m e loc_Exact) as [mrs1 e1] eqn:E1.
  destruct (shift_round_le m e mrs1 e1 Hm E1) as (Hm2 & He1 & Hv1 & Hc1).
  set (m2 := round_nearest_even (shr_m mrs1) (loc_of_shr_record mrs1)) in *.
  destruct (shr_fexp 53 1024 m2 e1 loc_Exact) as [mrs2 e2] eqn:E2.
  destruct (shift_le m2 e1 loc_Exact mrs2 e2 Hm2 E2) as (Hm3 & He2 & Hv2 & Hb & Hc2).
  assert (Hvalue : shr_m mrs2 * 2 ^ (e2 - e) <= 2 * m).
  { replace (e2 - e) with ((e2 - e1) + (e1 - e)) by lia.
    rewrite Z.pow_add_r by lia.
    assert (0 < 2 ^ (e1 - e)) by (apply Z.pow_pos_nonneg; lia).
    nia. }
  destruct (shr_m mrs2) as [| m3 | m3] eqn:Em3; [reflexivity | | lia].
  destruct (Z.leb_spec e2 (1024 - 53)).
  - split; [reflexivity |]. split; [exact Hb |]. repeat split; (lia || exact Hvalue).
  - split; [reflexivity |].
    destruct (Z.le_gt_cases e 971) as [He | He]; [| left; lia]. right.
    destruct (Z.le_gt_cases (2 ^ (1024 - e)) (2 * m)) as [Hbig | Hsmall];
      [exact Hbig | exfalso].
    (* a product below 2^(1024-e) has few enough digits at each step *)
    assert (Hd1 : Zdigits2 m + e <= 1024).
    { assert (Zdigits2 m <= 1024 - e); [| lia].
      apply Zdigits2_le; [lia | lia | lia]. }
    assert (He1' : e1 <= 971) by (unfold fexp, emin in Hc1; lia).
    assert (Hm2lt : m2 < 2 ^ (1024 - e1)).
    { assert (Hsplit : 2 ^ (1024 - e) = 2 ^ (1024 - e1) * 2 ^ (e1 - e)).
      { rewrite <- Z.pow_add_r by lia. f_equal. lia. }
      assert (0 < 2 ^ (e1 - e)) by (apply Z.pow_pos_nonneg; lia).
      assert (0 < 2 ^ (1024 - e1)) by (apply Z.pow_pos_nonneg; lia).
      nia. }
    assert (Hd2 : Zdigits2 m2 + e1 <= 1024).
    { assert (Zdigits2 m2 <= 1024 - e1); [| lia].
      apply Zdigits2_le; lia. }
    unfold fexp, emin in Hc2. lia.
Qed.

(* the numbers the products and quotients of the code return *)
Lemma SFmul_bounded x y :
  match SFmul 53 1024 x y with
  | S754_finite _ m e => Z.pos m < 2 ^ 53 /\ e <= 971
  | _ => True
  end.
Proof.
  destruct x as [sx | sx | | sx mx ex], y as [sy | sy | | sy my ey]; simpl;
    try exact I.
  pose proof (binary_round_aux_exact (xorb sx sy) (Z.pos (mx * my)) (ex + ey)
                ltac:(lia)) as H.
  destruct (binary_round_aux 53 1024 _ _ _ _); try exact I. tauto.
Qed.

Lemma shl_align_fst mx ex ez :
  ez <= ex -> Z.pos (fst (shl_align mx ex ez)) = Z.pos mx * 2 ^ (ex - ez).
Proof.
  intros Hle. unfold shl_align.
  destruct (ez - ex) as [| d | d] eqn:Ed; simpl fst.
  - replace (ex - ez) with 0 by lia. simpl. lia.
  - lia.
  - replace (ex - ez) with (Z.pos d) by lia. clear Ed Hle.
    induction d as [| d IH] using Pos.peano_ind.
    + simpl. lia.
    + rewrite Pos.iter_succ, Pos2Z.inj_xO, IH, Pos2Z.inj_succ, Z.pow_succ_r by lia.
      ring.
Qed.

Lemma TAX_RATE_value :
  TAX_RATE (F := spec_float) = S754_finite false 4683743612465316 (-55).
Proof. vm_compute. reflexivity. Qed.

(* what is left of a number once its tax is taken is not below zero *)
Lemma SFsub_tax_sign x :
  sign_not_negative x ->
  match x with S754_finite _ m e => Z.pos m < 2 ^ 53 /\ e <= 971 | _ => True end ->
  sign_not_negative (SFsub 53 1024 x (SFmul 53 1024 x TAX_RATE)).
Proof.
  rewrite TAX_RATE_value.
  destruct x as [[] | [] | | [] mb eb]; simpl; try tauto; try discriminate.
  intros _ [Hmb Heb].
  pose proof (binary_round_aux_exact false (Z.pos (mb * 4683743612465316))
                (eb + -55) ltac:(lia)) as H.
  assert (Hprod : 2 * Z.pos (mb * 4683743612465316) < Z.pos mb * 2 ^ 55).
  { rewrite Pos2Z.inj_mul. change (2 ^ 55) with 36028797018963968. lia. }
  destruct (binary_round_aux 53 1024 false _ _ loc_Exact)
    as [s' | s' | | s' m' e'] eqn:Etax.
  - reflexivity.
  - exfalso. destruct H as [_ [H | H]]; [lia |].
    assert (Hpow : 2 ^ 108 <= 2 ^ (1024 - (eb + -55)))
      by (apply Z.pow_le_mono_r; lia).
    change (2 ^ 108) with (2 ^ 53 * 2 ^ 55) in Hpow.
    change (2 ^ 55) with 36028797018963968 in *.
    change (2 ^ 53) with 9007199254740992 in *. nia.
  - destruct H.
  - destruct H as (-> & _ & _ & He' & Hv).
    unfold binary_normalize, cond_Zopp.
    set (ez := Z.min eb e').
    rewrite (shl_align_fst mb eb ez), (shl_align_fst m' e' ez) by (unfold ez; lia).
    set (D := Z.pos mb * 2 ^ (eb - ez) - Z.pos m' * 2 ^ (e' - ez)).
    assert (HD : 0 <= D).
    { unfold D.
      assert (Hez : eb + -55 <= ez) by (unfold ez; lia).
      assert (Hs1 : 2 ^ (e' - (eb + -55)) = 2 ^ (e' - ez) * 2 ^ (ez - (eb + -55))).
      { rewrite <- Z.pow_add_r by (unfold ez; lia). f_equal. lia. }
      assert (Hs2 : 2 ^ 55 = 2 ^ (eb - ez) * 2 ^ (ez - (eb + -55))).
      { rewrite <- Z.pow_add_r by (unfold ez; lia). f_equal. lia. }
      assert (Hp : 0 < 2 ^ (ez - (eb + -55))) by (apply Z.pow_pos_nonneg; lia).
      assert (Hp1 : 0 < 2 ^ (e' - ez)) by (apply Z.pow_pos_nonneg; unfold ez; lia).
      assert (Hp2 : 0 < 2 ^ (eb - ez)) by (apply Z.pow_pos_nonneg; unfold ez; lia).
      rewrite Hs1 in Hv. rewrite Hs2 in Hprod.
      set (A := 2 ^ (e' - ez)) in *. set (B := 2 ^ (eb - ez)) in *.
      set (C := 2 ^ (ez - (eb + -55))) in *. nia. }
    destruct D as [| d | d]; [exact I | | lia].
    unfold binary_round. destruct (shl_align _ _ _) as [mz ez'].
    apply binary_round_aux_sign.
Qed.

End Bounds.
(** ** The months of the schedule *)

Section Schedule.

Variable get_work_calendar : Z -> gmap Z Month.
Variable get_holidays_and_short_days : Z -> HolidaysData.

Context {F : Type} {ops : FloatOps F}.

Variables (year advance_day : Z) (mode : salary_mode) (amount : F).
Variable working_days_arg : option (list (Z * Z)).

Let calendar := get_work_calendar year.
Let holidays_data := get_holidays_and_short_days year.
Let month_of := payday_month get_work_calendar year advance_day mode amount
                  working_days_arg calendar holidays_data.
Let months_of := schedule_months get_work_calendar year advance_day mode amount
                   working_days_arg calendar holidays_data.

Lemma schedule_months_Ok months : forall acc sched,
  months_of months acc = Ok sched ->
  exists pairs,
    Forall2 (fun month p => month_of month = Ok p) months pairs /\
    sched = acc ++ month_pairs pairs.
Proof.
  induction months as [| month rest IH]; intros acc sched H; simpl in H.
  - injection H as <-. exists []. split; [constructor |].
    unfold month_pairs; simpl. rewrite app_nil_r. reflexivity.
  - apply bind_Ok in H as ([a s] & Hm & H).
    apply IH in H as (pairs & Hall & ->).
    exists ((a, s) :: pairs). split; [constructor; assumption |].
    unfold month_pairs; simpl. rewrite <- app_assoc. reflexivity.
Qed.

Lemma month_pairs_length (pairs : list (PaydayScheduleItem F * PaydayScheduleItem F)) :
  length (month_pairs pairs) = (2 * length pairs)%nat.
Proof. induction pairs as [| p pairs IH]; simpl; [reflexivity | rewrite IH; lia]. Qed.

Lemma month_pairs_lookup (pairs : list (PaydayScheduleItem F * PaydayScheduleItem F)) :
  forall i a s,
  pairs !! i = Some (a, s) ->
  month_pairs pairs !! (2 * i)%nat = Some a /\
  month_pairs pairs !! (2 * i + 1)%nat = Some s.
Proof.
  induction pairs as [| p pairs IH]; intros i a s H; [discriminate |].
  destruct i as [| i]; simpl in H.
  - injection H as ->. simpl. auto.
  - apply IH in H as [Ha Hs].
    replace (2 * S i)%nat with (S (S (2 * i))) by lia.
    replace (S (S (2 * i)) + 1)%nat with (S (S (2 * i + 1))) by lia.
    simpl. auto.
Qed.

(* every returned schedule is the twelve months' pairs, in order *)
Lemma get_payday_schedule_months sched :
  get_payday_schedule get_work_calendar get_holidays_and_short_days
    year advance_day mode amount working_days_arg = Ok sched ->
  length sched = 24%nat /\
  forall month, 1 <= month <= 12 ->
    exists a s,
      month_of month = Ok (a, s) /\
      advance_item sched month = Some a /\
      salary_item sched month = Some s.
Proof.
  unfold get_payday_schedule. intros H.
  assert (Hm : months_of (seqZ 1 12) [] = Ok sched).
  { destruct (match working_days_arg with Some _ => _ | None => _ end);
      [discriminate | exact H]. }
  clear H. apply schedule_months_Ok in Hm as (pairs & Hall & ->). simpl.
  pose proof (Forall2_length _ _ _ Hall) as Hlen. rewrite length_seqZ in Hlen.
  split; [rewrite month_pairs_length; lia |].
  intros month Hr.
  assert (Hl : seqZ 1 12 !! Z.to_nat (month - 1) = Some month).
  { rewrite lookup_seqZ. split; [lia | lia]. }
  destruct (Forall2_lookup_l _ _ _ _ _ Hall Hl) as ([a s] & Hp & Hmo).
  exists a, s. split; [exact Hmo |].
  destruct (month_pairs_lookup _ _ _ _ Hp) as [Ha Hs].
  unfold advance_item, salary_item.
  replace (Z.to_nat (2 * (month - 1))) with (2 * Z.to_nat (month - 1))%nat by lia.
  replace (Z.to_nat (2 * (month - 1) + 1)) with (2 * Z.to_nat (month - 1) + 1)%nat by lia.
  auto.
Qed.

Lemma period_working_days_Ok month max_adv days a s :
  calendar_working_days calendar month = Ok days ->
  period_working_days calendar working_days_arg month max_adv (days - max_adv)
    = Ok (a, s) ->
  a + s <= days.
Proof.
  intros Hd. unfold period_working_days.
  destruct working_days_arg as [wd |].
  - intros H. apply bind_Ok in H as ([a' s'] & _ & H).
    rewrite Hd in H. simpl in H.
    destruct (Z.ltb_spec days (a' + s')); [discriminate |].
    injection H as <- <-. lia.
  - intros [= <- <-]. lia.
Qed.

(* what one month contributes, when the iteration raises nothing *)
Lemma payday_month_Ok month a s :
  month_of month = Ok (a, s) ->
  it_is a = advance /\ it_is s = salary /\
  calculate_salary get_work_calendar month year (working_days a) amount mode
    = Ok (item_salary a) /\
  calculate_salary get_work_calendar month year (working_days s) amount mode
    = Ok (item_salary s) /\
  exists days,
    calendar_working_days calendar month = Ok days /\
    working_days a + working_days s <= days /\
    max_working_days a + max_working_days s = days.
Proof.
  unfold month_of, payday_month. intros H.
  apply bind_Ok in H as (ldm & _ & H).
  apply bind_Ok in H as (oad & _ & H).
  apply bind_Ok in H as (ad & _ & H).
  destruct (12 <? month + 1).
  all: apply bind_Ok in H as (ldsm & _ & H).
  all: apply bind_Ok in H as (osd & _ & H).
  all: apply bind_Ok in H as (sd & _ & H).
  all: apply bind_Ok in H as (fd & _ & H).
  all: apply bind_Ok in H as (ld & _ & H).
  all: apply bind_Ok in H as (maxadv & _ & H).
  all: apply bind_Ok in H as (days & Hdays & H).
  all: apply bind_Ok in H as ([awd swd] & Hp & H).
  all: apply bind_Ok in H as (asal & Ha & H).
  all: apply bind_Ok in H as (ssal & Hs & H).
  all: injection H as <- <-; simpl.
  all: repeat split; auto.
  all: exists days; repeat split; auto; [| lia].
  all: eapply period_working_days_Ok; eassumption.
Qed.

End Schedule.

(** ** The salary calculator *)

Section Salary.

Variable get_work_calendar : Z -> gmap Z Month.

Context {F : Type} {ops : FloatOps F}.

Lemma calendar_working_days_Ok calendar month days :
  calendar_working_days calendar month = Ok days <->
  exists m, calendar !! month = Some m /\ workingDays m = days.
Proof.
  unfold calendar_working_days. destruct (calendar !! month) as [m |]; split.
  - intros [= <-]. eauto.
  - intros (m' & [= <-] & <-). reflexivity.
  - discriminate.
  - intros (m' & [=] & _).
Qed.

Lemma float_of_int_Ok i w :
  float_of_int i = Ok w <-> float_in_range i = true /\ w = float_of_Z i.
Proof.
  unfold float_of_int. destruct (float_in_range i); split.
  - intros [= <-]. auto.
  - intros [_ ->]. reflexivity.
  - discriminate.
  - intros [[=] _].
Qed.

Lemma float_of_int_Raise i e :
  float_of_int i = Raise e <-> float_in_range i = false /\ e = FloatOverflowError.
Proof.
  unfold float_of_int. destruct (float_in_range i); split.
  - discriminate.
  - intros [[=] _].
  - intros [= <-]. auto.
  - intros [_ ->]. reflexivity.
Qed.

Lemma float_truediv_Ok x y q :
  float_truediv x y = Ok q <-> float_is_zero y = false /\ q = float_quot x y.
Proof.
  unfold float_truediv. destruct (float_is_zero y); split.
  - discriminate.
  - intros [[=] _].
  - intros [= <-]. auto.
  - intros [_ ->]. reflexivity.
Qed.

Lemma float_truediv_Raise x y e :
  float_truediv x y = Raise e <-> float_is_zero y = true /\ e = ZeroDivisionError.
Proof.
  unfold float_truediv. destruct (float_is_zero y); split.
  - intros [= <-]. auto.
  - intros [_ ->]. reflexivity.
  - discriminate.
  - intros [[=] _].
Qed.

(* the calculator: the count of the month, the amount of the period, the figures *)
Lemma calculate_salary_eq month year days_worked amount mode :
  calculate_salary get_work_calendar month year days_worked amount mode =
  (work_days ← calendar_working_days (get_work_calendar year) month;
   period ← period_amount amount work_days days_worked;
   salary_figures mode period).
Proof.
  unfold calculate_salary, period_amount, salary_figures.
  destruct (calendar_working_days _ _) as [wd |]; simpl; [| reflexivity].
  destruct (float_div_int amount wd) as [rate |]; simpl; [| reflexivity].
  destruct (float_mul_int rate days_worked) as [p |]; simpl; reflexivity.
Qed.

Lemma calculate_salary_Ok month year days_worked amount mode r :
  calculate_salary get_work_calendar month year days_worked amount mode = Ok r <->
  exists work_days period,
    calendar_working_days (get_work_calendar year) month = Ok work_days /\
    period_amount amount work_days days_worked = Ok period /\
    salary_figures mode period = Ok r.
Proof.
  rewrite calculate_salary_eq. split.
  - intros H. apply bind_Ok in H as (wd & Hwd & H).
    apply bind_Ok in H as (p & Hp & H). eauto.
  - intros (wd & p & Hwd & Hp & H). rewrite Hwd. simpl. rewrite Hp. exact H.
Qed.

(* the figure the mode prorates is the amount of the period *)
Lemma salary_figures_prorated mode period r :
  salary_figures mode period = Ok r -> prorated_figure mode r = period.
Proof.
  unfold salary_figures. destruct mode.
  - intros [= <-]. reflexivity.
  - intros H. apply bind_Ok in H as (c & _ & H).
    apply bind_Ok in H as (b & _ & H). injection H as <-. reflexivity.
Qed.

(* the exceptions of the calculator *)
Lemma period_amount_error amount work_days days_worked e :
  period_amount amount work_days days_worked = Raise e ->
  e = FloatOverflowError \/ e = ZeroDivisionError.
Proof.
  unfold period_amount, float_div_int, float_mul_int. intros H.
  apply bind_Raise in H as [H | (rate & _ & H)].
  - apply bind_Raise in H as [H | (w & _ & H)].
    + apply float_of_int_Raise in H as [_ ->]. auto.
    + apply float_truediv_Raise in H as [_ ->]. auto.
  - apply bind_Raise in H as [H | (w & _ & H)]; [| discriminate].
    apply float_of_int_Raise in H as [_ ->]. auto.
Qed.

Lemma salary_figures_error mode period e :
  salary_figures mode period = Raise e ->
  e = FloatOverflowError \/ e = ZeroDivisionError.
Proof.
  unfold salary_figures, int_sub_float. destruct mode; [discriminate |]. intros H.
  apply bind_Raise in H as [H | (c & _ & H)].
  - apply bind_Raise in H as [H | (w & _ & H)]; [| discriminate].
    apply float_of_int_Raise in H as [_ ->]. auto.
  - apply bind_Raise in H as [H | (b & _ & H)]; [| discriminate].
    apply float_truediv_Raise in H as [_ ->]. auto.
Qed.

Lemma calculate_salary_error month year days_worked amount mode e :
  calculate_salary get_work_calendar month year days_worked amount mode = Raise e ->
  (get_work_calendar year !! month = None /\ e = KeyError month) \/
  (is_Some (get_work_calendar year !! month) /\
   (e = FloatOverflowError \/ e = ZeroDivisionError)).
Proof.
  rewrite calculate_salary_eq. unfold calendar_working_days.
  destruct (get_work_calendar year !! month) as [m |]; simpl.
  - intros H. right. split; [eauto |].
    apply bind_Raise in H as [H | (p & _ & H)].
    + exact (period_amount_error _ _ _ _ H).
    + exact (salary_figures_error _ _ _ H).
  - intros [= <-]. auto.
Qed.

Context {laws : FloatLaws F}.

(* the figures are always returned: 1 converts and 1 - 0.13 is not zero *)
Lemma salary_figures_returns mode period :
  exists r, salary_figures mode period = Ok r.
Proof.
  unfold salary_figures, int_sub_float, float_of_int, float_truediv.
  destruct mode; [eauto |].
  rewrite (float_in_range_small 1) by lia. simpl.
  rewrite float_complement_not_zero. simpl. eauto.
Qed.

(* the amount of the period, case by case *)
Lemma period_amount_cases amount work_days days_worked :
  match period_amount amount work_days days_worked with
  | Ok _ =>
      float_in_range work_days = true /\ work_days <> 0 /\
      float_in_range days_worked = true
  | Raise e =>
      (float_in_range work_days = false /\ e = FloatOverflowError) \/
      (work_days = 0 /\ e = ZeroDivisionError) \/
      (float_in_range work_days = true /\ work_days <> 0 /\
       float_in_range days_worked = false /\ e = FloatOverflowError)
  end.
Proof.
  unfold period_amount, float_div_int, float_mul_int, float_of_int, float_truediv.
  destruct (float_in_range work_days) eqn:Hw; simpl; [| auto].
  pose proof (float_of_Z_is_zero work_days Hw) as Hz.
  destruct (float_is_zero (float_of_Z work_days)); simpl.
  - right. left. split; [apply Hz |]; reflexivity.
  - assert (Hnz : work_days <> 0) by (intros H0; apply Hz in H0; discriminate).
    destruct (float_in_range days_worked); simpl; auto 10.
Qed.

Lemma calculate_salary_cases month year days_worked amount mode :
  match calculate_salary get_work_calendar month year days_worked amount mode with
  | Ok _ =>
      exists m, get_work_calendar year !! month = Some m /\
                float_in_range (workingDays m) = true /\ workingDays m <> 0 /\
                float_in_range days_worked = true
  | Raise e =>
      (get_work_calendar year !! month = None /\ e = KeyError month) \/
      exists m, get_work_calendar year !! month = Some m /\
        ((float_in_range (workingDays m) = false /\ e = FloatOverflowError) \/
         (workingDays m = 0 /\ e = ZeroDivisionError) \/
         (float_in_range (workingDays m) = true /\ workingDays m <> 0 /\
          float_in_range days_worked = false /\ e = FloatOverflowError))
  end.
Proof.
  rewrite calculate_salary_eq. unfold calendar_working_days.
  destruct (get_work_calendar year !! month) as [m |]; simpl; [| auto].
  pose proof (period_amount_cases amount (workingDays m) days_worked) as Hp.
  destruct (period_amount amount (workingDays m) days_worked) as [p | e]; simpl.
  - destruct (salary_figures_returns mode p) as [r ->]. eauto.
  - right. eauto.
Qed.

(* the calculator returns on a month of the calendar whose count is not
   zero, when the count and the days worked convert to [float] *)
Lemma calculate_salary_returns_iff month year days_worked amount mode :
  is_ok (calculate_salary get_work_calendar month year days_worked amount mode) = true
  <->
  exists m, get_work_calendar year !! month = Some m /\
            float_in_range (workingDays m) = true /\ workingDays m <> 0 /\
            float_in_range days_worked = true.
Proof.
  pose proof (calculate_salary_cases month year days_worked amount mode) as H.
  destruct (calculate_salary get_work_calendar month year days_worked amount mode)
    as [r | e]; simpl.
  - tauto.
  - split; [discriminate |]. intros (m & Hm & Hr & Hnz & Hd).
    destruct H as [[Hn _] | (m' & Hm' & H)]; [congruence |].
    rewrite Hm in Hm'. injection Hm' as <-.
    destruct H as [[H _] | [[H _] | (_ & _ & H & _)]]; congruence.
Qed.

End Salary.

(** ** The calculator over exact arithmetic *)

Lemma calculate_salary_exact_Ok (get_work_calendar : Z -> gmap Z Month)
  (month year days_worked : Z) (amount : Q) (mode : salary_mode) (r : SalaryResult Q) :
  calculate_salary get_work_calendar month year days_worked amount mode = Ok r <->
  exists work_days,
    calendar_working_days (get_work_calendar year) month = Ok work_days /\
    work_days <> 0 /\
    let p := exact_period_amount amount work_days days_worked in
    r = match mode with
        | BeforeTax =>
            {| before_tax := p; tax := p * (13 # 100);
               after_tax := p - p * (13 # 100) |}
        | OnHand =>
            {| before_tax := p / (87 # 100);
               tax := p / (87 # 100) * (13 # 100);
               after_tax := p |}
        end%Q.
Proof.
  rewrite calculate_salary_Ok.
  unfold period_amount, salary_figures, float_div_int, float_mul_int, int_sub_float,
    float_truediv, float_of_int, exact_period_amount.
  split.
  - intros (wd & p & Hwd & Hp & Hr). exists wd. split; [exact Hwd |].
    simpl in Hp.
    destruct (Qeq_bool (inject_Z wd) 0) eqn:E; [discriminate |].
    simpl in Hp. injection Hp as <-.
    split; [intros ->; discriminate |].
    destruct mode; simpl in Hr; injection Hr as <-; reflexivity.
  - intros (wd & Hwd & Hnz & ->). eexists. eexists. split; [exact Hwd |].
    simpl.
    assert (E : Qeq_bool (inject_Z wd) 0 = false).
    { destruct (Qeq_bool (inject_Z wd) 0) eqn:E'; [| reflexivity].
      apply Qeq_bool_eq in E'. unfold Qeq in E'; simpl in E'. lia. }
    rewrite E. simpl. split; [reflexivity |].
    destruct mode; reflexivity.
Qed.

Lemma inject_Z_nonzero z : z <> 0 -> ~ (inject_Z z == 0)%Q.
Proof. intros Hz. unfold Qeq; simpl. lia. Qed.

Lemma inject_Z_nonneg z : 0 <= z -> (0 <= inject_Z z)%Q.
Proof. intros Hz. unfold Qle; simpl. lia. Qed.

Lemma exact_period_amount_nonneg amount work_days days_worked :
  (0 <= amount)%Q -> 0 <= work_days -> 0 <= days_worked ->
  (0 <= exact_period_amount amount work_days days_worked)%Q.
Proof.
  intros Ha Hw Hd. unfold exact_period_amount, Qdiv.
  apply Qmult_le_0_compat; [| apply inject_Z_nonneg; exact Hd].
  apply Qmult_le_0_compat; [exact Ha |].
  apply Qinv_le_0_compat, inject_Z_nonneg. exact Hw.
Qed.

(* over exact arithmetic a non-negative amount over non-negative day counts
   gives non-negative figures *)
Lemma calculate_salary_exact_nonneg (get_work_calendar : Z -> gmap Z Month)
  month year days_worked (amount : Q) mode r m :
  get_work_calendar year !! month = Some m -> 0 <= workingDays m ->
  (0 <= amount)%Q -> 0 <= days_worked ->
  calculate_salary get_work_calendar month year days_worked amount mode = Ok r ->
  nonnegative r.
Proof.
  intros Hm Hwd Ha Hd H.
  apply calculate_salary_exact_Ok in H as (wd & Hc & _ & ->).
  apply calendar_working_days_Ok in Hc as (m' & Hm' & <-).
  rewrite Hm in Hm'. injection Hm' as <-.
  pose proof (exact_period_amount_nonneg amount (workingDays m) days_worked Ha Hwd Hd)
    as Hp.
  set (p := exact_period_amount amount (workingDays m) days_worked) in *.
  unfold nonnegative. destruct mode; cbv zeta; simpl.
  - repeat split; lra.
  - assert (Hb : (p / (87 # 100) == p * (100 # 87))%Q) by (field; discriminate).
    rewrite Hb. repeat split; lra.
Qed.

(** ** The figures of a result *)

Section Figures.

Context {F : Type} {ops : FloatOps F}.

Lemma salary_figures_Ok mode period r :
  salary_figures mode period = Ok r ->
  prorated_figure mode r = period /\
  tax r = float_mul (before_tax r) TAX_RATE /\
  match mode with
  | BeforeTax => after_tax r = float_sub (before_tax r) (tax r)
  | OnHand =>
      before_tax r = float_quot (after_tax r) (float_sub (float_of_Z 1) TAX_RATE)
  end.
Proof.
  unfold salary_figures, int_sub_float. destruct mode.
  - intros [= <-]. auto.
  - intros H. apply bind_Ok in H as (c & Hc & H).
    apply bind_Ok in Hc as (one & Hone & [= <-]).
    apply float_of_int_Ok in Hone as [_ ->].
    apply bind_Ok in H as (b & Hb & [= <-]).
    apply float_truediv_Ok in Hb as [_ ->]. auto.
Qed.


End Figures.

Section Calculator.

Variable get_work_calendar : Z -> gmap Z Month.

(* a call that returns, over the floats *)
Lemma calculate_salary_float_Ok month year days_worked (amount : spec_float) mode r :
  calculate_salary get_work_calendar month year days_worked amount mode = Ok r ->
  exists m period,
    get_work_calendar year !! month = Some m /\ workingDays m <> 0 /\
    period_amount amount (workingDays m) days_worked = Ok period /\
    salary_figures mode period = Ok r.
Proof.
  intros H.
  pose proof (calculate_salary_cases get_work_calendar month year days_worked
                amount mode) as Hc.
  rewrite H in Hc. destruct Hc as (m & Hm & _ & Hnz & _).
  apply calculate_salary_Ok in H as (wd & p & Hwd & Hp & Hr).
  apply calendar_working_days_Ok in Hwd as (m' & Hm' & <-).
  rewrite Hm in Hm'. injection Hm' as <-. eauto 10.
Qed.

(* the amount of the period is not below zero when the amount and the two
   day counts are not *)
Lemma period_amount_sign (amount : spec_float) work_days days_worked period :
  sign_not_negative amount -> 0 < work_days -> 0 <= days_worked ->
  period_amount amount work_days days_worked = Ok period ->
  sign_not_negative period.
Proof.
  intros Ha Hw Hd. unfold period_amount, float_div_int, float_mul_int. intros H.
  apply bind_Ok in H as (rate & Hrate & H).
  apply bind_Ok in Hrate as (w & Hw' & Hrate).
  apply float_of_int_Ok in Hw' as [_ ->].
  apply float_truediv_Ok in Hrate as [_ ->].
  apply bind_Ok in H as (d & Hd' & [= <-]).
  apply float_of_int_Ok in Hd' as [_ ->].
  apply SFmul_sign; [| apply float_of_Z_sign; exact Hd].
  apply SFdiv_sign; [exact Ha | apply float_of_Z_positive; exact Hw].
Qed.

(* the amount of the period is a product, of bounded size *)
Lemma period_amount_bounded (amount : spec_float) work_days days_worked period :
  period_amount amount work_days days_worked = Ok period ->
  match period with
  | S754_finite _ m e => Z.pos m < 2 ^ 53 /\ e <= 971
  | _ => True
  end.
Proof.
  unfold period_amount, float_div_int, float_mul_int. intros H.
  apply bind_Ok in H as (rate & _ & H).
  apply bind_Ok in H as (d & _ & [= <-]).
  apply SFmul_bounded.
Qed.

Lemma calculate_salary_sign month year days_worked (amount : spec_float) mode r m :
  get_work_calendar year !! month = Some m -> 0 <= workingDays m ->
  float_ge_zero amount = true -> 0 <= days_worked ->
  calculate_salary get_work_calendar month year days_worked amount mode = Ok r ->
  figures_not_negative r.
Proof.
  intros Hm Hwd Ha Hd H.
  apply calculate_salary_float_Ok in H as (m' & p & Hm' & Hnz & Hp & Hr).
  rewrite Hm in Hm'. injection Hm' as <-.
  assert (Hsp : sign_not_negative p).
  { apply (period_amount_sign amount (workingDays m) days_worked);
      [apply float_ge_zero_sign; exact Ha | lia | exact Hd | exact Hp]. }
  pose proof (period_amount_bounded _ _ _ _ Hp) as Hbp.
  apply salary_figures_Ok in Hr as (Hpf & Htax & Hmode).
  assert (Hb : sign_not_negative (before_tax r)).
  { destruct mode; simpl in Hpf.
    - rewrite Hpf. exact Hsp.
    - rewrite Hmode, Hpf. apply SFdiv_sign; [exact Hsp | exact complement_positive]. }
  split; [apply sign_not_negative_lt_zero; exact Hb |].
  split.
  - apply sign_not_negative_lt_zero. rewrite Htax.
    apply SFmul_sign; [exact Hb |].
    apply sign_positive_not_negative, TAX_RATE_positive.
  - apply sign_not_negative_lt_zero. destruct mode; simpl in Hpf.
    + rewrite Hmode, Htax, Hpf.
      apply (SFsub_tax_sign p Hsp Hbp).
    + rewrite Hpf. exact Hsp.
Qed.


(** C7 (amended): when the working-day count of the month is zero the
    division [amount / work_days] raises [ZeroDivisionError], whatever the
    amount, the days worked and the mode: the call fails with the error of
    the division and returns no result. *)
Theorem calculate_salary_zero_working_days
  (month year days_worked : Z) (amount : spec_float) (mode : salary_mode) (m : Month) :
  get_work_calendar year !! month = Some m -> workingDays m = 0 ->
  float_div_int amount (workingDays m) = Raise ZeroDivisionError /\
  calculate_salary get_work_calendar month year days_worked amount mode
    = Raise ZeroDivisionError.
Proof.
  intros Hm Hz. unfold calculate_salary, calendar_working_days.
  rewrite Hm, Hz. split; reflexivity.
Qed.


End Calculator.

(** ** The calculator on concrete months *)



Lemma calculate_salary_zero_working_days_witness :
  float_div_int (Data.rubles 60000) 0 = Raise ZeroDivisionError /\
  Data.calculate_salary 1 2030 10 (Data.rubles 60000) BeforeTax
  = Raise ZeroDivisionError.
Proof.
  apply (calculate_salary_zero_working_days Data.get_work_calendar 1 2030 10
           (Data.rubles 60000) BeforeTax (snd (Data.month_entry 1 0))).
  - vm_compute. reflexivity.
  - reflexivity.
Defined.

(** C7 as stated fails: the function has no guard and no error of its own
    for a zero count.  The call on a month without working days raises
    what the bare division of the amount by 0.0 raises,
    [ZeroDivisionError], which is none of the errors that the module
    raises itself with a message of its own. *)
Lemma zero_working_days_unguarded :
  Data.calculate_salary 1 2030 10 (Data.rubles 60000) BeforeTax
  = Raise ZeroDivisionError /\
  float_truediv (Data.rubles 60000) (float_of_Z 0) = Raise ZeroDivisionError /\
  is_validation_error ZeroDivisionError = false.
Proof. repeat split; vm_compute; reflexivity. Qed.



(** ** The items of a month, in full *)

Lemma bind_Ok_l {A B : Type} (a : A) (k : A -> result B) : Ok a ≫= k = k a.
Proof. reflexivity. Qed.

Section MonthFacts.
Import Date DateFacts.

Variable get_work_calendar : Z -> gmap Z Month.
Variable get_holidays_and_short_days : Z -> HolidaysData.

Context {F : Type} {ops : FloatOps F}.

Variables (year advance_day : Z).

Let calendar := get_work_calendar year.
Let holidays_data := get_holidays_and_short_days year.

Lemma new_Ok y m d : valid (Date y m d) = true -> new y m d = Ok (Date y m d).
Proof. unfold new. intros ->. reflexivity. Qed.

Lemma new_Ok_inv y m d r : new y m d = Ok r -> r = Date y m d /\ valid r = true.
Proof.
  unfold new. destruct (valid (Date y m d)) eqn:Hv; [| discriminate].
  intros [= <-]. auto.
Qed.

Lemma last_day_of_Ok y m :
  1 <= y <= 9999 -> 1 <= m <= 12 -> last_day_of y m = Ok (days_in_month y m).
Proof.
  intros Hy Hm. unfold last_day_of. destruct (Z.ltb_spec m 12).
  - rewrite new_Ok.
    + rewrite bind_Ok_l. unfold pred; simpl.
      destruct (Z.ltb_spec 1 (m + 1)); [| lia].
      rewrite bind_Ok_l; simpl. replace (m + 1 - 1) with m by lia. reflexivity.
    + apply valid_spec; simpl.
      pose proof (days_in_month_bounds y (m + 1)). lia.
  - assert (m = 12) as -> by lia. reflexivity.
Qed.

(* a search that succeeds from a day succeeds from every later day *)
Lemma search_from_later d d' hs :
  valid d = true -> valid d' = true -> leb d d' = true ->
  is_ok (get_previous_working_day d hs) = true ->
  is_ok (get_previous_working_day d' hs) = true.
Proof.
  intros Hd Hd' Hle Hok.
  pose proof (get_previous_working_day_spec d hs Hd) as Hs.
  pose proof (get_previous_working_day_spec d' hs Hd') as Hs'.
  destruct (get_previous_working_day d' hs) as [r' | e']; [reflexivity |].
  destruct (get_previous_working_day d hs) as [r | e]; [| discriminate].
  simpl in Hs, Hs'. destruct Hs as (Hvr & Hlr & Hwr & _). destruct Hs' as [_ Hnone].
  rewrite (Hnone r Hvr (leb_trans _ _ _ Hlr Hle)) in Hwr. discriminate.
Qed.

Lemma count_working_days_step d last hs acc :
  count_working_days d last hs acc =
  if leb d last then
    match succ d with
    | Ok next =>
        count_working_days next last hs (if is_working d hs then acc + 1 else acc)
    | Raise e => Raise e
    end
  else Ok acc.
Proof.
  funelim (count_working_days d last hs acc).
  - rewrite Hle. reflexivity.
  - rewrite Hle, Hs. reflexivity.
  - rewrite Hle, Hs. reflexivity.
Qed.

Lemma leb_same_month y m d1 d2 : leb (Date y m d1) (Date y m d2) = (d1 <=? d2).
Proof.
  unfold leb, ltb, eqb; simpl. rewrite !Z.ltb_irrefl, !Z.eqb_refl; simpl.
  destruct (Z.ltb_spec d1 d2), (Z.eqb_spec d1 d2), (Z.leb_spec d1 d2);
    simpl; auto; lia.
Qed.

(* the loop over the days [d..15] of a month adds their working days *)
Lemma count_working_days_month y m hs (k : nat) : forall d acc,
  1 <= d -> d + Z.of_nat k = 16 ->
  count_working_days (Date y m d) (Date y m 15) hs acc =
  Ok (acc + Z.of_nat (length (filter (fun x => is_working (Date y m x) hs = true)
                                     (seqZ d (Z.of_nat k))))).
Proof.
  induction k as [| k IH]; intros d acc Hd Hk.
  - rewrite count_working_days_step, leb_same_month.
    destruct (Z.leb_spec d 15); [lia |]. simpl. f_equal. lia.
  - rewrite count_working_days_step, leb_same_month.
    destruct (Z.leb_spec d 15); [| lia].
    unfold succ; simpl. pose proof (days_in_month_bounds y m).
    destruct (Z.ltb_spec d (days_in_month y m)); [| lia].
    rewrite IH by lia. f_equal.
    rewrite (seqZ_cons d (Z.of_nat (S k))) by lia.
    replace (Z.pred (Z.of_nat (S k))) with (Z.of_nat k) by lia.
    replace (Z.succ d) with (d + 1) by lia.
    destruct (is_working (Date y m d) hs) eqn:Hw.
    + rewrite filter_cons_True by exact Hw. simpl length. lia.
    + rewrite filter_cons_False by (rewrite Hw; discriminate). lia.
Qed.

Lemma first_half_working_days_bounds y m hs :
  0 <= Z.of_nat (length (first_half_working_days y m hs)) <= 15.
Proof.
  unfold first_half_working_days.
  pose proof (length_filter (fun d => is_working (Date y m d) hs = true) (seqZ 1 15)) as H.
  rewrite length_seqZ in H. lia.
Qed.

(* everything one turn of the loop puts into the two items *)
Lemma payday_month_inv mode amount wds month a s :
  payday_month get_work_calendar year advance_day mode amount wds
    calendar holidays_data month = Ok (a, s) ->
  1 <= month <= 12 /\
  valid (nominal_advance_date year advance_day month) = true /\
  valid (nominal_salary_date year advance_day month) = true /\
  get_previous_working_day (nominal_advance_date year advance_day month) holidays_data
    = Ok (item_date a) /\
  date_was_moved a
    = negb (eqb (item_date a) (nominal_advance_date year advance_day month)) /\
  get_previous_working_day (nominal_salary_date year advance_day month) holidays_data
    = Ok (item_date s) /\
  date_was_moved s
    = negb (eqb (item_date s) (nominal_salary_date year advance_day month)) /\
  max_working_days a
    = Z.of_nat (length (first_half_working_days year month holidays_data)) /\
  it_is a = advance /\ it_is s = salary /\
  exists days,
    calendar_working_days calendar month = Ok days /\
    max_working_days s = days - max_working_days a /\
    period_working_days calendar wds month (max_working_days a) (max_working_days s)
      = Ok (working_days a, working_days s) /\
    calculate_salary get_work_calendar month year (working_days a) amount mode
      = Ok (item_salary a) /\
    calculate_salary get_work_calendar month year (working_days s) amount mode
      = Ok (item_salary s).
Proof.
  unfold payday_month, nominal_advance_date, nominal_salary_date, salary_month_of,
    nominal_salary_day.
  intros H.
  apply bind_Ok in H as (ldm & E1 & H).
  apply bind_Ok in H as (oad & E2 & H).
  apply bind_Ok in H as (ad & E3 & H).
  replace (if advance_day - 15 <? 1 then 1 else advance_day - 15)
    with (Z.max 1 (advance_day - 15)) in H
    by (destruct (Z.ltb_spec (advance_day - 15) 1); lia).
  destruct (12 <? month + 1) eqn:E12.
  all: apply bind_Ok in H as (ldsm & E4 & H).
  all: apply bind_Ok in H as (osd & E5 & H).
  all: apply bind_Ok in H as (sd & E6 & H).
  all: apply bind_Ok in H as (fd & E7 & H).
  all: apply bind_Ok in H as (ld & E8 & H).
  all: apply bind_Ok in H as (maxadv & E9 & H).
  all: apply bind_Ok in H as (days & E10 & H).
  all: apply bind_Ok in H as ([awd swd] & Hp & H).
  all: apply bind_Ok in H as (asal & Ea & H).
  all: apply bind_Ok in H as (ssal & Es & H).
  all: injection H as <- <-; simpl.
  all: apply new_Ok_inv in E7 as [-> Hv1].
  all: apply new_Ok_inv in E8 as [-> _].
  all: pose proof Hv1 as Hr; apply valid_spec in Hr; simpl in Hr.
  all: rewrite last_day_of_Ok in E1 by lia; injection E1 as <-.
  all: apply new_Ok_inv in E2 as [-> Hva].
  all: apply new_Ok_inv in E5 as [Hosd Hvs].
  all: pose proof Hvs as Hr'; rewrite Hosd in Hr'; apply valid_spec in Hr'; simpl in Hr'.
  all: rewrite last_day_of_Ok in E4 by lia; injection E4 as <-.
  all: rewrite Hosd in *.
  all: rewrite (count_working_days_month year month holidays_data 15 1 0) in E9 by lia.
  all: injection E9 as <-.
  all: split; [lia |].
  all: repeat (split; [assumption || reflexivity |]).
  all: exists days; repeat (split; [assumption || reflexivity |]); assumption.
Qed.


(* one turn of the loop, once its two nominal dates are dates: the two
   searches, the count of the calendar, the working days of the two
   periods and their two salaries *)
Lemma payday_month_eq mode (amount : F) wds month :
  valid (nominal_advance_date year advance_day month) = true ->
  valid (nominal_salary_date year advance_day month) = true ->
  payday_month get_work_calendar year advance_day mode amount wds
    calendar holidays_data month =
  (advance_date ←
     get_previous_working_day (nominal_advance_date year advance_day month)
       holidays_data;
   salary_date ←
     get_previous_working_day (nominal_salary_date year advance_day month)
       holidays_data;
   let max_advance_working_days :=
     Z.of_nat (length (first_half_working_days year month holidays_data)) in
   calendar_days ← calendar_working_days calendar month;
   let max_salary_working_days := calendar_days - max_advance_working_days in
   '(advance_working_days, salary_working_days) ←
     period_working_days calendar wds month
       max_advance_working_days max_salary_working_days;
   advance_salary ←
     calculate_salary get_work_calendar month year advance_working_days amount mode;
   salary_salary ←
     calculate_salary get_work_calendar month year salary_working_days amount mode;
   Ok ({| item_date := advance_date;
          it_is := advance;
          working_days := advance_working_days;
          max_working_days := max_advance_working_days;
          item_salary := advance_salary;
          date_was_moved :=
            negb (eqb advance_date (nominal_advance_date year advance_day month)) |},
       {| item_date := salary_date;
          it_is := salary;
          working_days := salary_working_days;
          max_working_days := max_salary_working_days;
          item_salary := salary_salary;
          date_was_moved :=
            negb (eqb salary_date (nominal_salary_date year advance_day month)) |})).
Proof.
  unfold nominal_advance_date, nominal_salary_date, salary_month_of,
    nominal_salary_day, payday_month.
  intros Hva Hvs.
  pose proof Hva as Hr. apply valid_spec in Hr. simpl in Hr.
  pose proof (days_in_month_bounds year month) as Hdim.
  rewrite (last_day_of_Ok year month), bind_Ok_l by lia.
  rewrite (new_Ok _ _ _ Hva), bind_Ok_l.
  destruct (get_previous_working_day _ holidays_data) as [ad | e]; [| reflexivity].
  rewrite !bind_Ok_l.
  replace (if advance_day - 15 <? 1 then 1 else advance_day - 15)
    with (Z.max 1 (advance_day - 15))
    by (destruct (Z.ltb_spec (advance_day - 15) 1); lia).
  destruct (12 <? month + 1).
  all: pose proof Hvs as Hr'; apply valid_spec in Hr'; simpl in Hr'.
  all: rewrite last_day_of_Ok, bind_Ok_l by lia.
  all: rewrite (new_Ok _ _ _ Hvs), bind_Ok_l.
  all: destruct (get_previous_working_day _ holidays_data) as [sd | e];
    [| reflexivity].
  all: rewrite !bind_Ok_l.
  all: rewrite (new_Ok year month 1), bind_Ok_l by (apply valid_spec; simpl; lia).
  all: rewrite (new_Ok year month 15), bind_Ok_l by (apply valid_spec; simpl; lia).
  all: rewrite (count_working_days_month year month holidays_data 15 1 0) by lia.
  all: rewrite bind_Ok_l; reflexivity.
Qed.

(* two months computed with different modes, amounts and lists agree on
   everything but the working days and the amounts *)
Lemma payday_month_frame mode amount wds mode' amount' wds' month a s a' s' :
  payday_month get_work_calendar year advance_day mode amount wds
    calendar holidays_data month = Ok (a, s) ->
  payday_month get_work_calendar year advance_day mode' amount' wds'
    calendar holidays_data month = Ok (a', s') ->
  (item_date a = item_date a' /\ it_is a = it_is a' /\
   max_working_days a = max_working_days a' /\ date_was_moved a = date_was_moved a') /\
  (item_date s = item_date s' /\ it_is s = it_is s' /\
   max_working_days s = max_working_days s' /\ date_was_moved s = date_was_moved s').
Proof.
  intros H H'.
  apply payday_month_inv in H
    as (_ & _ & _ & Ha & Hma & Hs & Hms & Hmax & Hia & His & days & Hd & Hmaxs & _).
  apply payday_month_inv in H'
    as (_ & _ & _ & Ha' & Hma' & Hs' & Hms' & Hmax' & Hia' & His' & days' & Hd' & Hmaxs' & _).
  rewrite Ha in Ha'. injection Ha' as Hda.
  rewrite Hs in Hs'. injection Hs' as Hds.
  rewrite Hd in Hd'. injection Hd' as <-.
  repeat split; congruence.
Qed.

End MonthFacts.

(** ** The schedule: dates and amounts of each month *)

(* the search from a day of a month stays in the month exactly when the
   month has a working day up to that day *)
Lemma search_in_month y m d hs found :
  Date.valid (Date.Date y m d) = true ->
  get_previous_working_day (Date.Date y m d) hs = Ok found ->
  Date.leb found (Date.Date y m d) = true /\
  (in_month y m found <->
   exists x, 1 <= x <= d /\ is_working (Date.Date y m x) hs = true).
Proof.
  intros Hv Hsearch.
  pose proof (get_previous_working_day_spec _ hs Hv) as Hspec.
  rewrite Hsearch in Hspec. simpl in Hspec.
  destruct Hspec as (Hvf & Hle & Hw & Hmax).
  split; [exact Hle |].
  apply DateFacts.leb_spec in Hle. apply DateFacts.valid_spec in Hvf.
  unfold in_month. split.
  - intros [Hy Hm].
    destruct found as [fy fm fd]; simpl in *. subst fy fm.
    exists fd. split; [| exact Hw].
    destruct Hle as [Hlt | [= ->]]; [| lia].
    apply DateFacts.ltb_spec in Hlt. simpl in Hlt. lia.
  - intros (x & Hx & Hwx).
    set (dx := Date.Date y m x) in *.
    assert (Hvx : Date.valid dx = true).
    { apply DateFacts.valid_spec in Hv. apply DateFacts.valid_spec.
      simpl in *. lia. }
    assert (Hxn : Date.leb dx (Date.Date y m d) = true).
    { apply DateFacts.leb_spec.
      destruct (Z.eq_dec x d) as [-> | Hne];
        [right; reflexivity | left; apply DateFacts.ltb_spec; simpl; lia]. }
    destruct (Date.ltb found dx) eqn:Hlt.
    { specialize (Hmax dx Hvx Hlt Hxn). rewrite Hmax in Hwx. discriminate. }
    assert (Hnlt : ~ (Date.ltb found dx = true)) by (rewrite Hlt; discriminate).
    rewrite DateFacts.ltb_spec in Hnlt.
    destruct found as [fy fm fd]; simpl in *.
    destruct Hle as [Hl | [= -> -> ->]]; [| lia].
    apply DateFacts.ltb_spec in Hl. simpl in Hl. lia.
Qed.

Section ScheduleItems.

Variable get_work_calendar : Z -> gmap Z Month.
Variable get_holidays_and_short_days : Z -> HolidaysData.

Context {F : Type} {ops : FloatOps F}.

Variables (year advance_day : Z) (mode : salary_mode) (amount : F).
Variable working_days_arg : option (list (Z * Z)).

Let calendar := get_work_calendar year.
Let holidays_data := get_holidays_and_short_days year.
Let month_of := payday_month get_work_calendar year advance_day mode amount
                  working_days_arg calendar holidays_data.
Let schedule_of := get_payday_schedule get_work_calendar get_holidays_and_short_days
                  year advance_day mode amount working_days_arg.

(* the dates of the two items of a month *)
Lemma payday_month_dates month a s :
  month_of month = Ok (a, s) ->
  (exists last nominal,
      last_day_of year month = Ok last /\
      Date.new year month (Z.min advance_day last) = Ok nominal /\
      get_previous_working_day nominal holidays_data = Ok (item_date a) /\
      date_was_moved a = negb (Date.eqb (item_date a) nominal)) /\
  (exists last nominal,
      let '(salary_month, salary_year) := salary_month_of year month in
      last_day_of salary_year salary_month = Ok last /\
      Date.new salary_year salary_month
        (Z.min (nominal_salary_day advance_day) last) = Ok nominal /\
      get_previous_working_day nominal holidays_data = Ok (item_date s) /\
      date_was_moved s = negb (Date.eqb (item_date s) nominal)).
Proof.
  unfold month_of, payday_month, salary_month_of, nominal_salary_day. intros H.
  apply bind_Ok in H as (ldm & Hldm & H).
  apply bind_Ok in H as (oad & Hoad & H).
  apply bind_Ok in H as (ad & Had & H).
  replace (if advance_day - 15 <? 1 then 1 else advance_day - 15)
    with (Z.max 1 (advance_day - 15)) in H
    by (destruct (Z.ltb_spec (advance_day - 15) 1); lia).
  destruct (12 <? month + 1).
  all: apply bind_Ok in H as (ldsm & Hldsm & H).
  all: apply bind_Ok in H as (osd & Hosd & H).
  all: apply bind_Ok in H as (sd & Hsd & H).
  all: apply bind_Ok in H as (fd & _ & H).
  all: apply bind_Ok in H as (ld & _ & H).
  all: apply bind_Ok in H as (maxadv & _ & H).
  all: apply bind_Ok in H as (days & _ & H).
  all: apply bind_Ok in H as ([awd swd] & _ & H).
  all: apply bind_Ok in H as (asal & _ & H).
  all: apply bind_Ok in H as (ssal & _ & H).
  all: injection H as <- <-; simpl.
  all: split; [exists ldm, oad | exists ldsm, osd]; auto.
Qed.

(* every item of a returned schedule belongs to one of the twelve months *)
Lemma get_payday_schedule_elem sched item :
  schedule_of = Ok sched -> In item sched ->
  exists month a s,
    1 <= month <= 12 /\ month_of month = Ok (a, s) /\ (item = a \/ item = s).
Proof.
  unfold schedule_of, get_payday_schedule. intros H Hin.
  assert (Hm : schedule_months get_work_calendar year advance_day mode amount
                 working_days_arg calendar holidays_data (seqZ 1 12) [] = Ok sched).
  { destruct (match working_days_arg with Some _ => _ | None => _ end);
      [discriminate | exact H]. }
  clear H. apply schedule_months_Ok in Hm as (pairs & Hall & ->). simpl in Hin.
  unfold month_pairs in Hin. apply in_flat_map in Hin as ([a s] & Hp & Hi).
  apply list_elem_of_In, list_elem_of_lookup in Hp as [i Hp].
  destruct (Forall2_lookup_r _ _ _ _ _ Hall Hp) as (month & Hl & Hmo).
  apply lookup_seqZ in Hl as [-> Hi12].
  exists (1 + Z.of_nat i), a, s. split; [lia |]. split; [exact Hmo |].
  simpl in Hi. destruct Hi as [<- | [<- | []]]; auto.
Qed.

(** C2 (amended): in every returned schedule the salary item of month m
    carries the result of [calculate_salary] called with month = m: the
    figure taken from the amount is amount / workingDays(m) * working_days,
    with the working-day count of month m itself.  Its date is the one
    found by the backward search from the nominal day
    min(max(1, advance_day - 15), last day) of the following month; that
    date is on or before the nominal day, and it lies in the following
    month exactly when some day of that month up to the nominal day is
    neither a weekend day nor a listed holiday: otherwise the payment date
    falls in month m itself, or earlier. *)
Theorem salary_leg_uses_origin_month
  (sched : list (PaydayScheduleItem F)) (month : Z) :
  get_payday_schedule get_work_calendar get_holidays_and_short_days
    year advance_day mode amount working_days_arg = Ok sched ->
  1 <= month <= 12 ->
  exists item work_days,
    let nominal := nominal_salary_date year advance_day month in
    let holidays_data := get_holidays_and_short_days year in
    salary_item sched month = Some item /\ it_is item = salary /\
    calculate_salary get_work_calendar month year (working_days item) amount mode
      = Ok (item_salary item) /\
    calendar_working_days (get_work_calendar year) month = Ok work_days /\
    period_amount amount work_days (working_days item)
      = Ok (prorated_figure mode (item_salary item)) /\
    Date.valid nominal = true /\
    Date.month nominal = fst (salary_month_of year month) /\
    Date.year nominal = snd (salary_month_of year month) /\
    get_previous_working_day nominal holidays_data = Ok (item_date item) /\
    Date.leb (item_date item) nominal = true /\
    (in_month (Date.year nominal) (Date.month nominal) (item_date item) <->
     exists d, 1 <= d <= Date.day nominal /\
               is_working (Date.Date (Date.year nominal) (Date.month nominal) d)
                 holidays_data = true).
Proof.
  intros H Hr.
  destruct (get_payday_schedule_months _ _ _ _ _ _ _ _ H) as [_ Hmonths].
  destruct (Hmonths month Hr) as (a & s & Hmo & _ & Hs).
  apply payday_month_inv in Hmo
    as (_ & _ & Hvs & _ & _ & Hsearch & _ & _ & _ & Hk & days & _ & _ & _ & _ & Hcalc).
  pose proof Hcalc as Hc.
  apply calculate_salary_Ok in Hc as (wd & p & Hwd & Hp & Hfig).
  apply salary_figures_prorated in Hfig.
  exists s, wd. cbv zeta.
  split; [exact Hs |]. split; [exact Hk |]. split; [exact Hcalc |].
  split; [exact Hwd |]. split; [rewrite Hfig; exact Hp |].
  split; [exact Hvs |].
  split; [unfold nominal_salary_date; destruct (salary_month_of year month);
          reflexivity |].
  split; [unfold nominal_salary_date; destruct (salary_month_of year month);
          reflexivity |].
  split; [exact Hsearch |].
  destruct (nominal_salary_date year advance_day month) as [ny nm nd] eqn:En.
  exact (search_in_month ny nm nd _ _ Hvs Hsearch).
Qed.

(** C8: in every returned schedule, computed by default or from a caller's
    list that passed the check, the working days of the advance item and of
    the salary item of a month add up to at most the month's working-day
    count in the calendar. *)
Theorem working_days_within_month (sched : list (PaydayScheduleItem F)) (month : Z) :
  get_payday_schedule get_work_calendar get_holidays_and_short_days
    year advance_day mode amount working_days_arg = Ok sched ->
  1 <= month <= 12 ->
  exists a s m,
    advance_item sched month = Some a /\ it_is a = advance /\
    salary_item sched month = Some s /\ it_is s = salary /\
    get_work_calendar year !! month = Some m /\
    working_days a + working_days s <= workingDays m.
Proof.
  intros H Hr.
  destruct (get_payday_schedule_months _ _ _ _ _ _ _ _ H) as [_ Hmonths].
  destruct (Hmonths month Hr) as (a & s & Hmo & Ha & Hs).
  destruct (payday_month_Ok _ _ _ _ _ _ _ _ _ _ Hmo)
    as (Hka & Hks & _ & _ & days & Hdays & Hle & _).
  apply calendar_working_days_Ok in Hdays as (m & Hm & <-).
  exists a, s, m. repeat split; auto.
Qed.

Lemma last_day_of_January y last : last_day_of y 1 = Ok last -> last = 31.
Proof.
  unfold last_day_of; simpl. intros H.
  apply bind_Ok in H as (d & Hd & H).
  unfold Date.new in Hd. destruct (Date.valid _); [| discriminate].
  injection Hd as <-. simpl in H. injection H as <-. reflexivity.
Qed.

(** C4 (amended): the December salary item carries the date found by the
    backward search from the nominal day min(max(1, advance_day - 15), 31) of
    January of year + 1; that date is on or before the nominal day, and it
    lies in January of year + 1 exactly when some day from 1 January to the
    nominal day is neither a weekend day nor a listed holiday. *)
Theorem december_salary_date (sched : list (PaydayScheduleItem F)) :
  get_payday_schedule get_work_calendar get_holidays_and_short_days
    year advance_day mode amount working_days_arg = Ok sched ->
  exists item,
    let nominal :=
      Date.Date (year + 1) 1 (Z.min (nominal_salary_day advance_day) 31) in
    let holidays_data := get_holidays_and_short_days year in
    salary_item sched 12 = Some item /\ it_is item = salary /\
    Date.valid nominal = true /\
    get_previous_working_day nominal holidays_data = Ok (item_date item) /\
    Date.leb (item_date item) nominal = true /\
    (in_january (year + 1) (item_date item) <->
     exists d, 1 <= d <= Date.day nominal /\
               is_working (Date.Date (year + 1) 1 d) holidays_data = true).
Proof.
  intros H.
  destruct (get_payday_schedule_months _ _ _ _ _ _ _ _ H) as [_ Hmonths].
  destruct (Hmonths 12 ltac:(lia)) as (a & s & Hmo & _ & Hs).
  destruct (payday_month_Ok _ _ _ _ _ _ _ _ _ _ Hmo) as (_ & Hk & _).
  destruct (payday_month_dates _ _ _ Hmo) as [_ (last & nominal & Hd)].
  simpl in Hd. destruct Hd as (Hlast & Hnew & Hsearch & _).
  apply last_day_of_January in Hlast as ->.
  unfold Date.new in Hnew.
  destruct (Date.valid _) eqn:Hv; [| discriminate]. injection Hnew as <-.
  pose proof (get_previous_working_day_spec _ holidays_data Hv) as Hspec.
  rewrite Hsearch in Hspec. simpl in Hspec.
  destruct Hspec as (Hvf & Hle & Hw & Hmax).
  exists s. cbv zeta.
  split; [exact Hs |]. split; [exact Hk |]. split; [exact Hv |].
  split; [exact Hsearch |]. split; [exact Hle |].
  apply DateFacts.leb_spec in Hle. apply DateFacts.valid_spec in Hvf.
  unfold in_january. split.
  - intros [Hy Hm].
    destruct (item_date s) as [fy fm fd]; simpl in *. subst fy fm.
    exists fd. split; [| exact Hw].
    destruct Hle as [Hlt | [= ->]]; [| lia].
    apply DateFacts.ltb_spec in Hlt. simpl in Hlt. lia.
  - intros (d & Hd & Hwd). simpl in Hd.
    set (x := Date.Date (year + 1) 1 d) in *.
    assert (Hvx : Date.valid x = true).
    { apply DateFacts.valid_spec in Hv. apply DateFacts.valid_spec.
      simpl in *. lia. }
    assert (Hxn : Date.leb x (Date.Date (year + 1) 1
                                (Z.min (nominal_salary_day advance_day) 31)) = true).
    { apply DateFacts.leb_spec.
      destruct (Z.eq_dec d (Z.min (nominal_salary_day advance_day) 31)) as [-> | Hne];
        [right; reflexivity | left; apply DateFacts.ltb_spec; simpl; lia]. }
    destruct (Date.ltb (item_date s) x) eqn:Hlt.
    { specialize (Hmax x Hvx Hlt Hxn). unfold holidays_data in Hmax.
      rewrite Hmax in Hwd. discriminate. }
    assert (Hnlt : ~ (Date.ltb (item_date s) x = true)) by (rewrite Hlt; discriminate).
    rewrite DateFacts.ltb_spec in Hnlt.
    destruct (item_date s) as [fy fm fd]; simpl in *.
    destruct Hle as [Hl | [= -> -> ->]]; [| lia].
    apply DateFacts.ltb_spec in Hl. simpl in Hl. lia.
Qed.

End ScheduleItems.

(** C9 (amended): for an amount that is not below zero and a calendar
    without negative working-day counts, none of the three figures that
    [calculate_salary] returns for a non-negative [days_worked] is below
    zero, in either mode; nor is any figure of an item of a returned
    schedule whose working-day count is non-negative.  Such a figure is
    zero, positive, or the NaN of an overflow.  Over exact arithmetic, that
    is with the operations carried out without rounding or overflow, the
    three figures are non-negative. *)
Theorem salary_results_nonnegative
  (get_work_calendar : Z -> gmap Z Month)
  (get_holidays_and_short_days : Z -> HolidaysData)
  (year advance_day : Z) (mode : salary_mode)
  (working_days_arg : option (list (Z * Z))) :
  (forall month m, get_work_calendar year !! month = Some m -> 0 <= workingDays m) ->
  (forall amount : spec_float,
      float_ge_zero amount = true ->
      (forall month days_worked r,
          0 <= days_worked ->
          calculate_salary get_work_calendar month year days_worked amount mode
            = Ok r ->
          figures_not_negative r) /\
      (forall sched item,
          get_payday_schedule get_work_calendar get_holidays_and_short_days
            year advance_day mode amount working_days_arg = Ok sched ->
          In item sched -> 0 <= working_days item ->
          figures_not_negative (item_salary item))) /\
  (forall amount : Q,
      (0 <= amount)%Q ->
      (forall month days_worked r,
          0 <= days_worked ->
          calculate_salary get_work_calendar month year days_worked amount mode
            = Ok r ->
          nonnegative r) /\
      (forall sched item,
          get_payday_schedule get_work_calendar get_holidays_and_short_days
            year advance_day mode amount working_days_arg = Ok sched ->
          In item sched -> 0 <= working_days item ->
          nonnegative (item_salary item))).
Proof.
  intros Hcal. split.
  - intros amount Ha.
    assert (Hdirect : forall month days_worked r,
               0 <= days_worked ->
               calculate_salary get_work_calendar month year days_worked amount mode
                 = Ok r ->
               figures_not_negative r).
    { intros month days_worked r Hd Hr. pose proof Hr as Hr'.
      apply calculate_salary_float_Ok in Hr' as (m & _ & Hm & _).
      exact (calculate_salary_sign _ _ _ _ _ _ _ _ Hm (Hcal _ _ Hm) Ha Hd Hr). }
    split; [exact Hdirect |].
    intros sched item Hs Hin Hwd.
    destruct (get_payday_schedule_elem _ _ _ _ _ _ _ _ _ Hs Hin)
      as (month & a & s & _ & Hmo & Hi).
    destruct (payday_month_Ok _ _ _ _ _ _ _ _ _ _ Hmo) as (_ & _ & Hca & Hcs & _).
    destruct Hi as [-> | ->]; eapply Hdirect; eauto.
  - intros amount Ha.
    assert (Hdirect : forall month days_worked r,
               0 <= days_worked ->
               calculate_salary get_work_calendar month year days_worked amount mode
                 = Ok r ->
               nonnegative r).
    { intros month days_worked r Hd Hr. pose proof Hr as Hr'.
      apply calculate_salary_exact_Ok in Hr' as (wd & Hwd & _).
      apply calendar_working_days_Ok in Hwd as (m & Hm & _).
      exact (calculate_salary_exact_nonneg _ _ _ _ _ _ _ _ Hm (Hcal _ _ Hm) Ha Hd Hr). }
    split; [exact Hdirect |].
    intros sched item Hs Hin Hwd.
    destruct (get_payday_schedule_elem _ _ _ _ _ _ _ _ _ Hs Hin)
      as (month & a & s & _ & Hmo & Hi).
    destruct (payday_month_Ok _ _ _ _ _ _ _ _ _ _ Hmo) as (_ & _ & Hca & Hcs & _).
    destruct Hi as [-> | ->]; eapply Hdirect; eauto.
Qed.

(** ** The schedule on concrete years *)

Lemma salary_leg_uses_origin_month_witness :
  exists item work_days,
    salary_item Data.schedule_2025 12 = Some item /\
    Data.calculate_salary 12 2025 (working_days item) (Data.rubles 60000) BeforeTax
      = Ok (item_salary item) /\
    calendar_working_days (Data.get_work_calendar 2025) 12 = Ok work_days /\
    period_amount (Data.rubles 60000) work_days (working_days item)
      = Ok (before_tax (item_salary item)) /\
    get_previous_working_day (Date.Date 2026 1 10)
      (Data.get_holidays_and_short_days 2025) = Ok (item_date item) /\
    in_month 2026 1 (item_date item).
Proof.
  destruct (salary_leg_uses_origin_month (ops := binary64)
              Data.get_work_calendar Data.get_holidays_and_short_days
              2025 25 BeforeTax (Data.rubles 60000) None Data.schedule_2025 12
              ltac:(vm_compute; reflexivity) ltac:(lia))
    as (item & wd & Hi & _ & Hc & Hw & Hf & _ & _ & _ & Hs & _ & Hin).
  exists item, wd.
  split; [exact Hi |]. split; [exact Hc |]. split; [exact Hw |].
  split; [exact Hf |]. split; [exact Hs |].
  apply Hin. exists 9. split; [vm_compute; split; discriminate | vm_compute; reflexivity].
Defined.

(** C2 as stated fails where it places the payment in month m + 1: with the
    advance on the 16th the salary is due on the 1st of the following
    month, and the salary of January 2025, due on Saturday 2025-02-01, is
    paid on Friday 2025-01-31, in January itself. *)
Lemma salary_paid_in_origin_month :
  exists item,
    Data.get_payday_schedule 2025 16 BeforeTax (Data.rubles 60000) None
      = Ok Data.schedule_2025_16 /\
    salary_item Data.schedule_2025_16 1 = Some item /\
    it_is item = salary /\
    nominal_salary_date 2025 16 1 = Date.Date 2025 2 1 /\
    item_date item = Date.Date 2025 1 31 /\
    in_month 2025 1 (item_date item) /\
    ~ in_month 2025 2 (item_date item).
Proof.
  eexists. split; [vm_compute; reflexivity |].
  split; [vm_compute; reflexivity |].
  split; [reflexivity |]. split; [reflexivity |]. split; [reflexivity |].
  split; [split; reflexivity |].
  unfold in_month; simpl. intros [_ H]. discriminate.
Qed.

Lemma working_days_within_month_witness :
  exists a s m,
    advance_item Data.schedule_2025 1 = Some a /\
    salary_item Data.schedule_2025 1 = Some s /\
    Data.get_work_calendar 2025 !! 1 = Some m /\
    working_days a + working_days s <= workingDays m.
Proof.
  destruct (working_days_within_month (ops := binary64)
              Data.get_work_calendar Data.get_holidays_and_short_days
              2025 25 BeforeTax (Data.rubles 60000) None Data.schedule_2025 1
              ltac:(vm_compute; reflexivity) ltac:(lia))
    as (a & s & m & Ha & _ & Hs & _ & Hm & Hle).
  exists a, s, m. auto.
Defined.

(** C4 as stated fails when the nominal day is 1 January and that day is a
    weekend day: for 2022 with the advance on the 16th, the December salary
    is due on Sunday 2023-01-01 and is moved back to Friday 2022-12-30. *)
Lemma december_salary_paid_in_december :
  exists item,
    Data.get_payday_schedule 2022 16 BeforeTax (Data.rubles 60000) None
      = Ok Data.schedule_2022 /\
    salary_item Data.schedule_2022 12 = Some item /\
    it_is item = salary /\
    item_date item = Date.Date 2022 12 30 /\
    ~ in_january 2023 (item_date item).
Proof.
  eexists. split; [vm_compute; reflexivity |].
  split; [vm_compute; reflexivity |].
  split; [reflexivity |]. split; [reflexivity |].
  unfold in_january; simpl. intros [H _]. discriminate.
Qed.

Lemma december_salary_date_witness :
  exists item,
    salary_item Data.schedule_2025 12 = Some item /\
    get_previous_working_day (Date.Date 2026 1 10) (Data.get_holidays_and_short_days 2025)
      = Ok (item_date item) /\
    in_january 2026 (item_date item).
Proof.
  destruct (december_salary_date (ops := binary64)
              Data.get_work_calendar Data.get_holidays_and_short_days
              2025 25 BeforeTax (Data.rubles 60000) None Data.schedule_2025
              ltac:(vm_compute; reflexivity))
    as (item & Hi & _ & _ & Hs & _ & Hjan).
  exists item. split; [exact Hi |]. split; [exact Hs |].
  apply Hjan. exists 9. split; [vm_compute; split; discriminate | vm_compute; reflexivity].
Defined.

(** C9 as stated fails for a caller's list with a negative count: the pair
    (-1, 0) for January passes the check (-1 + 0 <= 17), and the January
    advance item then carries negative amounts.  It also fails for a large
    amount over many days: 1e308 over 170 days of the 17 of January 2025
    gives before_tax = inf and tax = inf, and the amount after tax,
    inf - inf, is NaN, which is not >= 0. *)
Lemma negative_override_negative_salary :
  (exists item,
      Data.get_payday_schedule 2025 25 BeforeTax (Data.rubles 60000)
        (Some Data.overrides_negative) = Ok Data.schedule_negative /\
      valid_overrides (Data.get_work_calendar 2025) Data.overrides_negative /\
      advance_item Data.schedule_negative 1 = Some item /\
      float_lt_zero (before_tax (item_salary item)) = true /\
      float_lt_zero (tax (item_salary item)) = true /\
      float_lt_zero (after_tax (item_salary item)) = true) /\
  (exists r,
      Data.calculate_salary 1 2025 170 (Data.rubles (10 ^ 308)) BeforeTax = Ok r /\
      float_ge_zero (Data.rubles (10 ^ 308)) = true /\
      before_tax r = S754_infinity false /\ tax r = S754_infinity false /\
      after_tax r = S754_nan /\ float_ge_zero (after_tax r) = false).
Proof.
  split.
  - eexists. split; [vm_compute; reflexivity |].
    split.
    { split; [reflexivity |]. intros month a s days Hl Hr Hd.
      assert (Hm : month = 1 \/ month = 2 \/ month = 3 \/ month = 4 \/ month = 5 \/
                   month = 6 \/ month = 7 \/ month = 8 \/ month = 9 \/ month = 10 \/
                   month = 11 \/ month = 12) by lia.
      repeat destruct Hm as [-> | Hm]; try subst month;
        vm_compute in Hl, Hd; injection Hl as <- <-; injection Hd as <-; lia. }
    split; [vm_compute; reflexivity |].
    repeat split; vm_compute; reflexivity.
  - eexists. split; [vm_compute; reflexivity |].
    repeat split; vm_compute; reflexivity.
Qed.

Lemma calendar_2025_counts month m :
  Data.get_work_calendar 2025 !! month = Some m -> 0 <= workingDays m.
Proof.
  unfold Data.get_work_calendar; simpl.
  unfold Data.calendar_2025, Data.calendar_of; simpl.
  intros Hm.
  repeat (apply lookup_insert_Some in Hm as [[_ <-] | [_ Hm]]; [simpl; lia |]).
  rewrite lookup_empty in Hm. discriminate.
Qed.

Lemma salary_results_nonnegative_witness :
  (exists item,
      advance_item Data.schedule_2025 1 = Some item /\
      0 <= working_days item /\
      figures_not_negative (item_salary item)) /\
  (exists r,
      calculate_salary Data.get_work_calendar 1 2025 17 (60000 : Q) OnHand = Ok r /\
      nonnegative r).
Proof.
  split.
  - destruct (salary_results_nonnegative
                Data.get_work_calendar Data.get_holidays_and_short_days
                2025 25 BeforeTax None calendar_2025_counts) as [Hfloat _].
    destruct (Hfloat (Data.rubles 60000) ltac:(vm_compute; reflexivity))
      as [_ Hsched].
    eexists. split; [vm_compute; reflexivity |].
    split; [vm_compute; discriminate |].
    apply (Hsched Data.schedule_2025 _ ltac:(vm_compute; reflexivity)).
    + vm_compute. left. reflexivity.
    + vm_compute. discriminate.
  - destruct (salary_results_nonnegative
                Data.get_work_calendar Data.get_holidays_and_short_days
                2025 25 OnHand None calendar_2025_counts) as [_ Hexact].
    destruct (Hexact 60000%Q ltac:(vm_compute; discriminate)) as [Hdirect _].
    eexists. split; [vm_compute; reflexivity |].
    apply (Hdirect 1 17); [lia | vm_compute; reflexivity].
Defined.

(** ** The checks of the caller's list *)

Section Validation.

Variable get_work_calendar : Z -> gmap Z Month.
Variable get_holidays_and_short_days : Z -> HolidaysData.

Context {F : Type} {ops : FloatOps F}.

Variables (year advance_day : Z) (mode : salary_mode) (amount : F).

Let calendar := get_work_calendar year.
Let holidays_data := get_holidays_and_short_days year.
Let month_of wds := payday_month get_work_calendar year advance_day mode amount
                      wds calendar holidays_data.
Let months_of wds := schedule_months get_work_calendar year advance_day mode amount
                       wds calendar holidays_data.
Let schedule_of := get_payday_schedule get_work_calendar get_holidays_and_short_days
                     year advance_day mode amount.

(* the errors of the date and salary computations are not validation errors *)
Lemma new_Raise y m d e : Date.new y m d = Raise e -> is_validation_error e = false.
Proof. unfold Date.new. destruct (Date.valid _); intros [= <-]. reflexivity. Qed.

Lemma pred_Raise d e : Date.pred d = Raise e -> is_validation_error e = false.
Proof. unfold Date.pred. split_ltb; intros [= <-]. reflexivity. Qed.

Lemma succ_Raise d e : Date.succ d = Raise e -> is_validation_error e = false.
Proof. unfold Date.succ. split_ltb; intros [= <-]. reflexivity. Qed.

Lemma last_day_of_Raise y m e :
  last_day_of y m = Raise e -> is_validation_error e = false.
Proof.
  unfold last_day_of. destruct (m <? 12); [| discriminate]. intros H.
  apply bind_Raise in H as [H | (d & _ & H)]; [exact (new_Raise _ _ _ _ H) |].
  apply bind_Raise in H as [H | (p & _ & H)]; [exact (pred_Raise _ _ H) |].
  discriminate.
Qed.

Lemma get_previous_working_day_Raise d hs e :
  get_previous_working_day d hs = Raise e -> is_validation_error e = false.
Proof.
  funelim (get_previous_working_day d hs); intros Hr.
  - discriminate.
  - auto.
  - injection Hr as <-. exact (pred_Raise _ _ Hp).
Qed.

Lemma count_working_days_Raise d last hs acc e :
  count_working_days d last hs acc = Raise e -> is_validation_error e = false.
Proof.
  funelim (count_working_days d last hs acc); intros Hr.
  - discriminate.
  - auto.
  - injection Hr as <-. exact (succ_Raise _ _ Hs).
Qed.

Lemma calendar_working_days_Raise cal m e :
  calendar_working_days cal m = Raise e -> is_validation_error e = false.
Proof.
  unfold calendar_working_days. destruct (cal !! m); intros [= <-]. reflexivity.
Qed.

Lemma calculate_salary_Raise m days_worked e :
  calculate_salary get_work_calendar m year days_worked amount mode = Raise e ->
  is_validation_error e = false.
Proof.
  intros H. apply calculate_salary_error in H as [[_ ->] | [_ [-> | ->]]];
    reflexivity.
Qed.

(* the check of one month's pair *)
Lemma period_working_days_Raise wds m max_adv max_sal e :
  period_working_days calendar wds m max_adv max_sal = Raise e ->
  is_validation_error e = true ->
  exists wd a s days,
    wds = Some wd /\ wd !! Z.to_nat (m - 1) = Some (a, s) /\
    calendar_working_days calendar m = Ok days /\ days < a + s /\
    e = WorkingDaysTotalError m (a + s) days.
Proof.
  unfold period_working_days. destruct wds as [wd |]; [| discriminate].
  intros H Hv.
  apply bind_Raise in H as [H | ([a s] & Hl & H)].
  { destruct (wd !! Z.to_nat (m - 1)); [discriminate |].
    injection H as <-. discriminate. }
  destruct (wd !! Z.to_nat (m - 1)) as [p |] eqn:Hp; [| discriminate].
  injection Hl as ->.
  apply bind_Raise in H as [H | (days & Hd & H)].
  { rewrite (calendar_working_days_Raise _ _ _ H) in Hv. discriminate. }
  destruct (Z.ltb_spec days (a + s)); [| discriminate].
  injection H as <-. exists wd, a, s, days. auto.
Qed.

Lemma period_working_days_Some wd m max_adv max_sal a s :
  period_working_days calendar (Some wd) m max_adv max_sal = Ok (a, s) ->
  wd !! Z.to_nat (m - 1) = Some (a, s) /\
  exists days, calendar_working_days calendar m = Ok days /\ a + s <= days.
Proof.
  unfold period_working_days. intros H.
  apply bind_Ok in H as ([a' s'] & Hl & H).
  destruct (wd !! Z.to_nat (m - 1)) as [p |]; [| discriminate].
  injection Hl as ->.
  apply bind_Ok in H as (days & Hd & H).
  destruct (Z.ltb_spec days (a' + s')); [discriminate |].
  injection H as <- <-. split; [reflexivity |]. exists days. auto.
Qed.

(* a validation error of a month's iteration comes from the check of its pair *)
Lemma payday_month_Raise wds m e :
  month_of wds m = Raise e -> is_validation_error e = true ->
  exists wd a s days,
    wds = Some wd /\ wd !! Z.to_nat (m - 1) = Some (a, s) /\
    calendar_working_days calendar m = Ok days /\ days < a + s /\
    e = WorkingDaysTotalError m (a + s) days.
Proof.
  unfold month_of, payday_month. intros H Hv.
  assert (Hno : forall e', is_validation_error e' = false -> e' = e -> False)
    by (intros e' He' ->; congruence).
  apply bind_Raise in H as [H | (ldm & _ & H)];
    [destruct (Hno _ (last_day_of_Raise _ _ _ H) eq_refl) |].
  apply bind_Raise in H as [H | (oad & _ & H)];
    [destruct (Hno _ (new_Raise _ _ _ _ H) eq_refl) |].
  apply bind_Raise in H as [H | (ad & _ & H)];
    [destruct (Hno _ (get_previous_working_day_Raise _ _ _ H) eq_refl) |].
  destruct (12 <? m + 1).
  all: apply bind_Raise in H as [H | (ldsm & _ & H)];
    [destruct (Hno _ (last_day_of_Raise _ _ _ H) eq_refl) |].
  all: apply bind_Raise in H as [H | (osd & _ & H)];
    [destruct (Hno _ (new_Raise _ _ _ _ H) eq_refl) |].
  all: apply bind_Raise in H as [H | (sd & _ & H)];
    [destruct (Hno _ (get_previous_working_day_Raise _ _ _ H) eq_refl) |].
  all: apply bind_Raise in H as [H | (fd & _ & H)];
    [destruct (Hno _ (new_Raise _ _ _ _ H) eq_refl) |].
  all: apply bind_Raise in H as [H | (ld & _ & H)];
    [destruct (Hno _ (new_Raise _ _ _ _ H) eq_refl) |].
  all: apply bind_Raise in H as [H | (maxadv & _ & H)];
    [destruct (Hno _ (count_working_days_Raise _ _ _ _ _ H) eq_refl) |].
  all: apply bind_Raise in H as [H | (days & _ & H)];
    [destruct (Hno _ (calendar_working_days_Raise _ _ _ H) eq_refl) |].
  all: apply bind_Raise in H as [H | ([awd swd] & _ & H)];
    [exact (period_working_days_Raise _ _ _ _ _ H Hv) |].
  all: apply bind_Raise in H as [H | (asal & _ & H)];
    [destruct (Hno _ (calculate_salary_Raise _ _ _ H) eq_refl) |].
  all: apply bind_Raise in H as [H | (ssal & _ & H)];
    [destruct (Hno _ (calculate_salary_Raise _ _ _ H) eq_refl) |].
  all: discriminate.
Qed.

(* an error of the loop is the error of one of its months *)
Lemma schedule_months_Raise wds months : forall acc e,
  months_of wds months acc = Raise e ->
  exists m, In m months /\ month_of wds m = Raise e.
Proof.
  induction months as [| m rest IH]; intros acc e H; simpl in H; [discriminate |].
  apply bind_Raise in H as [H | ([a s] & _ & H)].
  - exists m. split; [left; reflexivity | exact H].
  - apply IH in H as (m' & Hin & Hm'). exists m'. split; [right; exact Hin | exact Hm'].
Qed.

(* the loop stops at the first month that raises *)
Lemma schedule_months_first_Raise wds months : forall i m e acc,
  months !! i = Some m ->
  (forall j m', (j < i)%nat -> months !! j = Some m' ->
                exists p, month_of wds m' = Ok p) ->
  month_of wds m = Raise e ->
  months_of wds months acc = Raise e.
Proof.
  unfold months_of.
  induction months as [| m0 rest IH]; intros i m e acc Hi Hbefore Hm; [discriminate |].
  simpl. destruct i as [| i]; simpl in Hi.
  - injection Hi as ->. unfold month_of in Hm. rewrite Hm. reflexivity.
  - destruct (Hbefore 0%nat m0 ltac:(lia) eq_refl) as ([a s] & Hp).
    unfold month_of in Hp. rewrite Hp, bind_Ok_l.
    apply (IH i m e); auto.
    intros j m' Hj Hl. apply (Hbefore (S j) m'); [lia | exact Hl].
Qed.

Lemma schedule_months_all_Ok wds months :
  (forall m, In m months -> exists p, month_of wds m = Ok p) ->
  forall acc, exists sched, months_of wds months acc = Ok sched.
Proof.
  unfold months_of.
  induction months as [| m0 rest IH]; intros Hall acc; simpl; [eauto |].
  destruct (Hall m0 ltac:(left; reflexivity)) as ([a s] & Hp).
  unfold month_of in Hp. rewrite Hp, bind_Ok_l.
  apply IH. intros m Hin. apply Hall. right. exact Hin.
Qed.

(* with a caller's list, a month that raises nothing used its pair *)
Lemma payday_month_Some_Ok wd m a s :
  month_of (Some wd) m = Ok (a, s) ->
  wd !! Z.to_nat (m - 1) = Some (working_days a, working_days s) /\
  exists days,
    calendar_working_days calendar m = Ok days /\
    working_days a + working_days s <= days.
Proof.
  unfold month_of, payday_month. intros H.
  apply bind_Ok in H as (ldm & _ & H).
  apply bind_Ok in H as (oad & _ & H).
  apply bind_Ok in H as (ad & _ & H).
  destruct (12 <? m + 1).
  all: apply bind_Ok in H as (ldsm & _ & H).
  all: apply bind_Ok in H as (osd & _ & H).
  all: apply bind_Ok in H as (sd & _ & H).
  all: apply bind_Ok in H as (fd & _ & H).
  all: apply bind_Ok in H as (ld & _ & H).
  all: apply bind_Ok in H as (maxadv & _ & H).
  all: apply bind_Ok in H as (days & _ & H).
  all: apply bind_Ok in H as ([awd swd] & Hp & H).
  all: apply bind_Ok in H as (asal & _ & H).
  all: apply bind_Ok in H as (ssal & _ & H).
  all: injection H as <- <-; simpl.
  all: exact (period_working_days_Some _ _ _ _ _ _ Hp).
Qed.

Lemma schedule_of_months wds :
  match wds with Some wd => length wd = 12%nat | None => True end ->
  schedule_of wds = months_of wds (seqZ 1 12) [].
Proof.
  unfold schedule_of, get_payday_schedule, months_of.
  destruct wds as [wd |]; [| reflexivity].
  intros ->. reflexivity.
Qed.

(* a month whose dates are computed and whose pair exceeds the count of the
   calendar raises the validation error *)
Lemma payday_month_exceeds wd m a s days :
  month_dates_ok year advance_day holidays_data m ->
  wd !! Z.to_nat (m - 1) = Some (a, s) ->
  calendar_working_days calendar m = Ok days -> days < a + s ->
  month_of (Some wd) m = Raise (WorkingDaysTotalError m (a + s) days).
Proof.
  intros (Hva & Hvs & Hsa & Hss) Hl Hd Hlt.
  unfold month_of, calendar, holidays_data in *.
  rewrite (payday_month_eq _ _ _ _ _ _ _ _ Hva Hvs).
  destruct (get_previous_working_day _ _) as [ad |]; [| discriminate].
  rewrite bind_Ok_l.
  destruct (get_previous_working_day _ _) as [sd |]; [| discriminate].
  rewrite bind_Ok_l. cbv zeta. rewrite Hd, bind_Ok_l.
  unfold period_working_days. rewrite Hl, bind_Ok_l, Hd, bind_Ok_l.
  destruct (Z.ltb_spec days (a + s)); [reflexivity | lia].
Qed.

(** C3 (amended): once the calendar and the holidays have been fetched, a
    list that is not exactly 12 pairs raises the validation error before
    the loop over the months, hence before any date or salary computation.
    The capacity check is made inside the loop: a pair above the
    working-day total of its month always makes the call raise, so that no
    schedule, partial or complete, is returned; the error is the validation
    error of that month whenever the computations made before the check
    raise nothing: the iterations of the earlier months return, the two
    nominal dates of the month are dates and the search finds a working day
    from each.  No validation error is raised in any other case. *)
Theorem override_validation (working_days : option (list (Z * Z))) :
  let run :=
    get_payday_schedule get_work_calendar get_holidays_and_short_days
      year advance_day mode amount working_days in
  let iteration :=
    payday_month get_work_calendar year advance_day mode amount working_days
      (get_work_calendar year) (get_holidays_and_short_days year) in
  let exceeds wd month a s days :=
    1 <= month <= 12 /\ wd !! Z.to_nat (month - 1) = Some (a, s) /\
    calendar_working_days (get_work_calendar year) month = Ok days /\
    days < a + s in
  (forall wd, working_days = Some wd -> length wd <> 12%nat ->
              run = Raise WorkingDaysLengthError) /\
  (forall wd month a s days,
      working_days = Some wd -> exceeds wd month a s days ->
      (exists e, run = Raise e) /\
      (length wd = 12%nat ->
       (forall month', 1 <= month' < month -> is_ok (iteration month') = true) ->
       month_dates_ok year advance_day (get_holidays_and_short_days year) month ->
       run = Raise (WorkingDaysTotalError month (a + s) days))) /\
  (forall e, run = Raise e -> is_validation_error e = true ->
             exists wd, working_days = Some wd /\
               ((e = WorkingDaysLengthError /\ length wd <> 12%nat) \/
                (length wd = 12%nat /\
                 exists month a s days,
                   exceeds wd month a s days /\
                   e = WorkingDaysTotalError month (a + s) days))).
Proof.
  cbv zeta. split; [| split].
  - intros wd -> Hlen. unfold get_payday_schedule.
    destruct (Z.eqb_spec (Z.of_nat (length wd)) 12); [lia | reflexivity].
  - intros wd month a s days -> (Hr & Hl & Hd & Hlt). split.
    + destruct (get_payday_schedule _ _ _ _ _ _ (Some wd)) as [sched | e] eqn:Hrun;
        [| eauto].
      destruct (get_payday_schedule_months _ _ _ _ _ _ _ _ Hrun) as [_ Hmonths].
      destruct (Hmonths month Hr) as (a' & s' & Hmo & _).
      apply payday_month_Some_Ok in Hmo as [Hl' (days' & Hd' & Hle)].
      rewrite Hl in Hl'. injection Hl' as Ha Hs. rewrite <- Ha, <- Hs in Hle.
      fold calendar in Hd. rewrite Hd in Hd'. injection Hd' as <-. lia.
    + intros Hlen Hbefore Hdates.
      fold (schedule_of (Some wd)). rewrite (schedule_of_months (Some wd) Hlen).
      apply (schedule_months_first_Raise _ _ (Z.to_nat (month - 1)) month).
      * apply lookup_seqZ. lia.
      * intros j m' Hj Hj'. apply lookup_seqZ in Hj' as [-> Hj12].
        specialize (Hbefore (1 + Z.of_nat j) ltac:(lia)).
        unfold month_of, calendar, holidays_data.
        destruct (payday_month _ _ _ _ _ _ _ _ _) as [p |]; [eauto | discriminate].
      * exact (payday_month_exceeds wd month a s days Hdates Hl Hd Hlt).
  - intros e Hrun Hv. unfold get_payday_schedule in Hrun.
    destruct working_days as [wd |].
    + exists wd. split; [reflexivity |].
      destruct (Z.eqb_spec (Z.of_nat (length wd)) 12) as [Hlen | Hlen];
        cbn [negb] in Hrun.
      * right. split; [lia |].
        apply schedule_months_Raise in Hrun as (m & Hin & Hm).
        apply payday_month_Raise in Hm as (wd' & a & s & days & [= <-] & Hl & Hd & Hlt & ->);
          [| exact Hv].
        exists m, a, s, days. split; [| reflexivity].
        apply list_elem_of_In, elem_of_seqZ in Hin. repeat split; auto; lia.
      * left. injection Hrun as <-. split; [reflexivity | lia].
    + apply schedule_months_Raise in Hrun as (m & _ & Hm).
      apply payday_month_Raise in Hm as (wd' & a & s & days & [=] & _); exact Hv.
Qed.

End Validation.

(** C3 as stated fails because the capacity check is made inside the loop,
    after computations that can raise first.  With a list whose February pair
    (15, 15) exceeds the 20 working days of that month: when January has no
    working day the call raises [ZeroDivisionError] from January's salary
    computation, with the advance on day 0 it raises the [ValueError] of
    [date()] from January's date computation, and with the January pair
    (10 ** 400, -10 ** 400) it raises the [OverflowError] of the conversion
    of 10 ** 400 to a float; none is the validation error. *)
Lemma capacity_check_inside_loop :
  length Data.overrides_february = 12%nat /\
  Data.overrides_february !! 1%nat = Some (15, 15) /\
  calendar_working_days (Data.get_work_calendar 2030) 2 = Ok 20 /\
  calendar_working_days (Data.get_work_calendar 2025) 2 = Ok 20 /\
  Data.get_payday_schedule 2030 25 BeforeTax (Data.rubles 60000)
    (Some Data.overrides_february) = Raise ZeroDivisionError /\
  Data.get_payday_schedule 2025 0 BeforeTax (Data.rubles 60000)
    (Some Data.overrides_february) = Raise DateValueError /\
  Data.get_payday_schedule 2025 25 BeforeTax (Data.rubles 60000)
    (Some ((10 ^ 400, - 10 ^ 400) :: (15, 15) :: repeat (0, 0) 10))
    = Raise FloatOverflowError /\
  is_validation_error ZeroDivisionError = false /\
  is_validation_error DateValueError = false /\
  is_validation_error FloatOverflowError = false.
Proof. repeat split; vm_compute; reflexivity. Qed.

Lemma override_validation_witness :
  Data.get_payday_schedule 2025 25 BeforeTax (Data.rubles 60000)
    (Some Data.overrides_february) = Raise (WorkingDaysTotalError 2 30 20) /\
  get_payday_schedule (fun _ => Data.calendar_2025) Data.get_holidays_and_short_days
    9999 25 BeforeTax (Data.rubles 60000) (Some Data.overrides_february)
  = Raise (WorkingDaysTotalError 2 30 20).
Proof.
  split.
  - destruct (override_validation (ops := binary64)
                Data.get_work_calendar Data.get_holidays_and_short_days
                2025 25 BeforeTax (Data.rubles 60000) (Some Data.overrides_february))
      as (_ & Hexceeds & _).
    destruct (Hexceeds Data.overrides_february 2 15 15 20 eq_refl) as [_ Hfirst].
    + repeat split; try (vm_compute; reflexivity); vm_compute; discriminate.
    + apply Hfirst.
      * reflexivity.
      * intros month' Hlt. assert (month' = 1) as -> by lia.
        vm_compute. reflexivity.
      * repeat split; vm_compute; reflexivity.
  - destruct (override_validation (ops := binary64)
                (fun _ => Data.calendar_2025) Data.get_holidays_and_short_days
                9999 25 BeforeTax (Data.rubles 60000) (Some Data.overrides_february))
      as (_ & Hexceeds & _).
    destruct (Hexceeds Data.overrides_february 2 15 15 20 eq_refl) as [_ Hfirst].
    + repeat split; try (vm_compute; reflexivity); vm_compute; discriminate.
    + apply Hfirst.
      * reflexivity.
      * intros month' Hlt. assert (month' = 1) as -> by lia.
        vm_compute. reflexivity.
      * repeat split; vm_compute; reflexivity.
Defined.

(** ** When the schedule is returned *)

Section Returns.
Import Date DateFacts.

Variable get_work_calendar : Z -> gmap Z Month.
Variable get_holidays_and_short_days : Z -> HolidaysData.

Context {F : Type} {ops : FloatOps F} {laws : FloatLaws F}.

Variables (year advance_day : Z) (mode : salary_mode) (amount : F).

Let calendar := get_work_calendar year.
Let holidays_data := get_holidays_and_short_days year.
Let month_of wds := payday_month get_work_calendar year advance_day mode amount
                      wds calendar holidays_data.

Hypothesis year_range : 1 <= year /\ year + 1 <= 9999.
Hypothesis advance_day_positive : 1 <= advance_day.
Hypothesis calendar_complete :
  forall month, 1 <= month <= 12 ->
    exists m, calendar !! month = Some m /\ workingDays m <> 0 /\
              float_in_range (workingDays m) = true.
Hypothesis first_search :
  is_ok (get_previous_working_day
           (Date year 1 (Z.min advance_day 31)) holidays_data) = true.

Lemma calculate_salary_returns month days_worked :
  1 <= month <= 12 -> float_in_range days_worked = true ->
  exists r,
    calculate_salary get_work_calendar month year days_worked amount mode = Ok r.
Proof.
  intros Hm Hd. destruct (calendar_complete month Hm) as (m & Hl & Hnz & Hr).
  assert (Hok : is_ok (calculate_salary get_work_calendar month year days_worked
                         amount mode) = true)
    by (apply calculate_salary_returns_iff; eauto 10).
  destruct (calculate_salary _ _ _ _ _ _); [eauto | discriminate].
Qed.

(* the search of a payment date of the year succeeds *)
Lemma search_returns d :
  valid d = true ->
  leb (Date year 1 (Z.min advance_day 31)) d = true ->
  exists found, get_previous_working_day d holidays_data = Ok found.
Proof.
  intros Hv Hle.
  assert (Hfirst : valid (Date year 1 (Z.min advance_day 31)) = true).
  { apply valid_spec; simpl. lia. }
  pose proof (search_from_later _ _ holidays_data Hfirst Hv Hle first_search) as Hok.
  destruct (get_previous_working_day d holidays_data);
    [eauto | discriminate].
Qed.

Lemma nominal_dates_valid month :
  1 <= month <= 12 ->
  valid (nominal_advance_date year advance_day month) = true /\
  valid (nominal_salary_date year advance_day month) = true /\
  leb (Date year 1 (Z.min advance_day 31))
      (nominal_advance_date year advance_day month) = true /\
  leb (Date year 1 (Z.min advance_day 31))
      (nominal_salary_date year advance_day month) = true.
Proof.
  intros Hm.
  unfold nominal_advance_date, nominal_salary_date, salary_month_of,
    nominal_salary_day.
  pose proof (days_in_month_bounds year month) as Hdim.
  split; [apply valid_spec; simpl; lia |].
  assert (Hadv : leb (Date year 1 (Z.min advance_day 31))
                     (Date year month (Z.min advance_day (days_in_month year month)))
                 = true).
  { apply leb_spec. destruct (Z.eq_dec month 1) as [-> | Hne].
    - right. reflexivity.
    - left. apply ltb_spec; simpl. lia. }
  destruct (Z.ltb_spec 12 (month + 1)).
  - pose proof (days_in_month_bounds (year + 1) 1) as Hdim'.
    split; [apply valid_spec; simpl; lia |]. split; [exact Hadv |].
    apply leb_spec. left. apply ltb_spec; simpl. lia.
  - pose proof (days_in_month_bounds year (month + 1)) as Hdim'.
    split; [apply valid_spec; simpl; lia |]. split; [exact Hadv |].
    apply leb_spec. left. apply ltb_spec; simpl. lia.
Qed.

(* the iteration of a month raises nothing when the working days of its two
   periods convert to [float] and, taken from a caller's list, pass the check *)
Lemma payday_month_returns wds month :
  1 <= month <= 12 ->
  match wds with
  | Some wd =>
      exists a s,
        wd !! Z.to_nat (month - 1) = Some (a, s) /\
        (forall days, calendar_working_days calendar month = Ok days ->
                      a + s <= days) /\
        float_in_range a = true /\ float_in_range s = true
  | None =>
      forall m, calendar !! month = Some m ->
        float_in_range
          (workingDays m
           - Z.of_nat (length (first_half_working_days year month holidays_data)))
        = true
  end ->
  exists a s, month_of wds month = Ok (a, s).
Proof.
  intros Hm Hwds. unfold month_of, calendar, holidays_data in *.
  destruct (nominal_dates_valid month Hm) as (Hva & Hvs & Hla & Hls).
  rewrite (payday_month_eq _ _ _ _ _ _ _ _ Hva Hvs).
  destruct (search_returns _ Hva Hla) as (ad & Had).
  destruct (search_returns _ Hvs Hls) as (sd & Hsd).
  unfold holidays_data in Had, Hsd. rewrite Had, bind_Ok_l, Hsd, bind_Ok_l.
  cbv zeta.
  destruct (calendar_complete month Hm) as (m & Hl & Hnz & Hr).
  unfold calendar in Hl.
  assert (Hdays : calendar_working_days (get_work_calendar year) month
                  = Ok (workingDays m))
    by (apply calendar_working_days_Ok; eauto).
  rewrite Hdays, bind_Ok_l. unfold period_working_days.
  destruct wds as [wd |].
  - destruct Hwds as (a & s & Hp & Hsum & Ha & Hs).
    rewrite Hp, bind_Ok_l, Hdays, bind_Ok_l.
    specialize (Hsum _ Hdays).
    destruct (Z.ltb_spec (workingDays m) (a + s)); [lia |].
    rewrite bind_Ok_l.
    destruct (calculate_salary_returns month a Hm Ha) as (ra & ->).
    destruct (calculate_salary_returns month s Hm Hs) as (rs & ->).
    rewrite !bind_Ok_l. eauto.
  - rewrite bind_Ok_l.
    pose proof (first_half_working_days_bounds year month
                  (get_holidays_and_short_days year)) as Hb.
    destruct (calculate_salary_returns month
                (Z.of_nat (length (first_half_working_days year month
                                     (get_holidays_and_short_days year)))) Hm)
      as (ra & ->); [apply float_in_range_small; lia |].
    destruct (calculate_salary_returns month
                (workingDays m
                 - Z.of_nat (length (first_half_working_days year month
                                       (get_holidays_and_short_days year)))) Hm)
      as (rs & ->); [exact (Hwds m Hl) |].
    rewrite !bind_Ok_l. eauto.
Qed.

End Returns.

(* on which inputs the schedule is returned *)
Lemma get_payday_schedule_returns {F : Type} {ops : FloatOps F} {laws : FloatLaws F}
  (get_work_calendar : Z -> gmap Z Month)
  (get_holidays_and_short_days : Z -> HolidaysData)
  (year advance_day : Z) (mode : salary_mode) (amount : F)
  (working_days_arg : option (list (Z * Z))) :
  schedule_inputs_ok F (get_work_calendar year) (get_holidays_and_short_days year)
    year advance_day working_days_arg <->
  exists sched,
    get_payday_schedule get_work_calendar get_holidays_and_short_days
      year advance_day mode amount working_days_arg = Ok sched.
Proof.
  split.
  - intros (Hy1 & Hy2 & Had & Hcal & Hsearch & Hwd).
    assert (Hlen : match working_days_arg with
                   | Some wd => length wd = 12%nat
                   | None => True
                   end) by (destruct working_days_arg; [apply Hwd | exact I]).
    rewrite (schedule_of_months _ _ _ _ _ _ _ Hlen).
    apply schedule_months_all_Ok. intros m Hin.
    apply list_elem_of_In, elem_of_seqZ in Hin.
    destruct (payday_month_returns get_work_calendar get_holidays_and_short_days
                year advance_day mode amount (conj Hy1 Hy2) Had Hcal Hsearch
                working_days_arg m ltac:(lia)) as (a & s & H).
    + destruct working_days_arg as [wd |].
      * destruct Hwd as [[Hl Hsum] Hrange].
        destruct (lookup_lt_is_Some_2 wd (Z.to_nat (m - 1)) ltac:(lia))
          as ([a s] & Hp).
        exists a, s. split; [exact Hp |].
        split; [intros days Hd; exact (Hsum m a s days Hp ltac:(lia) Hd) |].
        apply Hrange. apply list_elem_of_lookup. eauto.
      * intros m' Hm'. apply Hwd; [lia | exact Hm'].
    + exists (a, s). exact H.
  - intros [sched Hrun].
    destruct (get_payday_schedule_months _ _ _ _ _ _ _ _ Hrun) as [_ Hmonths].
    destruct (Hmonths 1 ltac:(lia)) as (a1 & s1 & Hm1 & _).
    destruct (Hmonths 12 ltac:(lia)) as (a12 & s12 & Hm12 & _).
    apply payday_month_inv in Hm1 as (_ & Hv1 & _ & Hsearch & _).
    apply payday_month_inv in Hm12 as (_ & _ & Hv12 & _).
    apply DateFacts.valid_spec in Hv1, Hv12. simpl in Hv1, Hv12.
    split; [lia |]. split; [lia |]. split; [lia |].
    assert (Hsal : forall month, 1 <= month <= 12 ->
              exists a s m,
                payday_month get_work_calendar year advance_day mode amount
                  working_days_arg (get_work_calendar year)
                  (get_holidays_and_short_days year) month = Ok (a, s) /\
                get_work_calendar year !! month = Some m /\
                workingDays m <> 0 /\ float_in_range (workingDays m) = true /\
                float_in_range (working_days a) = true /\
                float_in_range (working_days s) = true).
    { intros month Hr. destruct (Hmonths month Hr) as (a & s & Hm & _).
      destruct (payday_month_Ok _ _ _ _ _ _ _ _ _ _ Hm) as (_ & _ & Hca & Hcs & _).
      pose proof (calculate_salary_cases get_work_calendar month year
                    (working_days a) amount mode) as Ha.
      rewrite Hca in Ha. destruct Ha as (m & Hl & Hr1 & Hnz & Hda).
      pose proof (calculate_salary_cases get_work_calendar month year
                    (working_days s) amount mode) as Hs.
      rewrite Hcs in Hs. destruct Hs as (m' & Hl' & _ & _ & Hds).
      exists a, s, m. auto 10. }
    split; [| split].
    + intros month Hr. destruct (Hsal month Hr) as (a & s & m & _ & Hl & Hnz & Hr1 & _).
      eauto.
    + unfold nominal_advance_date in Hsearch. simpl in Hsearch.
      rewrite Hsearch. reflexivity.
    + destruct working_days_arg as [wd |].
      * assert (Hlen : length wd = 12%nat).
        { unfold get_payday_schedule in Hrun.
          destruct (Z.eqb_spec (Z.of_nat (length wd)) 12); [lia | discriminate]. }
        split; [split; [exact Hlen |] |].
        -- intros month a s days Hl Hr Hd.
           destruct (Hmonths month Hr) as (a' & s' & Hm & _).
           apply payday_month_Some_Ok in Hm as [Hl' (days' & Hd' & Hle)].
           rewrite Hl in Hl'. injection Hl' as Ha Hs. rewrite <- Ha, <- Hs in Hle.
           rewrite Hd in Hd'. injection Hd' as <-. exact Hle.
        -- intros a s Hin. apply list_elem_of_lookup in Hin as [i Hi].
           pose proof (lookup_lt_Some _ _ _ Hi) as Hlt.
           destruct (Hsal (1 + Z.of_nat i) ltac:(lia))
             as (a' & s' & m & Hm & _ & _ & _ & Hda & Hds).
           apply payday_month_Some_Ok in Hm as [Hl' _].
           replace (Z.to_nat (1 + Z.of_nat i - 1)) with i in Hl' by lia.
           rewrite Hi in Hl'. injection Hl' as -> ->. auto.
      * intros month m Hr Hl.
        destruct (Hsal month Hr) as (a & s & m' & Hm & Hl' & _ & _ & _ & Hds).
        rewrite Hl in Hl'. injection Hl' as <-.
        apply payday_month_inv in Hm
          as (_ & _ & _ & _ & _ & _ & _ & Hmax & _ & _ & days & Hd & Hmaxs & Hp & _).
        apply calendar_working_days_Ok in Hd as (m'' & Hl'' & <-).
        rewrite Hl in Hl''. injection Hl'' as <-.
        simpl in Hp. injection Hp as Hpa Hps.
        rewrite <- Hmax, <- Hmaxs, Hps. exact Hds.
Qed.

(** C1 (amended): once the calendar and the holidays have been fetched,
    [get_payday_schedule] returns a schedule exactly on the inputs on which
    no step raises: a year from 1 to 9998, an advance day of at least 1, a
    calendar with the twelve months whose working-day counts are not zero
    and convert to [float], a working day on or before the first nominal
    date, and either no list, the working days left for each salary
    converting to [float], or a list that passes both checks and whose
    counts convert to [float]; on every other input it raises.  Every
    schedule it returns has exactly 24 items, the advance item of month m
    at position 2(m-1) and its salary item right after it, for m = 1..12 in
    calendar order. *)
Theorem get_payday_schedule_24
  (get_work_calendar : Z -> gmap Z Month)
  (get_holidays_and_short_days : Z -> HolidaysData)
  (year advance_day : Z) (mode : salary_mode) (amount : spec_float)
  (working_days : option (list (Z * Z))) :
  let run :=
    get_payday_schedule get_work_calendar get_holidays_and_short_days
      year advance_day mode amount working_days in
  let calendar := get_work_calendar year in
  let holidays_data := get_holidays_and_short_days year in
  (schedule_inputs_ok spec_float calendar holidays_data year advance_day working_days
   <-> exists sched, run = Ok sched) /\
  (forall sched, run = Ok sched ->
     length sched = 24%nat /\
     forall month, 1 <= month <= 12 ->
       exists a s,
         payday_month get_work_calendar year advance_day mode amount
           working_days calendar holidays_data month = Ok (a, s) /\
         advance_item sched month = Some a /\ it_is a = advance /\
         salary_item sched month = Some s /\ it_is s = salary).
Proof.
  cbv zeta. split.
  - apply get_payday_schedule_returns.
  - intros sched Hrun.
    destruct (get_payday_schedule_months _ _ _ _ _ _ _ _ Hrun) as [Hlen Hmonths].
    split; [exact Hlen |]. intros month Hr.
    destruct (Hmonths month Hr) as (a & s & Hm & Ha & Hs).
    destruct (payday_month_Ok _ _ _ _ _ _ _ _ _ _ Hm) as (Hka & Hks & _).
    exists a, s. auto.
Qed.

Lemma get_payday_schedule_24_witness :
  Data.get_payday_schedule 2025 25 BeforeTax (Data.rubles 60000) None
    = Ok Data.schedule_2025 /\
  length Data.schedule_2025 = 24%nat /\
  exists a s,
    advance_item Data.schedule_2025 1 = Some a /\ it_is a = advance /\
    salary_item Data.schedule_2025 1 = Some s /\ it_is s = salary /\
    item_date a = Date.Date 2025 1 24 /\ item_date s = Date.Date 2025 2 10.
Proof.
  destruct (get_payday_schedule_24
              Data.get_work_calendar Data.get_holidays_and_short_days
              2025 25 BeforeTax (Data.rubles 60000) None) as [_ Hshape].
  assert (Hrun : Data.get_payday_schedule 2025 25 BeforeTax (Data.rubles 60000) None
                 = Ok Data.schedule_2025) by (vm_compute; reflexivity).
  destruct (Hshape Data.schedule_2025 Hrun) as [Hlen Hmonths].
  split; [exact Hrun |]. split; [exact Hlen |].
  destruct (Hmonths 1 ltac:(lia)) as (a & s & _ & Ha & Hka & Hs & Hks).
  exists a, s. repeat split; auto.
  - vm_compute in Ha. injection Ha as <-. reflexivity.
  - vm_compute in Hs. injection Hs as <-. reflexivity.
Defined.

(** C1 as stated fails: the call does not return for every year and
    advance day.  Without a list, the advance on day 0 makes [date()] raise
    [ValueError] in January 2025, year 9999 makes it raise for the salary
    date of December, due in year 10000, and a calendar whose January has
    no working day makes the salary computation raise
    [ZeroDivisionError]. *)
Lemma schedule_not_always_returned :
  Data.get_payday_schedule 2025 0 BeforeTax (Data.rubles 60000) None
    = Raise DateValueError /\
  get_payday_schedule (fun _ => Data.calendar_2025) Data.get_holidays_and_short_days
    9999 25 BeforeTax (Data.rubles 60000) None = Raise DateValueError /\
  Data.get_payday_schedule 2030 25 BeforeTax (Data.rubles 60000) None
    = Raise ZeroDivisionError.
Proof. repeat split; vm_compute; reflexivity. Qed.

(** ** Ordinals: the day before has the previous ordinal *)

Module OrdinalFacts.
Import Date DateFacts.

Lemma days_before_year_succ y :
  days_before_year (y + 1) = days_before_year y + 365 + (if is_leap y then 1 else 0).
Proof.
  unfold days_before_year, is_leap. cbv zeta.
  replace (y + 1 - 1) with y by lia.
  destruct (Z.eqb_spec (y mod 4) 0), (Z.eqb_spec (y mod 100) 0),
    (Z.eqb_spec (y mod 400) 0); simpl;
    Z.to_euclidean_division_equations; lia.
Qed.

Lemma days_before_month_succ y m :
  1 <= m < 12 ->
  days_before_month y (m + 1) = days_before_month y m + days_in_month y m.
Proof.
  intros Hm.
  assert (H : m = 1 \/ m = 2 \/ m = 3 \/ m = 4 \/ m = 5 \/ m = 6 \/ m = 7 \/
              m = 8 \/ m = 9 \/ m = 10 \/ m = 11) by lia.
  unfold days_before_month, days_in_month.
  repeat destruct H as [-> | H]; try subst m; simpl; destruct (is_leap y); reflexivity.
Qed.

(* [d - timedelta(days=1)] is [fromordinal(d.toordinal() - 1)] *)
Lemma toordinal_pred d p :
  valid d = true -> pred d = Ok p -> toordinal p = toordinal d - 1.
Proof.
  intros Hv. apply valid_spec in Hv. unfold pred, toordinal, MINYEAR.
  destruct d as [y m dd]; simpl in *.
  split_ltb; intros [= <-]; simpl.
  - lia.
  - pose proof (days_before_month_succ y (m - 1) ltac:(lia)) as Hs.
    replace (m - 1 + 1) with m in Hs by lia. lia.
  - pose proof (days_before_year_succ (y - 1)) as Hs.
    replace (y - 1 + 1) with y in Hs by lia.
    assert (m = 1) as -> by lia. unfold days_before_month. simpl.
    destruct (is_leap (y - 1)); simpl in *; lia.
Qed.

Lemma toordinal_min : toordinal (Date 1 1 1) = 1.
Proof. reflexivity. Qed.

Lemma toordinal_positive d : valid d = true -> 1 <= toordinal d.
Proof.
  intros Hv. apply valid_spec in Hv. unfold toordinal.
  destruct d as [y m dd]; simpl in *.
  assert (0 <= days_before_year y).
  { unfold days_before_year. cbv zeta. Z.to_euclidean_division_equations. lia. }
  assert (0 <= days_before_month y m).
  { unfold days_before_month.
    destruct ((2 <? m) && is_leap y);
      repeat match goal with
             | |- context [match ?x with _ => _ end] => destruct x
             end; lia. }
  lia.
Qed.

End OrdinalFacts.

(** ** The search ends: a finite holiday list cannot cover every Monday *)

Section Finiteness.
Import Date DateFacts OrdinalFacts.

(* the day [k] days before a date, as long as it is in the calendar *)
Lemma days_back (k : nat) : forall d,
  valid d = true -> Z.of_nat k < toordinal d ->
  exists x, valid x = true /\ leb x d = true /\
            toordinal x = toordinal d - Z.of_nat k.
Proof.
  induction k as [| k IH]; intros d Hv Hk.
  - exists d. split; [exact Hv |]. split; [apply leb_refl | lia].
  - destruct (pred d) as [p | e] eqn:Hp.
    + pose proof (pred_valid _ _ Hv Hp) as Hvp.
      pose proof (toordinal_pred _ _ Hv Hp) as Hop.
      destruct (IH p Hvp ltac:(lia)) as (x & Hvx & Hle & Hox).
      exists x. split; [exact Hvx |]. split; [| lia].
      apply (leb_trans _ p); [exact Hle |].
      apply leb_spec. left. exact (pred_ltb _ _ Hv Hp).
    + destruct (pred_overflow _ _ Hv Hp) as [-> _].
      rewrite toordinal_min in Hk. lia.
Qed.

(* [n] Mondays on or before a date that is at least [7 n] days into the
   calendar *)
Lemma mondays_before d (n : nat) :
  valid d = true -> 7 * Z.of_nat n <= toordinal d ->
  exists l : list date,
    length l = n /\ NoDup l /\
    forall x, x ∈ l ->
      valid x = true /\ leb x d = true /\ weekday x = 0 /\
      toordinal d - 7 * Z.of_nat n < toordinal x.
Proof.
  intros Hv. induction n as [| n IH]; intros Hn.
  - exists []. split; [reflexivity |]. split; [constructor |].
    intros x Hx. inversion Hx.
  - destruct (IH ltac:(lia)) as (l & Hlen & Hnd & Hl).
    set (back := (toordinal d + 6) mod 7 + 7 * Z.of_nat n).
    assert (Hback : 0 <= back < 7 * Z.of_nat (S n)).
    { unfold back. pose proof (Z.mod_pos_bound (toordinal d + 6) 7 ltac:(lia)). lia. }
    destruct (days_back (Z.to_nat back) d Hv ltac:(lia)) as (x & Hvx & Hle & Hox).
    rewrite Z2Nat.id in Hox by lia.
    assert (Hmon : weekday x = 0).
    { unfold weekday. rewrite Hox. unfold back.
      Z.to_euclidean_division_equations. lia. }
    exists (x :: l). split; [simpl; lia |]. split.
    + apply NoDup_cons. split; [| exact Hnd].
      intros Hin. destruct (Hl x Hin) as (_ & _ & _ & Hlow).
      unfold back in Hox.
      pose proof (Z.mod_pos_bound (toordinal d + 6) 7 ltac:(lia)). lia.
    + intros y Hy. apply elem_of_cons in Hy as [-> | Hy].
      * repeat split; auto. lia.
      * destruct (Hl y Hy) as (? & ? & ? & ?). repeat split; auto. lia.
Qed.

Lemma is_holiday_elem d hs :
  is_holiday d hs = true -> d ∈ map holiday_date (holidays hs).
Proof.
  unfold is_holiday. intros H. apply existsb_exists in H as (h & Hin & He).
  apply eqb_eq in He as <-. apply list_elem_of_In, in_map. exact Hin.
Qed.

(* far enough into the calendar, the search returns *)
Lemma search_returns_far d hs e :
  valid d = true ->
  get_previous_working_day d hs = Raise e ->
  toordinal d < 7 * (Z.of_nat (length (holidays hs)) + 1).
Proof.
  intros Hv Hr.
  destruct (Z.lt_ge_cases (toordinal d) (7 * (Z.of_nat (length (holidays hs)) + 1)))
    as [Hlt | Hge]; [exact Hlt | exfalso].
  pose proof (get_previous_working_day_spec d hs Hv) as Hspec.
  rewrite Hr in Hspec. destruct Hspec as [_ Hnone].
  destruct (mondays_before d (S (length (holidays hs))) Hv ltac:(lia))
    as (l & Hlen & Hnd & Hl).
  assert (Hsub : forall x, x ∈ l -> x ∈ map holiday_date (holidays hs)).
  { intros x Hx. destruct (Hl x Hx) as (Hvx & Hle & Hmon & _).
    pose proof (Hnone x Hvx Hle) as Hw. unfold is_working, is_weekend in Hw.
    rewrite Hmon in Hw. simpl in Hw. rewrite andb_true_r in Hw.
    apply negb_false_iff in Hw. apply is_holiday_elem. exact Hw. }
  pose proof (submseteq_length _ _ (NoDup_submseteq _ _ Hnd Hsub)) as Hle.
  rewrite length_map in Hle. lia.
Qed.

End Finiteness.

(** C10 (amended): for every starting date and every holiday list the search
    terminates.  It returns the latest day on or before the start that is
    neither a Saturday/Sunday nor a listed holiday whenever such a day
    exists, in particular whenever the start is at least 7 * (number of
    listed holidays + 1) days after 0001-01-01; otherwise every day from
    0001-01-01 to the start is a weekend day or a holiday and it raises
    [OverflowError]. *)
Theorem get_previous_working_day_latest (start : date) (hs : HolidaysData) :
  Date.valid start = true ->
  (exists found,
      get_previous_working_day start hs = Ok found /\
      Date.valid found = true /\ Date.leb found start = true /\
      is_holiday found hs = false /\ is_weekend found = false /\
      forall d, Date.valid d = true -> Date.ltb found d = true ->
                Date.leb d start = true ->
                is_holiday d hs = true \/ is_weekend d = true)
  \/
  (get_previous_working_day start hs = Raise DateOverflowError /\
   Date.toordinal start < 7 * (Z.of_nat (length (holidays hs)) + 1) /\
   forall d, Date.valid d = true -> Date.leb d start = true ->
             is_holiday d hs = true \/ is_weekend d = true).
Proof.
  intros Hv. pose proof (get_previous_working_day_spec start hs Hv) as H.
  assert (Hnw : forall d, is_working d hs = false ->
                          is_holiday d hs = true \/ is_weekend d = true).
  { intros d. unfold is_working.
    destruct (is_holiday d hs), (is_weekend d); simpl; auto. }
  destruct (get_previous_working_day start hs) as [found | e] eqn:Hrun; simpl in H.
  - left. exists found. destruct H as (Hvf & Hle & Hw & Hmax).
    unfold is_working in Hw. apply andb_true_iff in Hw as [Hh Hwe].
    apply negb_true_iff in Hh, Hwe. repeat split; auto.
  - right. destruct H as (-> & Hnone). split; [reflexivity |].
    split; [exact (search_returns_far _ _ _ Hv Hrun) | auto].
Qed.

Lemma get_previous_working_day_latest_witness :
  Date.valid (Date.Date 2025 1 12) = true /\
  exists found,
    get_previous_working_day (Date.Date 2025 1 12) Data.holidays_2025 = Ok found /\
    found = Date.Date 2025 1 10 /\
    Date.leb found (Date.Date 2025 1 12) = true.
Proof.
  split; [reflexivity |].
  destruct (get_previous_working_day_latest (Date.Date 2025 1 12) Data.holidays_2025)
    as [(found & Hf & _ & Hle & _) | [Hr _]].
  - reflexivity.
  - exists found. split; [exact Hf |]. split; [| exact Hle].
    vm_compute in Hf. injection Hf as <-. reflexivity.
  - vm_compute in Hr. discriminate.
Defined.


(** * Further properties *)

(** ** The calendar provider *)

Lemma work_calendar_snoc months month :
  work_calendar (months ++ [month])
  = <[id month + 1 := calendar_entry month]> (work_calendar months).
Proof. unfold work_calendar. rewrite fold_left_app. reflexivity. Qed.

(** X1: [calendar[k]] is the re-indexed copy of the last month object of the
    response whose id is k - 1, and [k] is no key of the calendar when the
    response has no such object. *)
Theorem work_calendar_lookup (calendar_months : list Month) (k : Z) :
  work_calendar calendar_months !! k
  = calendar_entry <$> last (filter (fun m => id m = k - 1) calendar_months).
Proof.
  induction calendar_months as [| month months IH] using rev_ind.
  - reflexivity.
  - rewrite work_calendar_snoc, filter_app.
    destruct (decide (id month = k - 1)) as [He | Hne].
    + rewrite filter_cons_True by exact He. rewrite filter_nil, last_snoc.
      replace k with (id month + 1) by lia. rewrite lookup_insert_eq. reflexivity.
    + rewrite filter_cons_False by exact Hne. rewrite filter_nil, app_nil_r.
      rewrite lookup_insert_ne by lia. exact IH.
Qed.

Lemma work_calendar_list_to_map months :
  work_calendar months
  = list_to_map (reverse (map (fun m => (id m + 1, calendar_entry m)) months)).
Proof.
  induction months as [| month months IH] using rev_ind.
  - reflexivity.
  - rewrite work_calendar_snoc, map_app, reverse_app. simpl. rewrite IH. reflexivity.
Qed.

(** X2: for a response whose month objects carry the ids 0, 1, ..., 11 in
    this order, the calendar has exactly the keys 1..12; month k is the
    object at position k - 1, with the same counts and with id k. *)
Theorem work_calendar_twelve_months (calendar_months : list Month) (k : Z) :
  map id calendar_months = seqZ 0 12 ->
  (1 <= k <= 12 ->
   exists month,
     calendar_months !! Z.to_nat (k - 1) = Some month /\
     work_calendar calendar_months !! k = Some (calendar_entry month) /\
     id (calendar_entry month) = k /\
     workingDays (calendar_entry month) = workingDays month) /\
  (~ 1 <= k <= 12 -> work_calendar calendar_months !! k = None).
Proof.
  intros Hids. rewrite work_calendar_list_to_map.
  set (entries := map (fun m => (id m + 1, calendar_entry m)) calendar_months).
  assert (Hkeys : (reverse entries).*1 = reverse (map (fun i => i + 1) (seqZ 0 12))).
  { unfold entries. rewrite fmap_reverse. f_equal.
    rewrite <- Hids, <- !list_fmap_compose. reflexivity. }
  assert (Hlen : length calendar_months = 12%nat).
  { rewrite <- (length_map id), Hids, length_seqZ. reflexivity. }
  assert (Hid : forall i m, calendar_months !! i = Some m -> id m = Z.of_nat i).
  { intros i m Hm.
    assert (Hi : map id calendar_months !! i = Some (id m))
      by (rewrite list_lookup_fmap, Hm; reflexivity).
    rewrite Hids in Hi. apply lookup_seqZ in Hi as [-> _]. lia. }
  split.
  - intros Hk.
    destruct (lookup_lt_is_Some_2 calendar_months (Z.to_nat (k - 1)) ltac:(lia))
      as [month Hm].
    exists month. split; [exact Hm |].
    pose proof (Hid _ _ Hm) as Hidm.
    split; [| split; [simpl; lia | reflexivity]].
    apply elem_of_list_to_map_1.
    + rewrite Hkeys, reverse_Permutation.
      apply NoDup_fmap_2_strong; [| apply NoDup_seqZ].
      intros x y _ _ Hxy. lia.
    + apply elem_of_reverse. unfold entries. apply list_elem_of_fmap.
      exists month. split; [f_equal; lia |].
      apply list_elem_of_lookup. eauto.
  - intros Hk. apply not_elem_of_list_to_map_1. rewrite Hkeys.
    rewrite elem_of_reverse, list_elem_of_fmap.
    intros (i & -> & Hi). apply elem_of_seqZ in Hi. lia.
Qed.

(* the keys of the calendar are the ids of the response, plus one *)
Lemma work_calendar_is_Some (calendar_months : list Month) (k : Z) :
  is_Some (work_calendar calendar_months !! k) <->
  exists m, m ∈ calendar_months /\ id m = k - 1.
Proof.
  induction calendar_months as [| month months IH] using rev_ind.
  - split; [intros [x Hx]; discriminate | intros (m & Hin & _); inversion Hin].
  - rewrite work_calendar_snoc.
    destruct (decide (id month + 1 = k)) as [He | Hne].
    + rewrite <- He, lookup_insert_eq. split; [intros _ | eauto].
      exists month. split; [| lia]. apply elem_of_app. right. left.
    + rewrite lookup_insert_ne by exact Hne. rewrite IH.
      split; intros (m & Hin & Hid); exists m; (split; [| exact Hid]).
      * apply elem_of_app. left. exact Hin.
      * apply elem_of_app in Hin as [Hin | Hin]; [exact Hin |].
        apply list_elem_of_singleton in Hin as ->. lia.
Qed.

(** X3: [calculate_salary], on the calendar built from a response, raises
    [KeyError(month)] exactly when no month object of the response has the
    id month - 1. *)
Theorem calculate_salary_missing_month {F : Type} {ops : FloatOps F}
  (calendar_months : list Month) (month year days_worked : Z) (amount : F)
  (mode : salary_mode) :
  calculate_salary (fun _ => work_calendar calendar_months)
    month year days_worked amount mode = Raise (KeyError month)
  <-> ~ exists m, m ∈ calendar_months /\ id m = month - 1.
Proof.
  rewrite <- work_calendar_is_Some. split.
  - intros H [x Hx].
    apply calculate_salary_error in H as [[Hn _] | [_ [H | H]]];
      [| discriminate H | discriminate H].
    cbv beta in Hn. rewrite Hn in Hx. discriminate.
  - intros Hno. unfold calculate_salary, calendar_working_days. cbv beta.
    destruct (work_calendar calendar_months !! month) as [m |] eqn:Hl;
      [| reflexivity].
    exfalso. apply Hno. eauto.
Qed.

Lemma work_calendar_twelve_months_witness :
  work_calendar Samples.response_2025 !! 12 = Some (snd (Data.month_entry 12 22)) /\
  work_calendar Samples.response_2025 !! 0 = None.
Proof.
  destruct (work_calendar_twelve_months Samples.response_2025 12 eq_refl)
    as [Hin _].
  destruct (work_calendar_twelve_months Samples.response_2025 0 eq_refl)
    as [_ Hout].
  split; [| apply Hout; lia].
  destruct (Hin ltac:(lia)) as (month & Hm & Hl & _).
  vm_compute in Hm. injection Hm as <-. exact Hl.
Defined.

(** ** The nearest year of the page *)

(* [min] returns the first item whose key is minimal *)
Lemma min_by_first {A : Type} (key : A -> Z) (items : list A) : forall best,
  exists pre post,
    best :: items = pre ++ min_by key best items :: post /\
    (forall x, x ∈ pre -> key (min_by key best items) < key x) /\
    (forall x, x ∈ post -> key (min_by key best items) <= key x).
Proof.
  induction items as [| item rest IH]; intros best; simpl.
  - exists [], []. split; [reflexivity |]. split; intros x Hx; inversion Hx.
  - destruct (Z.ltb_spec (key item) (key best)) as [Hlt | Hge].
    + destruct (IH item) as (pre & post & Heq & Hpre & Hpost).
      set (r := min_by key item rest) in *.
      exists (best :: pre), post. split; [simpl; rewrite <- Heq; reflexivity |].
      split; [| exact Hpost].
      intros x Hx. apply elem_of_cons in Hx as [-> | Hx]; [| auto].
      assert (Hr : key r <= key item).
      { destruct pre as [| p pre].
        - injection Heq as <- _. lia.
        - injection Heq as <- _. pose proof (Hpre item ltac:(left)). lia. }
      lia.
    + destruct (IH best) as (pre & post & Heq & Hpre & Hpost).
      set (r := min_by key best rest) in *.
      destruct pre as [| p pre].
      * injection Heq as Hr Hrest. exists [], (item :: post).
        assert (Hk : key r = key best) by (rewrite <- Hr; reflexivity).
        split; [simpl; rewrite <- Hr, Hrest; reflexivity |].
        split; [intros x Hx; inversion Hx |].
        intros x Hx. apply elem_of_cons in Hx as [-> | Hx]; [lia | auto].
      * injection Heq as <- Hrest. exists (best :: item :: pre), post.
        split; [simpl; rewrite Hrest; reflexivity |].
        split; [| exact Hpost].
        pose proof (Hpre best ltac:(left)).
        intros x Hx. apply elem_of_cons in Hx as [-> | Hx]; [lia |].
        apply elem_of_cons in Hx as [-> | Hx]; [lia |].
        apply Hpre. right. exact Hx.
Qed.

(** X4: [get_nearest_year_index] raises (the [ValueError] of [min]) exactly
    on the empty list; otherwise it returns a position of the list whose year
    is nearest to the current year, and the first such position: every
    year before it is strictly farther. *)
Theorem get_nearest_year_index_nearest (current_year : Z) (years : list Z) :
  (get_nearest_year_index current_year years = None <-> years = []) /\
  (forall i, get_nearest_year_index current_year years = Some i ->
     exists year,
       years !! i = Some year /\
       forall j other, years !! j = Some other ->
         Z.abs (year - current_year) <= Z.abs (other - current_year) /\
         ((j < i)%nat ->
          Z.abs (year - current_year) < Z.abs (other - current_year))).
Proof.
  unfold get_nearest_year_index. destruct years as [| y0 years].
  - split; [tauto | discriminate].
  - split; [split; discriminate |].
    set (all := y0 :: years).
    change (seq 0 (length all)) with (0%nat :: seq 1 (length years)).
    set (key := fun i : nat => Z.abs (default 0 (all !! i) - current_year)).
    intros i [= <-].
    destruct (min_by_first key (seq 1 (length years)) 0%nat)
      as (pre & post & Heq & Hpre & Hpost).
    set (i := min_by key 0%nat (seq 1 (length years))) in *.
    change (0%nat :: seq 1 (length years)) with (seq 0 (length all)) in Heq.
    assert (Hi : seq 0 (length all) !! length pre = Some i)
      by (rewrite Heq; apply list_lookup_middle; reflexivity).
    apply lookup_seq in Hi as [Hi Hlen]. simpl in Hi.
    destruct (lookup_lt_is_Some_2 all i ltac:(lia)) as [year Hy].
    exists year. split; [exact Hy |].
    assert (Hkey : key i = Z.abs (year - current_year))
      by (unfold key; rewrite Hy; reflexivity).
    intros j other Hj.
    assert (Hkj : key j = Z.abs (other - current_year))
      by (unfold key; rewrite Hj; reflexivity).
    pose proof (lookup_lt_Some _ _ _ Hj) as Hjlen.
    assert (Hjs : seq 0 (length all) !! j = Some j)
      by (apply lookup_seq; split; [reflexivity | exact Hjlen]).
    rewrite Heq in Hjs. rewrite <- Hkey, <- Hkj.
    destruct (Nat.lt_trichotomy j (length pre)) as [Hlt | [He | Hgt]].
    + rewrite lookup_app_l in Hjs by exact Hlt.
      pose proof (Hpre j ltac:(apply list_elem_of_lookup; eauto)). lia.
    + assert (j = i) as -> by lia. lia.
    + rewrite lookup_app_r in Hjs by lia.
      destruct (j - length pre)%nat as [| n] eqn:Hn; [lia |]. simpl in Hjs.
      pose proof (Hpost j ltac:(apply list_elem_of_lookup; eauto)). lia.
Qed.

Lemma get_nearest_year_index_nearest_witness :
  get_nearest_year_index 2026 Samples.YEARS = Some 2%nat /\
  get_nearest_year_index 2024 Samples.YEARS = Some 1%nat /\
  get_nearest_year_index 2026 [] = None.
Proof.
  destruct (get_nearest_year_index_nearest 2026 []) as [Hempty _].
  split; [reflexivity |]. split; [reflexivity |]. apply Hempty. reflexivity.
Defined.


(** ** The salary calculator: errors, split periods and order *)

Section SalaryFacts.

Variable get_work_calendar : Z -> gmap Z Month.

(** X5: [calculate_salary] raises [KeyError] exactly when the calendar has
    no entry for the month, [ZeroDivisionError] exactly when the entry
    counts zero working days, and [OverflowError] exactly when the count of
    the entry does not convert to [float], or is not zero while the days
    worked do not convert; in every other case it returns a result,
    whatever the amount and the mode (the division by 1 - 0.13 of the net
    mode never fails), and it raises nothing else.  An int converts to
    [float] when it is less than 2 ** 1024 - 2 ** 970 in absolute value. *)
Theorem calculate_salary_errors
  (month year days_worked : Z) (amount : spec_float) (mode : salary_mode) :
  let run := calculate_salary get_work_calendar month year days_worked amount mode in
  (forall i, float_in_range (F := spec_float) i = true <->
             Z.abs i < 2 ^ 1024 - 2 ^ 970) /\
  (run = Raise (KeyError month) <-> get_work_calendar year !! month = None) /\
  (run = Raise ZeroDivisionError <->
   exists m, get_work_calendar year !! month = Some m /\ workingDays m = 0) /\
  (run = Raise FloatOverflowError <->
   exists m, get_work_calendar year !! month = Some m /\
             (float_in_range (F := spec_float) (workingDays m) = false \/
              (workingDays m <> 0 /\
               float_in_range (F := spec_float) days_worked = false))) /\
  (is_ok run = true <->
   exists m, get_work_calendar year !! month = Some m /\ workingDays m <> 0 /\
             float_in_range (F := spec_float) (workingDays m) = true /\
             float_in_range (F := spec_float) days_worked = true) /\
  (forall e, run = Raise e ->
             e = KeyError month \/ e = ZeroDivisionError \/ e = FloatOverflowError).
Proof.
  intros run.
  split; [intros i; simpl; unfold float_int_bound; apply Z.ltb_lt |].
  pose proof (calculate_salary_cases get_work_calendar month year days_worked
                amount mode) as Hcases.
  fold run in Hcases.
  assert (Hzero : float_in_range (F := spec_float) 0 = true) by reflexivity.
  destruct run as [r | e].
  - destruct Hcases as (m & Hm & Hr & Hnz & Hd). rewrite Hm.
    split; [split; discriminate |].
    split; [split; [discriminate | intros (? & [= <-] & Hz); tauto] |].
    split; [split; [discriminate |
                    intros (? & [= <-] & [H | [_ H]]); congruence] |].
    split; [split; [eauto 10 | reflexivity] |].
    discriminate.
  - destruct Hcases as [[Hm ->] | (m & Hm & Hcases)]; rewrite Hm.
    + split; [tauto |].
      split; [split; [discriminate | intros (? & [=] & _)] |].
      split; [split; [discriminate | intros (? & [=] & _)] |].
      split; [split; [discriminate | intros (? & [=] & _)] |].
      intros e [= <-]. auto.
    + destruct Hcases as [[Hr ->] | [[Hz ->] | (Hr & Hnz & Hd & ->)]].
      * split; [split; discriminate |].
        split; [split; [discriminate |
                        intros (? & [= <-] & Hz); rewrite Hz in Hr; congruence] |].
        split; [split; [eauto | reflexivity] |].
        split; [split; [discriminate | intros (? & [= <-] & _ & H & _); congruence] |].
        intros e [= <-]. auto.
      * split; [split; discriminate |].
        split; [split; [eauto | reflexivity] |].
        split; [split; [discriminate |
                        intros (? & [= <-] & [H | [H _]]);
                        [rewrite Hz in H; congruence | tauto]] |].
        split; [split; [discriminate | intros (? & [= <-] & H & _); tauto] |].
        intros e [= <-]. auto.
      * split; [split; discriminate |].
        split; [split; [discriminate | intros (? & [= <-] & Hz); tauto] |].
        split; [split; [eauto | reflexivity] |].
        split; [split; [discriminate |
                        intros (? & [= <-] & _ & _ & H); congruence] |].
        intros e [= <-]. auto.
Qed.

Lemma exact_period_amount_plus amount work_days d1 d2 :
  (exact_period_amount amount work_days (d1 + d2) ==
   exact_period_amount amount work_days d1
   + exact_period_amount amount work_days d2)%Q.
Proof. unfold exact_period_amount. rewrite inject_Z_plus. ring. Qed.

Lemma exact_period_amount_full amount work_days :
  work_days <> 0 -> (exact_period_amount amount work_days work_days == amount)%Q.
Proof.
  intros Hnz. unfold exact_period_amount. field. apply inject_Z_nonzero. exact Hnz.
Qed.

Lemma exact_period_amount_le amount work_days d1 d2 :
  (0 <= amount)%Q -> 0 < work_days -> d1 <= d2 ->
  (exact_period_amount amount work_days d1
   <= exact_period_amount amount work_days d2)%Q.
Proof.
  intros Ha Hwd Hd. unfold exact_period_amount.
  rewrite !(Qmult_comm (amount / inject_Z work_days)).
  apply Qmult_le_compat_r.
  - rewrite <- Zle_Qle. exact Hd.
  - apply Qle_shift_div_l.
    + change 0%Q with (inject_Z 0). rewrite <- Zlt_Qlt. exact Hwd.
    + rewrite Qmult_0_l. exact Ha.
Qed.

(** X6: over exact arithmetic, that is with the operations carried out
    without rounding or overflow, the result is additive in the days
    worked: when the calculator returns for d1 + d2 days, for d1 days and
    for d2 days, the three figures for d1 + d2 days are the sums of the
    figures of the two parts. *)
Theorem calculate_salary_additive
  (month year d1 d2 : Z) (amount : Q) (mode : salary_mode)
  (r r1 r2 : SalaryResult Q) :
  calculate_salary get_work_calendar month year (d1 + d2) amount mode = Ok r ->
  calculate_salary get_work_calendar month year d1 amount mode = Ok r1 ->
  calculate_salary get_work_calendar month year d2 amount mode = Ok r2 ->
  same_amounts r (add_month r1 r2).
Proof.
  intros H H1 H2.
  apply calculate_salary_exact_Ok in H as (wd & Hwd & Hnz & Hr).
  apply calculate_salary_exact_Ok in H1 as (wd1 & Hwd1 & _ & Hr1).
  apply calculate_salary_exact_Ok in H2 as (wd2 & Hwd2 & _ & Hr2).
  rewrite Hwd in Hwd1, Hwd2. injection Hwd1 as <-. injection Hwd2 as <-.
  pose proof (exact_period_amount_plus amount wd d1 d2) as Hp.
  cbv zeta in Hr, Hr1, Hr2.
  set (p := exact_period_amount amount wd (d1 + d2)) in *.
  set (p1 := exact_period_amount amount wd d1) in *.
  set (p2 := exact_period_amount amount wd d2) in *.
  unfold same_amounts, add_month. rewrite Hr, Hr1, Hr2.
  destruct mode; simpl; rewrite Hp.
  - split; [reflexivity |]. split; ring.
  - split; [field |]. split; [field | reflexivity].
Qed.

(** X7: over exact arithmetic, that is with the operations carried out
    without rounding or overflow: for a non-negative amount and a month
    with a positive working-day count, more days worked never give smaller
    figures, and at most all the working days of the month give at most
    the amount in the figure the mode prorates. *)
Theorem calculate_salary_monotone
  (month year d1 d2 : Z) (amount : Q) (mode : salary_mode) (m : Month)
  (r1 r2 : SalaryResult Q) :
  get_work_calendar year !! month = Some m -> 0 < workingDays m ->
  (0 <= amount)%Q -> d1 <= d2 ->
  calculate_salary get_work_calendar month year d1 amount mode = Ok r1 ->
  calculate_salary get_work_calendar month year d2 amount mode = Ok r2 ->
  amounts_le r1 r2 /\
  (d2 <= workingDays m -> (prorated_figure mode r2 <= amount)%Q).
Proof.
  intros Hm Hpos Ha Hd H1 H2.
  apply calculate_salary_exact_Ok in H1 as (wd & Hwd & Hnz & Hr1).
  apply calculate_salary_exact_Ok in H2 as (wd' & Hwd' & _ & Hr2).
  rewrite Hwd in Hwd'. injection Hwd' as <-.
  unfold calendar_working_days in Hwd. rewrite Hm in Hwd. injection Hwd as <-.
  pose proof (exact_period_amount_le amount _ d1 d2 Ha Hpos Hd) as Hle.
  cbv zeta in Hr1, Hr2.
  set (p1 := exact_period_amount amount (workingDays m) d1) in *.
  set (p2 := exact_period_amount amount (workingDays m) d2) in *.
  assert (Hk : (/ (87 # 100) == 100 # 87)%Q) by reflexivity.
  split.
  - unfold amounts_le. rewrite Hr1, Hr2.
    destruct mode; simpl; unfold Qdiv; rewrite ?Hk;
      repeat split; lra.
  - intros Hfull.
    pose proof (exact_period_amount_le amount _ d2 _ Ha Hpos Hfull) as Hle'.
    rewrite exact_period_amount_full in Hle' by lia. fold p2 in Hle'.
    rewrite Hr2. destruct mode; exact Hle'.
Qed.

End SalaryFacts.

Lemma calculate_salary_errors_witness :
  Data.calculate_salary 1 2025 (10 ^ 400) (Data.rubles 60000) BeforeTax
    = Raise FloatOverflowError /\
  Data.calculate_salary 13 2025 17 (Data.rubles 60000) BeforeTax
    = Raise (KeyError 13) /\
  is_ok (Data.calculate_salary 1 2025 17 (Data.rubles 60000) OnHand) = true.
Proof.
  destruct (calculate_salary_errors Data.get_work_calendar 1 2025 (10 ^ 400)
              (Data.rubles 60000) BeforeTax) as (_ & _ & _ & Hover & _).
  destruct (calculate_salary_errors Data.get_work_calendar 13 2025 17
              (Data.rubles 60000) BeforeTax) as (_ & Hkey & _).
  destruct (calculate_salary_errors Data.get_work_calendar 1 2025 17
              (Data.rubles 60000) OnHand) as (_ & _ & _ & _ & Hok & _).
  split; [| split].
  - apply Hover. eexists. split; [vm_compute; reflexivity |].
    right. split; [simpl; discriminate | vm_compute; reflexivity].
  - apply Hkey. vm_compute. reflexivity.
  - apply Hok. eexists. split; [vm_compute; reflexivity |].
    split; [simpl; discriminate |]. split; vm_compute; reflexivity.
Defined.

Lemma calculate_salary_additive_witness :
  exists r r1 r2,
    calculate_salary Data.get_work_calendar 1 2025 17 (60000 : Q) BeforeTax = Ok r /\
    calculate_salary Data.get_work_calendar 1 2025 5 (60000 : Q) BeforeTax = Ok r1 /\
    calculate_salary Data.get_work_calendar 1 2025 12 (60000 : Q) BeforeTax = Ok r2 /\
    same_amounts r (add_month r1 r2).
Proof.
  eexists. eexists. eexists.
  split; [vm_compute; reflexivity |].
  split; [vm_compute; reflexivity |].
  split; [vm_compute; reflexivity |].
  apply (calculate_salary_additive Data.get_work_calendar 1 2025 5 12 60000%Q
           BeforeTax); vm_compute; reflexivity.
Defined.

Lemma calculate_salary_monotone_witness :
  (exists r1 r2,
      calculate_salary Data.get_work_calendar 1 2025 5 (60000 : Q) OnHand = Ok r1 /\
      calculate_salary Data.get_work_calendar 1 2025 17 (60000 : Q) OnHand = Ok r2 /\
      amounts_le r1 r2 /\ (after_tax r2 <= 60000)%Q) /\
  (exists r,
      Data.calculate_salary 3 2025 21 (Data.rubles 60000) BeforeTax = Ok r /\
      SFltb (Data.rubles 60000) (before_tax r) = true).
Proof.
  split.
  - eexists. eexists.
    split; [vm_compute; reflexivity |].
    split; [vm_compute; reflexivity |].
    destruct (calculate_salary_monotone Data.get_work_calendar 1 2025 5 17 60000%Q
                OnHand _ _ _ ltac:(vm_compute; reflexivity) ltac:(vm_compute; reflexivity)
                ltac:(vm_compute; discriminate) ltac:(lia)
                ltac:(vm_compute; reflexivity) ltac:(vm_compute; reflexivity))
      as [Hle Hfull].
    split; [exact Hle |]. apply Hfull. vm_compute. discriminate.
  - eexists. split; vm_compute; reflexivity.
Defined.


(** ** The annual salary of the page *)

Section Annual.

Variable get_work_calendar : Z -> gmap Z Month.
Variables (year : Z) (amount : Q) (mode : salary_mode).

Let calendar := get_work_calendar year.

(* one turn of the loop: the result of a full month *)
Lemma full_month_result month full_month month_result :
  calendar_working_days calendar month = Ok full_month ->
  calculate_salary get_work_calendar month year full_month amount mode
    = Ok month_result ->
  (prorated_figure mode month_result == amount)%Q /\
  (tax month_result == before_tax month_result * (13 # 100))%Q /\
  (after_tax month_result == before_tax month_result - tax month_result)%Q.
Proof.
  intros Hfull H. apply calculate_salary_exact_Ok in H as (wd & Hwd & Hnz & Hr).
  fold calendar in Hwd. rewrite Hfull in Hwd. injection Hwd as <-.
  pose proof (exact_period_amount_full amount full_month Hnz) as Hp.
  cbv zeta in Hr.
  set (p := exact_period_amount amount full_month full_month) in *.
  rewrite Hr. destruct mode; simpl.
  - split; [exact Hp |]. split; [reflexivity | reflexivity].
  - split; [exact Hp |]. split; [reflexivity | field].
Qed.

Lemma annual_months_Ok months : forall annual_result r,
  annual_months get_work_calendar calendar year amount mode months annual_result = Ok r ->
  (prorated_figure mode r ==
   prorated_figure mode annual_result + inject_Z (Z.of_nat (length months)) * amount)%Q /\
  ((tax annual_result == before_tax annual_result * (13 # 100))%Q ->
   (tax r == before_tax r * (13 # 100))%Q) /\
  ((after_tax annual_result == before_tax annual_result - tax annual_result)%Q ->
   (after_tax r == before_tax r - tax r)%Q).
Proof.
  induction months as [| month rest IH]; intros acc r H.
  - injection H as <-. simpl. split; [ring | tauto].
  - simpl annual_months in H.
    apply bind_Ok in H as (full & Hfull & H).
    apply bind_Ok in H as (mr & Hmr & H).
    destruct (full_month_result _ _ _ Hfull Hmr) as (Hp & Htax & Hafter).
    destruct (IH _ _ H) as (IHp & IHtax & IHafter).
    split; [| split].
    + rewrite IHp. simpl length. rewrite Nat2Z.inj_succ, <- Z.add_1_r, inject_Z_plus.
      assert (Hadd : (prorated_figure mode (add_month acc mr) ==
                      prorated_figure mode acc + prorated_figure mode mr)%Q)
        by (destruct mode; reflexivity).
      rewrite Hadd, Hp. change (inject_Z 1) with 1%Q. ring.
    + intros Hacc. apply IHtax. simpl. rewrite Hacc, Htax. ring.
    + intros Hacc. apply IHafter. simpl. rewrite Hacc, Hafter. ring.
Qed.

End Annual.

Section AnnualReturns.

Variable get_work_calendar : Z -> gmap Z Month.

Context {F : Type} {ops : FloatOps F} {laws : FloatLaws F}.

Variables (year : Z) (amount : F) (mode : salary_mode).

Let calendar := get_work_calendar year.

Lemma annual_months_returns months : forall annual_result,
  is_ok (annual_months get_work_calendar calendar year amount mode months annual_result)
    = true <->
  forall month, In month months ->
    exists m, calendar !! month = Some m /\ workingDays m <> 0 /\
              float_in_range (workingDays m) = true.
Proof.
  induction months as [| month rest IH]; intros acc.
  - simpl. split; [intros _ ? [] | reflexivity].
  - simpl annual_months. split.
    + intros H.
      destruct (calendar_working_days calendar month) as [full |] eqn:Hfull;
        [| discriminate].
      rewrite bind_Ok_l in H.
      pose proof (calculate_salary_cases get_work_calendar month year full
                    amount mode) as Hc.
      destruct (calculate_salary get_work_calendar month year full amount mode)
        as [mr |] eqn:Hmr; [| discriminate].
      rewrite bind_Ok_l in H. pose proof (proj1 (IH _) H) as Hrest.
      intros month' [<- | Hin]; [| auto].
      destruct Hc as (m & Hm & Hr & Hnz & _). eauto.
    + intros H. destruct (H month ltac:(left; reflexivity)) as (m & Hm & Hnz & Hr).
      assert (Hfull : calendar_working_days calendar month = Ok (workingDays m))
        by (apply calendar_working_days_Ok; eauto).
      rewrite Hfull, bind_Ok_l.
      assert (Hok : is_ok (calculate_salary get_work_calendar month year
                             (workingDays m) amount mode) = true)
        by (apply calculate_salary_returns_iff; eauto 10).
      destruct (calculate_salary get_work_calendar month year (workingDays m) amount mode)
        as [mr | e]; [| discriminate].
      rewrite bind_Ok_l. apply (proj2 (IH _)). intros month' Hin. apply H. right. exact Hin.
Qed.

End AnnualReturns.

(** X8: over exact arithmetic, that is with the operations carried out
    without rounding or overflow: when the annual loop of the page returns,
    the figure the mode prorates (before tax in gross mode, after tax in
    net mode) is twelve times the monthly amount, the tax is 13% of the
    annual amount before tax and the amount after tax is the amount before
    tax less the tax. *)
Theorem annual_salary_total
  (get_work_calendar : Z -> gmap Z Month)
  (year : Z) (amount : Q) (mode : salary_mode) (r : SalaryResult Q) :
  annual_salary get_work_calendar year amount mode = Ok r ->
  (prorated_figure mode r == 12 * amount)%Q /\
  (tax r == before_tax r * (13 # 100))%Q /\
  (after_tax r == before_tax r - tax r)%Q.
Proof.
  unfold annual_salary. intros H.
  apply annual_months_Ok in H as (Hp & Htax & Hafter).
  split; [| split].
  - rewrite Hp. destruct mode; simpl; ring.
  - apply Htax. reflexivity.
  - apply Hafter. reflexivity.
Qed.

Lemma annual_salary_total_witness :
  exists r,
    annual_salary Data.get_work_calendar 2025 (60000 : Q) OnHand = Ok r /\
    (after_tax r == 720000)%Q /\
    (tax r == before_tax r * (13 # 100))%Q.
Proof.
  eexists. split; [vm_compute; reflexivity |].
  destruct (annual_salary_total Data.get_work_calendar 2025 60000%Q OnHand _
              ltac:(vm_compute; reflexivity)) as (Hp & Htax & _).
  split; [exact Hp | exact Htax].
Defined.

(** X9: the annual loop of the page returns exactly when the calendar of
    the year has, for each of the months 1..12, an entry whose working-day
    count is not zero and converts to [float] (it is less than
    2 ** 1024 - 2 ** 970 in absolute value); otherwise it raises. *)
Theorem annual_salary_returns
  (get_work_calendar : Z -> gmap Z Month)
  (year : Z) (amount : spec_float) (mode : salary_mode) :
  is_ok (annual_salary get_work_calendar year amount mode) = true <->
  forall month, 1 <= month <= 12 ->
    exists m, get_work_calendar year !! month = Some m /\ workingDays m <> 0 /\
              Z.abs (workingDays m) < 2 ^ 1024 - 2 ^ 970.
Proof.
  unfold annual_salary. rewrite (@annual_months_returns get_work_calendar spec_float binary64 binary64_laws).
  assert (Hrange : forall i, float_in_range (F := spec_float) i = true <->
                             Z.abs i < 2 ^ 1024 - 2 ^ 970)
    by (intros i; simpl; unfold float_int_bound; apply Z.ltb_lt).
  split; intros H month Hm.
  - destruct (H month) as (m & Hl & Hnz & Hr);
      [apply list_elem_of_In, elem_of_seqZ; lia |].
    exists m. split; [exact Hl |]. split; [exact Hnz |]. apply Hrange. exact Hr.
  - apply list_elem_of_In, elem_of_seqZ in Hm.
    destruct (H month ltac:(lia)) as (m & Hl & Hnz & Hr).
    exists m. split; [exact Hl |]. split; [exact Hnz |]. apply Hrange. exact Hr.
Qed.


(** ** The backward search: order and distance *)

Section SearchFacts.
Import Date DateFacts OrdinalFacts.

Lemma ltb_total a b : ltb a b = true \/ a = b \/ ltb b a = true.
Proof.
  rewrite !ltb_spec. destruct a as [y m d], b as [y' m' d']; simpl.
  destruct (Z.eq_dec y y') as [-> | Hy]; [| lia].
  destruct (Z.eq_dec m m') as [-> | Hm]; [| lia].
  destruct (Z.eq_dec d d') as [-> | Hd]; [auto | lia].
Qed.

Lemma pred_rank d p : pred d = Ok p -> (rank p < rank d)%nat.
Proof.
  unfold pred, rank, MINYEAR. destruct d as [y m dd]; simpl.
  month_length_bound y (m - 1).
  split_ltb; intros [= <-]; simpl; lia.
Qed.

(* the ordinal follows the order of the dates *)
Lemma toordinal_ltb b : forall a,
  valid b = true -> valid a = true -> ltb a b = true -> toordinal a < toordinal b.
Proof.
  induction (well_founded_ltof _ rank b) as [b _ IH]. intros a Hvb Hva Hlt.
  destruct (pred b) as [p | e] eqn:Hp.
  - pose proof (toordinal_pred _ _ Hvb Hp) as Hop.
    assert (Hle : leb a p = true).
    { apply (leb_pred b p a); auto.
      - apply leb_spec. auto.
      - intros ->. rewrite ltb_irrefl in Hlt. discriminate. }
    apply leb_spec in Hle as [Hlt' | ->]; [| lia].
    pose proof (IH p (pred_rank _ _ Hp) a (pred_valid _ _ Hvb Hp) Hva Hlt'). lia.
  - destruct (pred_overflow _ _ Hvb Hp) as [-> _].
    rewrite (leb_min a Hva) in Hlt by (apply leb_spec; auto).
    rewrite ltb_irrefl in Hlt. discriminate.
Qed.

Lemma toordinal_leb a b :
  valid a = true -> valid b = true -> leb a b = true -> toordinal a <= toordinal b.
Proof.
  intros Hva Hvb Hle. apply leb_spec in Hle as [Hlt | ->]; [| lia].
  pose proof (toordinal_ltb b a Hvb Hva Hlt). lia.
Qed.

(** X10: every start between a returned day and the start it was found
    from gives the same day; in particular the search from the returned day
    returns that day itself. *)
Theorem get_previous_working_day_stable (start found d : date) (hs : HolidaysData) :
  valid start = true ->
  get_previous_working_day start hs = Ok found ->
  valid d = true -> leb found d = true -> leb d start = true ->
  get_previous_working_day d hs = Ok found /\
  get_previous_working_day found hs = Ok found.
Proof.
  intros Hv Hrun Hvd Hfd Hds.
  pose proof (get_previous_working_day_spec start hs Hv) as Hspec.
  rewrite Hrun in Hspec. destruct Hspec as (Hvf & Hfs & Hwf & Hmax).
  split.
  - pose proof (get_previous_working_day_spec d hs Hvd) as Hd.
    destruct (get_previous_working_day d hs) as [found' | e]; simpl in Hd.
    + destruct Hd as (Hvf' & Hfd' & Hwf' & Hmax').
      destruct (ltb_total found found') as [Hlt | [<- | Hlt]]; [| reflexivity |].
      * rewrite (Hmax found' Hvf' Hlt (leb_trans _ _ _ Hfd' Hds)) in Hwf'.
        discriminate.
      * rewrite (Hmax' found Hvf Hlt Hfd) in Hwf. discriminate.
    + destruct Hd as [_ Hnone]. rewrite (Hnone found Hvf Hfd) in Hwf. discriminate.
  - rewrite get_previous_working_day_step, Hwf. reflexivity.
Qed.

(** X11: the search is monotone in its start: when it returns from a
    start it returns from every later start, and a day on or after the one
    found from the earlier start. *)
Theorem get_previous_working_day_monotone (d1 d2 f1 : date) (hs : HolidaysData) :
  valid d1 = true -> valid d2 = true -> leb d1 d2 = true ->
  get_previous_working_day d1 hs = Ok f1 ->
  exists f2, get_previous_working_day d2 hs = Ok f2 /\ leb f1 f2 = true.
Proof.
  intros Hv1 Hv2 Hle Hrun.
  pose proof (get_previous_working_day_spec d1 hs Hv1) as H1.
  rewrite Hrun in H1. destruct H1 as (Hvf1 & Hf1 & Hw1 & _).
  pose proof (leb_trans _ _ _ Hf1 Hle) as Hf1d2.
  pose proof (get_previous_working_day_spec d2 hs Hv2) as H2.
  destruct (get_previous_working_day d2 hs) as [f2 | e]; simpl in H2.
  - exists f2. split; [reflexivity |].
    destruct H2 as (Hvf2 & Hf2 & Hw2 & Hmax).
    destruct (ltb_total f1 f2) as [Hlt | [<- | Hlt]].
    + apply leb_spec. auto.
    + apply leb_refl.
    + rewrite (Hmax f1 Hvf1 Hlt Hf1d2) in Hw1. discriminate.
  - destruct H2 as [_ Hnone]. rewrite (Hnone f1 Hvf1 Hf1d2) in Hw1. discriminate.
Qed.

(** X12: a payment date is moved back by fewer than 7 * (number of listed
    holidays + 1) days: the returned day is at most that many days, less
    one, before the start. *)
Theorem get_previous_working_day_distance (start found : date) (hs : HolidaysData) :
  valid start = true ->
  get_previous_working_day start hs = Ok found ->
  0 <= toordinal start - toordinal found < 7 * (Z.of_nat (length (holidays hs)) + 1).
Proof.
  intros Hv Hrun.
  pose proof (get_previous_working_day_spec start hs Hv) as Hspec.
  rewrite Hrun in Hspec. destruct Hspec as (Hvf & Hfs & Hwf & Hmax).
  pose proof (toordinal_leb _ _ Hvf Hv Hfs) as Hord.
  split; [lia |].
  destruct (Z.lt_ge_cases (toordinal start) (7 * (Z.of_nat (length (holidays hs)) + 1)))
    as [Hlt | Hge].
  { pose proof (toordinal_positive _ Hvf). lia. }
  destruct (Z.lt_ge_cases (toordinal start - toordinal found)
              (7 * (Z.of_nat (length (holidays hs)) + 1))) as [Hnear | Hfar];
    [exact Hnear | exfalso].
  destruct (mondays_before start (S (length (holidays hs))) Hv ltac:(lia))
    as (l & Hlen & Hnd & Hl).
  assert (Hsub : forall x, x ∈ l -> x ∈ map holiday_date (holidays hs)).
  { intros x Hx. destruct (Hl x Hx) as (Hvx & Hle & Hmon & Hlow).
    assert (Hlt : ltb found x = true).
    { destruct (ltb_total found x) as [Hlt | [<- | Hlt]]; [exact Hlt | lia |].
      pose proof (toordinal_ltb _ _ Hvf Hvx Hlt). lia. }
    pose proof (Hmax x Hvx Hlt Hle) as Hw. unfold is_working, is_weekend in Hw.
    rewrite Hmon in Hw. simpl in Hw. rewrite andb_true_r in Hw.
    apply negb_false_iff in Hw. apply is_holiday_elem. exact Hw. }
  pose proof (submseteq_length _ _ (NoDup_submseteq _ _ Hnd Hsub)) as Hle.
  rewrite length_map in Hle. lia.
Qed.

End SearchFacts.

Lemma get_previous_working_day_stable_witness :
  get_previous_working_day (Date.Date 2025 1 12) Data.holidays_2025
    = Ok (Date.Date 2025 1 10) /\
  get_previous_working_day (Date.Date 2025 1 11) Data.holidays_2025
    = Ok (Date.Date 2025 1 10).
Proof.
  split; [vm_compute; reflexivity |].
  apply (get_previous_working_day_stable (Date.Date 2025 1 12) (Date.Date 2025 1 10)
           (Date.Date 2025 1 11) Data.holidays_2025); vm_compute; reflexivity.
Defined.

Lemma get_previous_working_day_monotone_witness :
  exists f2,
    get_previous_working_day (Date.Date 2025 1 25) Data.holidays_2025 = Ok f2 /\
    Date.leb (Date.Date 2025 1 10) f2 = true.
Proof.
  apply (get_previous_working_day_monotone (Date.Date 2025 1 12) (Date.Date 2025 1 25)
           (Date.Date 2025 1 10) Data.holidays_2025); vm_compute; reflexivity.
Defined.

Lemma get_previous_working_day_distance_witness :
  0 <= Date.toordinal (Date.Date 2025 1 12) - Date.toordinal (Date.Date 2025 1 10)
    < 7 * (Z.of_nat (length (holidays Data.holidays_2025)) + 1).
Proof.
  apply (get_previous_working_day_distance (Date.Date 2025 1 12) (Date.Date 2025 1 10)
           Data.holidays_2025); vm_compute; reflexivity.
Defined.


(** ** The schedule: moved dates and working days *)

(* the flag of a payment found from a nominal date *)
Lemma moved_flag nominal found hs (flag : bool) :
  Date.valid nominal = true ->
  get_previous_working_day nominal hs = Ok found ->
  flag = negb (Date.eqb found nominal) ->
  Date.leb found nominal = true /\
  (flag = true <-> found <> nominal) /\
  (flag = false <-> is_working nominal hs = true).
Proof.
  intros Hv Hrun ->.
  pose proof (get_previous_working_day_spec nominal hs Hv) as Hspec.
  rewrite Hrun in Hspec. destruct Hspec as (_ & Hle & Hw & _).
  split; [exact Hle |]. rewrite negb_true_iff, negb_false_iff. split.
  - rewrite <- DateFacts.eqb_eq. destruct (Date.eqb found nominal); split; congruence.
  - rewrite DateFacts.eqb_eq. split.
    + intros <-. exact Hw.
    + intros Hwn. rewrite get_previous_working_day_step, Hwn in Hrun.
      injection Hrun as <-. reflexivity.
Qed.

(** X13: in every returned schedule each of the two payments of a month is
    found by the backward search from its nominal date (the advance day, the
    advance day less 15 in the next month, both cut to the month's length),
    lies on or before it, and its [date_was_moved] flag is true exactly when
    its date differs from the nominal date, and false exactly when the
    nominal date is a working day. *)
Theorem date_was_moved_iff {F : Type} {ops : FloatOps F}
  (get_work_calendar : Z -> gmap Z Month)
  (get_holidays_and_short_days : Z -> HolidaysData)
  (year advance_day : Z) (mode : salary_mode) (amount : F)
  (working_days : option (list (Z * Z)))
  (sched : list (PaydayScheduleItem F)) (month : Z) :
  get_payday_schedule get_work_calendar get_holidays_and_short_days
    year advance_day mode amount working_days = Ok sched ->
  1 <= month <= 12 ->
  exists a s,
    advance_item sched month = Some a /\ salary_item sched month = Some s /\
    let holidays_data := get_holidays_and_short_days year in
    let found_from item nominal :=
      get_previous_working_day nominal holidays_data = Ok (item_date item) /\
      Date.leb (item_date item) nominal = true /\
      (date_was_moved item = true <-> item_date item <> nominal) /\
      (date_was_moved item = false <-> is_working nominal holidays_data = true) in
    found_from a (nominal_advance_date year advance_day month) /\
    found_from s (nominal_salary_date year advance_day month).
Proof.
  intros Hrun Hmonth.
  destruct (get_payday_schedule_months _ _ _ _ _ _ _ _ Hrun) as [_ Hitems].
  destruct (Hitems month Hmonth) as (a & s & Hm & Ha & Hs).
  exists a, s. split; [exact Ha |]. split; [exact Hs |].
  apply payday_month_inv in Hm
    as (_ & Hva & Hvs & Hfa & Hma & Hfs & Hms & _).
  cbv zeta. split.
  - split; [exact Hfa |]. exact (moved_flag _ _ _ _ Hva Hfa Hma).
  - split; [exact Hfs |]. exact (moved_flag _ _ _ _ Hvs Hfs Hms).
Qed.

Lemma date_was_moved_iff_witness :
  exists a s,
    advance_item Data.schedule_2025 1 = Some a /\
    salary_item Data.schedule_2025 1 = Some s /\
    (date_was_moved a = true <-> item_date a <> Date.Date 2025 1 25) /\
    (date_was_moved s = false <->
     is_working (Date.Date 2025 2 10) (Data.get_holidays_and_short_days 2025) = true).
Proof.
  destruct (date_was_moved_iff (ops := binary64) Data.get_work_calendar Data.get_holidays_and_short_days
              2025 25 BeforeTax (Data.rubles 60000) None Data.schedule_2025 1
              ltac:(vm_compute; reflexivity) ltac:(lia))
    as (a & s & Ha & Hs & (_ & _ & Hma & _) & (_ & _ & _ & Hms)).
  exists a, s. split; [exact Ha |]. split; [exact Hs |].
  split; [exact Hma | exact Hms].
Defined.

(** X14: in every returned schedule the [max_working_days] of the advance
    of a month is the number of days among the 1st..15th of that month that
    are neither Saturday/Sunday nor listed holidays, hence between 0 and 15,
    whatever the advance day, the mode, the amount and the caller's list;
    the [max_working_days] of the salary is the calendar's working-day count
    of the month less that number. *)
Theorem max_working_days_first_half {F : Type} {ops : FloatOps F}
  (get_work_calendar : Z -> gmap Z Month)
  (get_holidays_and_short_days : Z -> HolidaysData)
  (year advance_day : Z) (mode : salary_mode) (amount : F)
  (working_days : option (list (Z * Z)))
  (sched : list (PaydayScheduleItem F)) (month : Z) :
  get_payday_schedule get_work_calendar get_holidays_and_short_days
    year advance_day mode amount working_days = Ok sched ->
  1 <= month <= 12 ->
  exists a s m,
    advance_item sched month = Some a /\ salary_item sched month = Some s /\
    get_work_calendar year !! month = Some m /\
    max_working_days a
      = Z.of_nat (length (first_half_working_days year month
                            (get_holidays_and_short_days year))) /\
    0 <= max_working_days a <= 15 /\
    max_working_days s = workingDays m - max_working_days a.
Proof.
  intros Hrun Hmonth.
  destruct (get_payday_schedule_months _ _ _ _ _ _ _ _ Hrun) as [_ Hitems].
  destruct (Hitems month Hmonth) as (a & s & Hm & Ha & Hs).
  apply payday_month_inv in Hm
    as (_ & _ & _ & _ & _ & _ & _ & Hmax & _ & _ & days & Hd & Hmaxs & _).
  apply calendar_working_days_Ok in Hd as (m & Hcal & <-).
  exists a, s, m. split; [exact Ha |]. split; [exact Hs |]. split; [exact Hcal |].
  split; [exact Hmax |]. split; [| exact Hmaxs].
  rewrite Hmax. apply first_half_working_days_bounds.
Qed.

Lemma max_working_days_first_half_witness :
  exists a s,
    advance_item Data.schedule_2025 1 = Some a /\
    salary_item Data.schedule_2025 1 = Some s /\
    first_half_working_days 2025 1 (Data.get_holidays_and_short_days 2025)
      = [9; 10; 13; 14; 15] /\
    max_working_days a = 5 /\ max_working_days s = 17 - 5.
Proof.
  destruct (max_working_days_first_half (ops := binary64)
              Data.get_work_calendar Data.get_holidays_and_short_days
              2025 25 BeforeTax (Data.rubles 60000) None Data.schedule_2025 1
              ltac:(vm_compute; reflexivity) ltac:(lia))
    as (a & s & m & Ha & Hs & Hm & Hmax & _ & Hmaxs).
  exists a, s. split; [exact Ha |]. split; [exact Hs |].
  split; [vm_compute; reflexivity |].
  vm_compute in Hm. injection Hm as <-.
  split; [exact Hmax |]. rewrite Hmaxs, Hmax. reflexivity.
Defined.

(** X15: without a caller's list each payment is made for all the working
    days of its period: [working_days] equals [max_working_days] in both
    items, and the two counts add up to the calendar's working-day count of
    the month.  Over exact arithmetic, that is with the amounts computed
    without rounding or overflow, the two prorated figures (before tax in
    gross mode, after tax in net mode) add up to the monthly amount. *)
Theorem default_working_days
  (get_work_calendar : Z -> gmap Z Month)
  (get_holidays_and_short_days : Z -> HolidaysData)
  (year advance_day : Z) (mode : salary_mode) (month : Z) :
  1 <= month <= 12 ->
  (forall (amount : spec_float) (sched : list (PaydayScheduleItem spec_float)),
      get_payday_schedule get_work_calendar get_holidays_and_short_days
        year advance_day mode amount None = Ok sched ->
      exists a s m,
        advance_item sched month = Some a /\ salary_item sched month = Some s /\
        get_work_calendar year !! month = Some m /\
        working_days a = max_working_days a /\
        working_days s = max_working_days s /\
        working_days a + working_days s = workingDays m) /\
  (forall (amount : Q) (sched : list (PaydayScheduleItem Q)),
      get_payday_schedule get_work_calendar get_holidays_and_short_days
        year advance_day mode amount None = Ok sched ->
      exists a s,
        advance_item sched month = Some a /\ salary_item sched month = Some s /\
        (prorated_figure mode (item_salary a) + prorated_figure mode (item_salary s)
         == amount)%Q).
Proof.
  intros Hmonth.
  assert (Hcounts : forall (F : Type) (ops : FloatOps F) (amount : F)
                           (sched : list (PaydayScheduleItem F)),
             get_payday_schedule get_work_calendar get_holidays_and_short_days
               year advance_day mode amount None = Ok sched ->
             exists a s m days,
               advance_item sched month = Some a /\ salary_item sched month = Some s /\
               get_work_calendar year !! month = Some m /\
               working_days a = max_working_days a /\
               working_days s = max_working_days s /\
               working_days a + working_days s = workingDays m /\
               days = workingDays m /\
               calculate_salary get_work_calendar month year (working_days a)
                 amount mode = Ok (item_salary a) /\
               calculate_salary get_work_calendar month year (working_days s)
                 amount mode = Ok (item_salary s)).
  { intros F ops amount sched Hrun.
    destruct (get_payday_schedule_months _ _ _ _ _ _ _ _ Hrun) as [_ Hitems].
    destruct (Hitems month Hmonth) as (a & s & Hm & Ha & Hs).
    apply payday_month_inv in Hm
      as (_ & _ & _ & _ & _ & _ & _ & _ & _ & _ & days & Hd & Hmaxs & Hp & Hca & Hcs).
    simpl in Hp. injection Hp as Hwa Hws.
    apply calendar_working_days_Ok in Hd as (m & Hcal & Hdays).
    exists a, s, m, days. split; [exact Ha |]. split; [exact Hs |].
    split; [exact Hcal |]. split; [auto |]. split; [auto |]. split; [lia |].
    auto. }
  split.
  - intros amount sched Hrun.
    destruct (Hcounts _ _ amount sched Hrun)
      as (a & s & m & days & Ha & Hs & Hcal & Hwa & Hws & Hsum & _).
    exists a, s, m. auto 10.
  - intros amount sched Hrun.
    destruct (Hcounts _ _ amount sched Hrun)
      as (a & s & m & days & Ha & Hs & Hcal & Hwa & Hws & Hsum & Hdays & Hca & Hcs).
    exists a, s. split; [exact Ha |]. split; [exact Hs |].
    apply calculate_salary_exact_Ok in Hca as (wd & Hwd & Hnz & Hra).
    apply calculate_salary_exact_Ok in Hcs as (wd' & Hwd' & _ & Hrs).
    apply calendar_working_days_Ok in Hwd as (m1 & Hcal1 & <-).
    apply calendar_working_days_Ok in Hwd' as (m2 & Hcal2 & <-).
    rewrite Hcal in Hcal1, Hcal2. injection Hcal1 as <-. injection Hcal2 as <-.
    assert (Hfa : prorated_figure mode (item_salary a)
                  = exact_period_amount amount (workingDays m) (working_days a))
      by (rewrite Hra; destruct mode; reflexivity).
    assert (Hfs : prorated_figure mode (item_salary s)
                  = exact_period_amount amount (workingDays m) (working_days s))
      by (rewrite Hrs; destruct mode; reflexivity).
    rewrite Hfa, Hfs, <- exact_period_amount_plus.
    rewrite Hsum. apply exact_period_amount_full. exact Hnz.
Qed.

Lemma default_working_days_witness :
  (exists a s,
      advance_item Data.schedule_2025 1 = Some a /\
      salary_item Data.schedule_2025 1 = Some s /\
      working_days a = 5 /\ working_days s = 12 /\
      working_days a + working_days s = 17) /\
  (exists sched a s,
      get_payday_schedule Data.get_work_calendar Data.get_holidays_and_short_days
        2025 25 BeforeTax (60000 : Q) None = Ok sched /\
      advance_item sched 1 = Some a /\ salary_item sched 1 = Some s /\
      (before_tax (item_salary a) + before_tax (item_salary s) == 60000)%Q).
Proof.
  destruct (default_working_days
              Data.get_work_calendar Data.get_holidays_and_short_days
              2025 25 BeforeTax 1 ltac:(lia)) as [Hfloat Hexact].
  split.
  - destruct (Hfloat (Data.rubles 60000) Data.schedule_2025
                ltac:(vm_compute; reflexivity))
      as (a & s & m & Ha & Hs & Hm & _ & _ & Hsum).
    exists a, s. split; [exact Ha |]. split; [exact Hs |].
    vm_compute in Hm. injection Hm as <-.
    vm_compute in Ha. injection Ha as <-.
    vm_compute in Hs. injection Hs as <-.
    repeat split; reflexivity.
  - eexists.
    assert (Hrun : get_payday_schedule Data.get_work_calendar
                     Data.get_holidays_and_short_days 2025 25 BeforeTax
                     (60000 : Q) None = Ok ?[sched]) by (vm_compute; reflexivity).
    destruct (Hexact 60000%Q _ Hrun) as (a & s & Ha & Hs & Hsum).
    exists a, s. split; [exact Hrun |].
    split; [exact Ha |]. split; [exact Hs | exact Hsum].
Defined.


(** ** The second call of the page: the working days fed back *)

Section ScheduleCalls.

Variable get_work_calendar : Z -> gmap Z Month.
Variable get_holidays_and_short_days : Z -> HolidaysData.

Context {F : Type} {ops : FloatOps F}.

Variables (year advance_day : Z) (mode : salary_mode) (amount : F).

Let calendar := get_work_calendar year.
Let holidays_data := get_holidays_and_short_days year.
Let month_of wds := payday_month get_work_calendar year advance_day mode amount
                      wds calendar holidays_data.
Let months_of wds := schedule_months get_work_calendar year advance_day mode amount
                       wds calendar holidays_data.

(* a list that holds the default working days of a month changes nothing *)
Lemma payday_month_same wd m a s :
  month_of None m = Ok (a, s) ->
  wd !! Z.to_nat (m - 1) = Some (working_days a, working_days s) ->
  month_of (Some wd) m = Ok (a, s).
Proof.
  unfold month_of, payday_month. intros H Hl.
  apply bind_Ok in H as (ldm & E1 & H). rewrite E1, bind_Ok_l.
  apply bind_Ok in H as (oad & E2 & H). rewrite E2, bind_Ok_l.
  apply bind_Ok in H as (ad & E3 & H). rewrite E3, bind_Ok_l.
  destruct (12 <? m + 1).
  all: apply bind_Ok in H as (ldsm & E4 & H); rewrite E4, bind_Ok_l.
  all: apply bind_Ok in H as (osd & E5 & H); rewrite E5, bind_Ok_l.
  all: apply bind_Ok in H as (sd & E6 & H); rewrite E6, bind_Ok_l.
  all: apply bind_Ok in H as (fd & E7 & H); rewrite E7, bind_Ok_l.
  all: apply bind_Ok in H as (ld & E8 & H); rewrite E8, bind_Ok_l.
  all: apply bind_Ok in H as (maxadv & E9 & H); rewrite E9, bind_Ok_l.
  all: apply bind_Ok in H as (days & E10 & H); rewrite E10, bind_Ok_l.
  all: apply bind_Ok in H as ([awd swd] & Hp & H).
  all: simpl in Hp; injection Hp as <- <-.
  all: apply bind_Ok in H as (asal & Ea & H).
  all: apply bind_Ok in H as (ssal & Es & H).
  all: injection H as <- <-; simpl in Hl.
  all: unfold period_working_days; rewrite Hl, bind_Ok_l, E10, bind_Ok_l.
  all: destruct (Z.ltb_spec days (maxadv + (days - maxadv))); [lia |].
  all: rewrite bind_Ok_l, Ea, bind_Ok_l, Es, bind_Ok_l; reflexivity.
Qed.

(* the loop returns the items of its months, in order *)
Lemma schedule_months_build wds months pairs :
  Forall2 (fun month p => month_of wds month = Ok p) months pairs ->
  forall acc, months_of wds months acc = Ok (acc ++ month_pairs pairs).
Proof.
  unfold months_of, month_of.
  induction 1 as [| month [a s] months pairs Hm _ IH]; intros acc; simpl.
  - rewrite app_nil_r. reflexivity.
  - rewrite Hm, bind_Ok_l, IH, <- app_assoc. reflexivity.
Qed.

Lemma schedule_rows_month_pairs
  (pairs : list (PaydayScheduleItem F * PaydayScheduleItem F)) :
  schedule_rows (month_pairs pairs) = pairs.
Proof.
  induction pairs as [| [a s] pairs IH]; simpl; [reflexivity |].
  rewrite IH. reflexivity.
Qed.

(* the months of a returned schedule *)
Lemma get_payday_schedule_pairs wds sched :
  get_payday_schedule get_work_calendar get_holidays_and_short_days
    year advance_day mode amount wds = Ok sched ->
  match wds with Some wd => length wd = 12%nat | None => True end /\
  exists pairs,
    Forall2 (fun month p => month_of wds month = Ok p) (seqZ 1 12) pairs /\
    sched = month_pairs pairs.
Proof.
  intros H.
  assert (Hlen : match wds with Some wd => length wd = 12%nat | None => True end).
  { destruct wds as [wd |]; [| exact I].
    unfold get_payday_schedule in H.
    destruct (Z.eqb_spec (Z.of_nat (length wd)) 12); [lia | discriminate]. }
  split; [exact Hlen |].
  rewrite schedule_of_months in H by exact Hlen.
  apply schedule_months_Ok in H as (pairs & Hall & ->). eauto.
Qed.

(* a month that returns without a list returns with a list whose pair
   passes the check and converts to [float] *)
Lemma payday_month_with_list {laws : FloatLaws F} wd m a0 s0 a s days :
  month_of None m = Ok (a0, s0) ->
  wd !! Z.to_nat (m - 1) = Some (a, s) ->
  calendar_working_days calendar m = Ok days -> a + s <= days ->
  float_in_range a = true -> float_in_range s = true ->
  exists a' s', month_of (Some wd) m = Ok (a', s').
Proof.
  unfold month_of, calendar, holidays_data. intros H0 Hl Hd Hle Ha Hs.
  apply payday_month_inv in H0
    as (_ & Hva & Hvs & Hfa & _ & Hfs & _ & _ & _ & _ & days' & Hd' & _ & _ & Hca & _).
  rewrite Hd in Hd'. injection Hd' as <-.
  pose proof (calculate_salary_cases get_work_calendar m year (working_days a0)
                amount mode) as Hc.
  rewrite Hca in Hc. destruct Hc as (mo & Hmo & Hr & Hnz & _).
  rewrite (payday_month_eq _ _ _ _ _ _ _ _ Hva Hvs).
  rewrite Hfa, bind_Ok_l, Hfs, bind_Ok_l. cbv zeta. rewrite Hd, bind_Ok_l.
  unfold period_working_days. rewrite Hl, bind_Ok_l, Hd, bind_Ok_l.
  destruct (Z.ltb_spec days (a + s)); [lia |]. rewrite bind_Ok_l.
  assert (Hoka : is_ok (calculate_salary get_work_calendar m year a amount mode)
                 = true) by (apply calculate_salary_returns_iff; eauto 10).
  assert (Hoks : is_ok (calculate_salary get_work_calendar m year s amount mode)
                 = true) by (apply calculate_salary_returns_iff; eauto 10).
  destruct (calculate_salary get_work_calendar m year a amount mode);
    [| discriminate].
  destruct (calculate_salary get_work_calendar m year s amount mode);
    [| discriminate].
  rewrite !bind_Ok_l. eauto.
Qed.

End ScheduleCalls.

(** X16: feeding the working days of a default schedule back, as the page
    does when every input keeps its initial value, returns the very same
    schedule. *)
Theorem working_days_fed_back {F : Type} {ops : FloatOps F}
  (get_work_calendar : Z -> gmap Z Month)
  (get_holidays_and_short_days : Z -> HolidaysData)
  (year advance_day : Z) (mode : salary_mode) (amount : F)
  (sched : list (PaydayScheduleItem F)) :
  get_payday_schedule get_work_calendar get_holidays_and_short_days
    year advance_day mode amount None = Ok sched ->
  get_payday_schedule get_work_calendar get_holidays_and_short_days
    year advance_day mode amount (Some (initial_working_days sched)) = Ok sched.
Proof.
  intros H.
  apply get_payday_schedule_pairs in H as (_ & pairs & Hall & ->).
  pose proof (Forall2_length _ _ _ Hall) as Hlen. rewrite length_seqZ in Hlen.
  unfold initial_working_days. rewrite schedule_rows_month_pairs.
  set (wd := map _ pairs).
  rewrite schedule_of_months by (unfold wd; rewrite length_map; lia).
  apply (schedule_months_build _ _ _ _ _ _ (Some wd) _ pairs).
  apply Forall2_same_length_lookup. split; [rewrite length_seqZ; lia |].
  intros i month [a s] Hi Hp.
  pose proof (Forall2_lookup_lr _ _ _ _ _ _ Hall Hi Hp) as Hm. simpl in Hm.
  apply lookup_seqZ in Hi as [-> Hi].
  apply payday_month_same; [exact Hm |].
  replace (Z.to_nat (1 + Z.of_nat i - 1)) with i by lia.
  unfold wd. rewrite list_lookup_fmap, Hp. reflexivity.
Qed.

Lemma working_days_fed_back_witness :
  get_payday_schedule Data.get_work_calendar Data.get_holidays_and_short_days
    2025 25 BeforeTax (Data.rubles 60000) (Some (initial_working_days Data.schedule_2025))
  = Ok Data.schedule_2025.
Proof.
  apply (working_days_fed_back (ops := binary64) Data.get_work_calendar Data.get_holidays_and_short_days
           2025 25 BeforeTax (Data.rubles 60000) Data.schedule_2025).
  vm_compute. reflexivity.
Defined.

(** X17: a list that keeps every pair within the bounds of the page's
    inputs (the advance count from 0 to the [max_working_days] of the
    advance item, the salary count from 0 to that of the salary item of the
    default schedule) passes both checks and converts to [float]: the
    second call returns a schedule. *)
Theorem bounded_inputs_accepted
  (get_work_calendar : Z -> gmap Z Month)
  (get_holidays_and_short_days : Z -> HolidaysData)
  (year advance_day : Z) (mode : salary_mode) (amount : spec_float)
  (sched : list (PaydayScheduleItem spec_float)) (working_days_list : list (Z * Z)) :
  get_payday_schedule get_work_calendar get_holidays_and_short_days
    year advance_day mode amount None = Ok sched ->
  Forall2 (fun row p => 0 <= fst p <= max_working_days (fst row) /\
                        0 <= snd p <= max_working_days (snd row))
          (schedule_rows sched) working_days_list ->
  exists sched',
    get_payday_schedule get_work_calendar get_holidays_and_short_days
      year advance_day mode amount (Some working_days_list) = Ok sched' /\
    length sched' = 24%nat.
Proof.
  intros H Hbounds.
  apply get_payday_schedule_pairs in H as (_ & pairs & Hall & ->).
  rewrite schedule_rows_month_pairs in Hbounds.
  pose proof (Forall2_length _ _ _ Hall) as Hlen. rewrite length_seqZ in Hlen.
  pose proof (Forall2_length _ _ _ Hbounds) as Hlen'.
  assert (Hrun : exists sched',
             get_payday_schedule get_work_calendar get_holidays_and_short_days
               year advance_day mode amount (Some working_days_list) = Ok sched').
  { rewrite schedule_of_months by lia.
    apply schedule_months_all_Ok. intros m Hin.
    apply list_elem_of_In, list_elem_of_lookup in Hin as [i Hi].
    destruct (Forall2_lookup_l _ _ _ _ _ Hall Hi) as ([a0 s0] & Hp & Hm).
    destruct (Forall2_lookup_l _ _ _ _ _ Hbounds Hp) as ([a s] & Hw & Ha & Hs).
    simpl in Ha, Hs, Hm.
    apply lookup_seqZ in Hi as [-> Hi].
    pose proof Hm as Hinv.
    apply payday_month_inv in Hinv
      as (_ & _ & _ & _ & _ & _ & _ & Hmaxa & _ & _ & days & Hd & Hmaxs & Hp0 & _ & Hcs).
    simpl in Hp0. injection Hp0 as Hwa Hws.
    pose proof (first_half_working_days_bounds year (1 + Z.of_nat i)
                  (get_holidays_and_short_days year)) as Hb.
    pose proof (calculate_salary_cases get_work_calendar (1 + Z.of_nat i) year
                  (working_days s0) amount mode) as Hc.
    rewrite Hcs in Hc. destruct Hc as (mo & _ & _ & _ & Hrs).
    destruct (payday_month_with_list get_work_calendar get_holidays_and_short_days
                year advance_day mode amount working_days_list
                (1 + Z.of_nat i) a0 s0 a s days Hm) as (a' & s' & Hsw).
    - replace (Z.to_nat (1 + Z.of_nat i - 1)) with i by lia. exact Hw.
    - exact Hd.
    - lia.
    - apply float_in_range_small. lia.
    - apply (float_in_range_between 0 (working_days s0));
        [reflexivity | exact Hrs | lia].
    - exists (a', s'). exact Hsw. }
  destruct Hrun as [sched' Hrun]. exists sched'. split; [exact Hrun |].
  exact (proj1 (get_payday_schedule_months _ _ _ _ _ _ _ _ Hrun)).
Qed.

Lemma bounded_inputs_accepted_witness :
  (exists sched',
      get_payday_schedule Data.get_work_calendar Data.get_holidays_and_short_days
        2025 25 BeforeTax (Data.rubles 60000) (Some (repeat (0, 0) 12)) = Ok sched' /\
      length sched' = 24%nat) /\
  get_payday_schedule Data.get_work_calendar Data.get_holidays_and_short_days
    2025 25 BeforeTax (Data.rubles 60000) (Some ((- 10 ^ 400, 0) :: repeat (0, 0) 11))
  = Raise FloatOverflowError.
Proof.
  split; [| vm_compute; reflexivity].
  apply (bounded_inputs_accepted Data.get_work_calendar Data.get_holidays_and_short_days
           2025 25 BeforeTax (Data.rubles 60000) Data.schedule_2025).
  - vm_compute. reflexivity.
  - vm_compute. repeat constructor; simpl; discriminate.
Defined.

(** X18: the schedule returned for a caller's list carries exactly that
    list as the working days of its items; and when the call without a
    list returns as well, the two schedules agree, item by item, on the
    date, the kind, the [max_working_days] and the [date_was_moved] flag:
    the list changes only the working days and the amounts. *)
Theorem overrides_carried {F : Type} {ops : FloatOps F}
  (get_work_calendar : Z -> gmap Z Month)
  (get_holidays_and_short_days : Z -> HolidaysData)
  (year advance_day : Z) (mode : salary_mode) (amount : F)
  (working_days_list : list (Z * Z)) (sched : list (PaydayScheduleItem F)) :
  get_payday_schedule get_work_calendar get_holidays_and_short_days
    year advance_day mode amount (Some working_days_list) = Ok sched ->
  initial_working_days sched = working_days_list /\
  forall sched0,
    get_payday_schedule get_work_calendar get_holidays_and_short_days
      year advance_day mode amount None = Ok sched0 ->
    Forall2 (fun item item0 =>
               item_date item = item_date item0 /\ it_is item = it_is item0 /\
               max_working_days item = max_working_days item0 /\
               date_was_moved item = date_was_moved item0)
            sched sched0.
Proof.
  intros H.
  apply get_payday_schedule_pairs in H as (Hlen & pairs & Hall & ->).
  pose proof (Forall2_length _ _ _ Hall) as Hlenp. rewrite length_seqZ in Hlenp.
  split.
  - unfold initial_working_days. rewrite schedule_rows_month_pairs.
    apply list_eq_same_length with 12%nat; [rewrite ?length_map; lia .. |].
    intros i p q Hi Hp Hq.
    rewrite list_lookup_fmap in Hp.
    destruct (pairs !! i) as [[a s] |] eqn:Hpi; [| discriminate].
    injection Hp as <-. simpl.
    assert (Hmi : seqZ 1 12 !! i = Some (1 + Z.of_nat i))
      by (apply lookup_seqZ; lia).
    pose proof (Forall2_lookup_lr _ _ _ _ _ _ Hall Hmi Hpi) as Hm. simpl in Hm.
    apply payday_month_Some_Ok in Hm as [Hw _].
    replace (Z.to_nat (1 + Z.of_nat i - 1)) with i in Hw by lia.
    congruence.
  - intros sched0 H0.
    apply get_payday_schedule_pairs in H0 as (_ & pairs0 & Hall0 & ->).
    clear Hlenp Hlen. revert pairs0 Hall0.
    induction Hall as [| month [a s] months pairs Hm _ IH]; intros pairs0 Hall0.
    + inversion Hall0. constructor.
    + inversion Hall0 as [| ? [a0 s0] ? pairs0' Hm0 Hrest]; subst.
      destruct (payday_month_frame _ _ _ _ _ _ _ _ _ _ _ _ _ _ _ Hm Hm0)
        as [Hfa Hfs].
      simpl. constructor; [exact Hfa |]. constructor; [exact Hfs |].
      apply IH. exact Hrest.
Qed.

Lemma overrides_carried_witness :
  initial_working_days Data.schedule_negative = Data.overrides_negative /\
  map item_date Data.schedule_negative = map item_date Data.schedule_2025.
Proof.
  destruct (overrides_carried (ops := binary64)
              Data.get_work_calendar Data.get_holidays_and_short_days
              2025 25 BeforeTax (Data.rubles 60000) Data.overrides_negative
              Data.schedule_negative
              ltac:(vm_compute; reflexivity)) as (Hcarried & Hagree).
  split; [exact Hcarried |].
  specialize (Hagree Data.schedule_2025 ltac:(vm_compute; reflexivity)).
  clear Hcarried. vm_compute. reflexivity.
Defined.


(** ** The schedule: order of the dates *)

Section ScheduleOrder.
Import Date DateFacts.

Lemma search_order d1 d2 f1 f2 hs :
  valid d1 = true -> valid d2 = true -> leb d1 d2 = true ->
  get_previous_working_day d1 hs = Ok f1 ->
  get_previous_working_day d2 hs = Ok f2 ->
  leb f1 f2 = true.
Proof.
  intros Hv1 Hv2 Hle H1 H2.
  pose proof (get_previous_working_day_spec d1 hs Hv1) as S1.
  pose proof (get_previous_working_day_spec d2 hs Hv2) as S2.
  rewrite H1 in S1. rewrite H2 in S2.
  destruct S1 as (Hvf1 & Hf1 & Hw1 & _). destruct S2 as (_ & _ & _ & Hmax).
  destruct (ltb_total f1 f2) as [Hlt | [<- | Hlt]].
  - apply leb_spec. auto.
  - apply leb_refl.
  - rewrite (Hmax f1 Hvf1 Hlt (leb_trans _ _ _ Hf1 Hle)) in Hw1. discriminate.
Qed.

Lemma nominal_advance_before_salary year advance_day month :
  leb (nominal_advance_date year advance_day month)
      (nominal_salary_date year advance_day month) = true.
Proof.
  unfold nominal_advance_date, nominal_salary_date, salary_month_of.
  apply leb_spec. left. apply ltb_spec.
  destruct (12 <? month + 1); simpl; lia.
Qed.

Lemma nominal_salary_before_advance year advance_day month :
  1 <= advance_day -> month < 12 ->
  leb (nominal_salary_date year advance_day month)
      (nominal_advance_date year advance_day (month + 1)) = true.
Proof.
  intros Had Hm.
  unfold nominal_advance_date, nominal_salary_date, salary_month_of, nominal_salary_day.
  destruct (Z.ltb_spec 12 (month + 1)); [lia |].
  rewrite leb_same_month. apply Z.leb_le. lia.
Qed.

Lemma nominal_advance_day_positive year advance_day month :
  valid (nominal_advance_date year advance_day month) = true -> 1 <= advance_day.
Proof.
  intros Hv. apply valid_spec in Hv. unfold nominal_advance_date in Hv.
  simpl in Hv. lia.
Qed.

End ScheduleOrder.

(** X19: the items of every returned schedule are in chronological order:
    an item never carries an earlier date than an item before it in the
    list. *)
Theorem schedule_dates_in_order {F : Type} {ops : FloatOps F}
  (get_work_calendar : Z -> gmap Z Month)
  (get_holidays_and_short_days : Z -> HolidaysData)
  (year advance_day : Z) (mode : salary_mode) (amount : F)
  (working_days : option (list (Z * Z)))
  (sched : list (PaydayScheduleItem F)) (i j : nat) (x y : PaydayScheduleItem F) :
  get_payday_schedule get_work_calendar get_holidays_and_short_days
    year advance_day mode amount working_days = Ok sched ->
  (i <= j)%nat -> sched !! i = Some x -> sched !! j = Some y ->
  Date.leb (item_date x) (item_date y) = true.
Proof.
  intros Hrun Hij Hx.
  destruct (get_payday_schedule_months _ _ _ _ _ _ _ _ Hrun) as [Hlen Hitems].
  assert (Hstep : forall k u v, sched !! k = Some u -> sched !! S k = Some v ->
                                Date.leb (item_date u) (item_date v) = true).
  { intros k u v Hu Hv.
    pose proof (lookup_lt_Some _ _ _ Hv) as Hk. rewrite Hlen in Hk.
    destruct (Nat.Even_or_Odd k) as [[n ->] | [n ->]].
    - destruct (Hitems (Z.of_nat n + 1) ltac:(lia)) as (a & s & Hm & Ha & Hs).
      unfold advance_item, salary_item in Ha, Hs.
      replace (Z.to_nat (2 * (Z.of_nat n + 1 - 1))) with (2 * n)%nat in Ha by lia.
      replace (Z.to_nat (2 * (Z.of_nat n + 1 - 1) + 1)) with (S (2 * n)) in Hs by lia.
      rewrite Hu in Ha. injection Ha as <-. rewrite Hv in Hs. injection Hs as <-.
      apply payday_month_inv in Hm as (_ & Hva & Hvs & Hfa & _ & Hfs & _).
      exact (search_order _ _ _ _ _ Hva Hvs
               (nominal_advance_before_salary _ _ _) Hfa Hfs).
    - destruct (Hitems (Z.of_nat n + 1) ltac:(lia)) as (a & s & Hm & _ & Hs).
      destruct (Hitems (Z.of_nat n + 1 + 1) ltac:(lia)) as (a' & s' & Hm' & Ha' & _).
      unfold advance_item, salary_item in Hs, Ha'.
      replace (Z.to_nat (2 * (Z.of_nat n + 1 - 1) + 1)) with (2 * n + 1)%nat in Hs by lia.
      replace (Z.to_nat (2 * (Z.of_nat n + 1 + 1 - 1))) with (S (2 * n + 1)) in Ha' by lia.
      rewrite Hu in Hs. injection Hs as <-. rewrite Hv in Ha'. injection Ha' as <-.
      apply payday_month_inv in Hm as (_ & Hva & Hvs & _ & _ & Hfs & _).
      apply payday_month_inv in Hm' as (_ & Hva' & _ & Hfa' & _).
      assert (Hn : Z.of_nat n + 1 < 12) by lia.
      exact (search_order _ _ _ _ _ Hvs Hva'
               (nominal_salary_before_advance year advance_day (Z.of_nat n + 1)
                  (nominal_advance_day_positive _ _ _ Hva) Hn) Hfs Hfa'). }
  revert y. induction Hij as [| j Hij IH]; intros y Hy.
  - rewrite Hx in Hy. injection Hy as <-. apply DateFacts.leb_refl.
  - pose proof (lookup_lt_Some _ _ _ Hy) as Hj.
    destruct (lookup_lt_is_Some_2 sched j ltac:(lia)) as [z Hz].
    exact (DateFacts.leb_trans _ _ _ (IH z Hz) (Hstep j z y Hz Hy)).
Qed.

Lemma schedule_dates_in_order_witness :
  exists x y,
    Data.schedule_2025 !! 1%nat = Some x /\ Data.schedule_2025 !! 23%nat = Some y /\
    item_date x = Date.Date 2025 2 10 /\ item_date y = Date.Date 2026 1 9 /\
    Date.leb (item_date x) (item_date y) = true.
Proof.
  eexists. eexists.
  split; [vm_compute; reflexivity |]. split; [vm_compute; reflexivity |].
  split; [reflexivity |]. split; [reflexivity |].
  apply (schedule_dates_in_order (ops := binary64) Data.get_work_calendar Data.get_holidays_and_short_days
           2025 25 BeforeTax (Data.rubles 60000) None Data.schedule_2025 1 23).
  - vm_compute. reflexivity.
  - lia.
  - vm_compute. reflexivity.
  - vm_compute. reflexivity.
Defined.


(** ** The exceptions of the schedule *)

Section ScheduleErrors.

Variable get_work_calendar : Z -> gmap Z Month.
Variable get_holidays_and_short_days : Z -> HolidaysData.

Context {F : Type} {ops : FloatOps F}.

Variables (year advance_day : Z) (mode : salary_mode) (amount : F).

Let calendar := get_work_calendar year.
Let holidays_data := get_holidays_and_short_days year.

Lemma new_error y m d e : Date.new y m d = Raise e -> e = DateValueError.
Proof. unfold Date.new. destruct (Date.valid _); [discriminate | congruence]. Qed.

Lemma pred_error d e : Date.pred d = Raise e -> e = DateOverflowError.
Proof. unfold Date.pred. split_ltb; congruence. Qed.

Lemma last_day_of_error y m e :
  last_day_of y m = Raise e -> e = DateValueError \/ e = DateOverflowError.
Proof.
  unfold last_day_of. destruct (m <? 12); [| discriminate]. intros H.
  apply bind_Raise in H as [H | (first & _ & H)].
  - left. exact (new_error _ _ _ _ H).
  - apply bind_Raise in H as [H | (last & _ & H)]; [| discriminate].
    right. exact (pred_error _ _ H).
Qed.

Lemma search_error d hs e :
  get_previous_working_day d hs = Raise e -> e = DateOverflowError.
Proof.
  funelim (get_previous_working_day d hs); intros Hr.
  - discriminate.
  - auto.
  - injection Hr as <-. exact (pred_error _ _ Hp).
Qed.

Ltac date_error H :=
  first [ apply new_error in H as ->; left; reflexivity
        | apply search_error in H as ->; right; left; reflexivity
        | apply last_day_of_error in H as [-> | ->];
          [left; reflexivity | right; left; reflexivity] ].

Ltac salary_error H month Hmonth :=
  apply calculate_salary_error in H as [[_ ->] | [_ [-> | ->]]];
  [ do 4 right; left; exists month; split; [exact Hmonth | reflexivity]
  | do 3 right; left; reflexivity
  | right; right; left; reflexivity ].

Lemma payday_month_error wds month e :
  1 <= month <= 12 ->
  match wds with Some wd => length wd = 12%nat | None => True end ->
  payday_month get_work_calendar year advance_day mode amount wds
    calendar holidays_data month = Raise e ->
  schedule_error e.
Proof.
  unfold payday_month, schedule_error. intros Hmonth Hlen H.
  apply bind_Raise in H as [H | (ldm & E1 & H)]; [date_error H |].
  apply bind_Raise in H as [H | (oad & E2 & H)]; [date_error H |].
  apply bind_Raise in H as [H | (ad & E3 & H)]; [date_error H |].
  destruct (12 <? month + 1).
  all: apply bind_Raise in H as [H | (ldsm & E4 & H)]; [date_error H |].
  all: apply bind_Raise in H as [H | (osd & E5 & H)]; [date_error H |].
  all: apply bind_Raise in H as [H | (sd & E6 & H)]; [date_error H |].
  all: apply bind_Raise in H as [H | (fd & E7 & H)]; [date_error H |].
  all: apply bind_Raise in H as [H | (ld & E8 & H)]; [date_error H |].
  all: apply new_Ok_inv in E7 as [-> _]; apply new_Ok_inv in E8 as [-> _].
  all: rewrite (count_working_days_month year month holidays_data 15 1 0) in H by lia.
  all: rewrite bind_Ok_l in H.
  all: apply bind_Raise in H as [H | (days & E10 & H)];
    [unfold calendar_working_days in H;
     destruct (calendar !! month); [discriminate | injection H as <-];
     do 4 right; left; exists month; split; [exact Hmonth | reflexivity] |].
  all: apply bind_Raise in H as [H | ([awd swd] & Hp & H)].
  1, 3: destruct wds as [wd |]; [| discriminate];
    unfold period_working_days in H;
    destruct (lookup_lt_is_Some_2 wd (Z.to_nat (month - 1)) ltac:(lia)) as [[a s] Hl];
    rewrite Hl, bind_Ok_l, E10, bind_Ok_l in H;
    destruct (Z.ltb_spec days (a + s)); [| discriminate];
    injection H as <-; do 6 right; exists month, (a + s), days;
    split; [exact Hmonth |]; split; [assumption | reflexivity].
  all: apply bind_Raise in H as [H | (asal & Ea & H)]; [salary_error H month Hmonth |].
  all: apply bind_Raise in H as [H | (ssal & Es & H)]; [salary_error H month Hmonth |].
  all: discriminate.
Qed.

End ScheduleErrors.

(** X20: once the calendar and the holidays have been fetched, the only
    exceptions [get_payday_schedule] raises are the [ValueError] and
    [OverflowError] of the date computations, the [ZeroDivisionError], the
    [OverflowError] of the conversion of an int to [float] and the
    [KeyError] of a month 1..12 of the salary computation, and the two
    validation errors, the capacity one for a month 1..12 whose pair
    exceeds the calendar's count; the index [working_days[month - 1]] is
    never out of range. *)
Theorem get_payday_schedule_errors {F : Type} {ops : FloatOps F}
  (get_work_calendar : Z -> gmap Z Month)
  (get_holidays_and_short_days : Z -> HolidaysData)
  (year advance_day : Z) (mode : salary_mode) (amount : F)
  (working_days : option (list (Z * Z))) (e : py_error) :
  get_payday_schedule get_work_calendar get_holidays_and_short_days
    year advance_day mode amount working_days = Raise e ->
  schedule_error e /\ e <> IndexError.
Proof.
  intros H.
  assert (He : schedule_error e).
  { destruct (match working_days with
              | Some wd => bool_decide (length wd = 12%nat)
              | None => true
              end) eqn:Hlen.
    - assert (Hl : match working_days with
                   | Some wd => length wd = 12%nat
                   | None => True
                   end).
      { destruct working_days as [wd |]; [| exact I].
        apply bool_decide_eq_true in Hlen. exact Hlen. }
      rewrite schedule_of_months in H by exact Hl.
      apply schedule_months_Raise in H as (m & Hin & Hm).
      apply list_elem_of_In, elem_of_seqZ in Hin.
      apply (payday_month_error _ _ _ _ _ _ working_days m e ltac:(lia) Hl Hm).
    - destruct working_days as [wd |]; [| discriminate].
      apply bool_decide_eq_false in Hlen.
      unfold get_payday_schedule in H.
      destruct (Z.eqb_spec (Z.of_nat (length wd)) 12); [lia |].
      injection H as <-. unfold schedule_error. auto 10. }
  split; [exact He |].
  intros ->. unfold schedule_error in He.
  destruct He
    as [He | [He | [He | [He | [(? & _ & He) | [He | (? & ? & ? & _ & _ & He)]]]]]];
    discriminate.
Qed.

Lemma get_payday_schedule_errors_witness :
  get_payday_schedule Data.get_work_calendar Data.get_holidays_and_short_days
    2030 25 BeforeTax (Data.rubles 60000) None = Raise ZeroDivisionError /\
  schedule_error ZeroDivisionError /\
  get_payday_schedule Data.get_work_calendar Data.get_holidays_and_short_days
    2025 25 BeforeTax (Data.rubles 60000)
    (Some ((10 ^ 400, - 10 ^ 400) :: repeat (0, 0) 11)) = Raise FloatOverflowError.
Proof.
  split; [vm_compute; reflexivity |]. split; [| vm_compute; reflexivity].
  apply (get_payday_schedule_errors (ops := binary64) Data.get_work_calendar
           Data.get_holidays_and_short_days 2030 25 BeforeTax (Data.rubles 60000) None).
  vm_compute. reflexivity.
Defined.


(** ** What the schedule reads of the holiday data *)

Lemma get_previous_working_day_ext d hs : forall hs',
  (forall x, is_working x hs = is_working x hs') ->
  get_previous_working_day d hs = get_previous_working_day d hs'.
Proof.
  funelim (get_previous_working_day d hs); intros hs' Hext;
    rewrite (get_previous_working_day_step current_date hs'), <- Hext, Hw.
  - reflexivity.
  - rewrite Hp. apply H. exact Hext.
  - rewrite Hp. reflexivity.
Qed.

Lemma count_working_days_ext d last hs acc : forall hs',
  (forall x, is_working x hs = is_working x hs') ->
  count_working_days d last hs acc = count_working_days d last hs' acc.
Proof.
  funelim (count_working_days d last hs acc); intros hs' Hext;
    rewrite (count_working_days_step current_day last_day hs'), Hle.
  - reflexivity.
  - rewrite Hs, <- Hext. apply H. exact Hext.
  - rewrite Hs. reflexivity.
Qed.

Section HolidayDates.

Variables hs hs' : HolidaysData.
Hypothesis same_dates :
  map holiday_date (holidays hs) = map holiday_date (holidays hs').

Lemma is_holiday_dates d data :
  is_holiday d data
  = existsb (fun x => Date.eqb x d) (map holiday_date (holidays data)).
Proof.
  unfold is_holiday. induction (holidays data) as [| h rest IH]; simpl;
    [reflexivity | rewrite IH; reflexivity].
Qed.

Lemma is_working_dates d : is_working d hs = is_working d hs'.
Proof. unfold is_working. rewrite !is_holiday_dates, same_dates. reflexivity. Qed.

Lemma get_previous_working_day_dates d :
  get_previous_working_day d hs = get_previous_working_day d hs'.
Proof. apply get_previous_working_day_ext. exact is_working_dates. Qed.

Lemma count_working_days_dates d last acc :
  count_working_days d last hs acc = count_working_days d last hs' acc.
Proof. apply count_working_days_ext. exact is_working_dates. Qed.

Lemma bind_ext {A B : Type} (r : result A) (k k' : A -> result B) :
  (forall a, k a = k' a) -> r ≫= k = r ≫= k'.
Proof. intros H. destruct r; simpl; [apply H | reflexivity]. Qed.

Lemma payday_month_dates_only {F : Type} {ops : FloatOps F}
  get_work_calendar year advance_day mode (amount : F) working_days calendar month :
  payday_month get_work_calendar year advance_day mode amount working_days
    calendar hs month
  = payday_month get_work_calendar year advance_day mode amount working_days
      calendar hs' month.
Proof.
  unfold payday_month.
  apply bind_ext; intros ldm. apply bind_ext; intros oad.
  rewrite get_previous_working_day_dates. apply bind_ext; intros ad.
  destruct (12 <? month + 1).
  all: apply bind_ext; intros ldsm; apply bind_ext; intros osd.
  all: rewrite get_previous_working_day_dates; apply bind_ext; intros sd.
  all: apply bind_ext; intros fd; apply bind_ext; intros ld.
  all: rewrite count_working_days_dates; reflexivity.
Qed.

Lemma schedule_months_dates_only {F : Type} {ops : FloatOps F}
  get_work_calendar year advance_day mode (amount : F) working_days calendar months :
  forall schedule,
  schedule_months get_work_calendar year advance_day mode amount working_days
    calendar hs months schedule
  = schedule_months get_work_calendar year advance_day mode amount working_days
      calendar hs' months schedule.
Proof.
  induction months as [| month rest IH]; intros schedule; simpl; [reflexivity |].
  rewrite payday_month_dates_only. apply bind_ext. intros [a s]. apply IH.
Qed.

End HolidayDates.

(** X21: the schedule reads the holiday data only through the dates of its
    holidays: two providers whose holiday lists carry the same dates give
    the same result, whatever the names of the holidays, the short days and
    the year recorded with them. *)
Theorem schedule_reads_holiday_dates {F : Type} {ops : FloatOps F}
  (get_work_calendar : Z -> gmap Z Month)
  (get_holidays_and_short_days get_holidays_and_short_days' : Z -> HolidaysData)
  (year advance_day : Z) (mode : salary_mode) (amount : F)
  (working_days : option (list (Z * Z))) :
  map holiday_date (holidays (get_holidays_and_short_days year))
    = map holiday_date (holidays (get_holidays_and_short_days' year)) ->
  get_payday_schedule get_work_calendar get_holidays_and_short_days
    year advance_day mode amount working_days
  = get_payday_schedule get_work_calendar get_holidays_and_short_days'
      year advance_day mode amount working_days.
Proof.
  intros Hdates. unfold get_payday_schedule.
  rewrite (schedule_months_dates_only _ _ Hdates). reflexivity.
Qed.

Lemma schedule_reads_holiday_dates_witness :
  get_payday_schedule Data.get_work_calendar
    (fun year =>
       {| holidays_year := 0;
          holidays := holidays (Data.get_holidays_and_short_days year);
          shortDays := holidays (Data.get_holidays_and_short_days year) |})
    2025 25 BeforeTax (Data.rubles 60000) None
  = Ok Data.schedule_2025.
Proof.
  rewrite <- (schedule_reads_holiday_dates (ops := binary64) Data.get_work_calendar
                Data.get_holidays_and_short_days _ 2025 25 BeforeTax (Data.rubles 60000) None).
  - vm_compute. reflexivity.
  - reflexivity.
Defined.

(** ** The two modes, and the days of payment *)

(** X22: on the same month, days and amount the gross mode returns
    whenever the net mode does, and what the gross mode counts before tax
    is what the net mode pays after tax, the amount of the period; the
    amount before tax of the net mode is its float quotient by 1 - 0.13.
    Over exact arithmetic, that is with the operations carried out without
    rounding or overflow, the result of the gross mode is the result of
    the net mode scaled by 1 - 0.13: each figure of the gross mode is 87%
    of the same figure of the net mode. *)
Theorem calculate_salary_modes
  (get_work_calendar : Z -> gmap Z Month) (month year days_worked : Z) :
  (forall (amount : spec_float) (net : SalaryResult spec_float),
      calculate_salary get_work_calendar month year days_worked amount OnHand
        = Ok net ->
      exists gross,
        calculate_salary get_work_calendar month year days_worked amount BeforeTax
          = Ok gross /\
        before_tax gross = after_tax net /\
        before_tax net
        = SFdiv 53 1024 (before_tax gross) (SFsub 53 1024 (float_of_Z 1) TAX_RATE)) /\
  (forall (amount : Q) (net gross : SalaryResult Q),
      calculate_salary get_work_calendar month year days_worked amount OnHand
        = Ok net ->
      calculate_salary get_work_calendar month year days_worked amount BeforeTax
        = Ok gross ->
      (before_tax gross == after_tax net)%Q /\
      (before_tax gross == before_tax net * (87 # 100))%Q /\
      (tax gross == tax net * (87 # 100))%Q /\
      (after_tax gross == after_tax net * (87 # 100))%Q).
Proof.
  split.
  - intros amount net H.
    apply calculate_salary_Ok in H as (wd & p & Hwd & Hp & Hfig).
    apply salary_figures_Ok in Hfig as (Hpf & _ & Hb). simpl in Hpf.
    eexists. split.
    + apply calculate_salary_Ok. exists wd, p.
      split; [exact Hwd |]. split; [exact Hp | reflexivity].
    + simpl. split; [congruence |]. rewrite Hb, Hpf. reflexivity.
  - intros amount net gross Hn Hg.
    apply calculate_salary_exact_Ok in Hn as (wd & Hwd & Hnz & ->).
    apply calculate_salary_exact_Ok in Hg as (wd' & Hwd' & _ & ->).
    rewrite Hwd in Hwd'. injection Hwd' as <-.
    cbv zeta. simpl.
    set (p := exact_period_amount amount wd days_worked).
    split; [reflexivity |]. split; [field |]. split; [field | ring].
Qed.

Lemma calculate_salary_modes_witness :
  (exists net gross,
      Data.calculate_salary 1 2025 17 (Data.rubles 60000) OnHand = Ok net /\
      Data.calculate_salary 1 2025 17 (Data.rubles 60000) BeforeTax = Ok gross /\
      before_tax gross = after_tax net /\ after_tax net = Data.rubles 60000) /\
  (exists net gross,
      calculate_salary Data.get_work_calendar 1 2025 17 (60000 : Q) OnHand = Ok net /\
      calculate_salary Data.get_work_calendar 1 2025 17 (60000 : Q) BeforeTax
        = Ok gross /\
      (before_tax gross == after_tax net)%Q /\
      (after_tax gross == 52200)%Q).
Proof.
  pose proof (calculate_salary_modes Data.get_work_calendar 1 2025 17)
    as [Hfloat Hexact].
  split.
  - destruct (Hfloat (Data.rubles 60000) _ ltac:(vm_compute; reflexivity))
      as (gross & Hg & Hb & _).
    eexists. exists gross.
    split; [vm_compute; reflexivity |]. split; [exact Hg |].
    split; [exact Hb |]. vm_compute. reflexivity.
  - eexists. eexists.
    split; [vm_compute; reflexivity |]. split; [vm_compute; reflexivity |].
    destruct (Hexact 60000%Q _ _ ltac:(vm_compute; reflexivity)
                ltac:(vm_compute; reflexivity)) as (Hb & _ & _ & Ha).
    split; [exact Hb |]. rewrite Ha. vm_compute. reflexivity.
Defined.

(** X23: every item of a returned schedule is dated on a valid calendar
    day that is neither a Saturday or Sunday nor a listed holiday. *)
Theorem payment_dates_are_working_days {F : Type} {ops : FloatOps F}
  (get_work_calendar : Z -> gmap Z Month)
  (get_holidays_and_short_days : Z -> HolidaysData)
  (year advance_day : Z) (mode : salary_mode) (amount : F)
  (working_days : option (list (Z * Z)))
  (sched : list (PaydayScheduleItem F)) (item : PaydayScheduleItem F) :
  get_payday_schedule get_work_calendar get_holidays_and_short_days
    year advance_day mode amount working_days = Ok sched ->
  In item sched ->
  Date.valid (item_date item) = true /\
  is_weekend (item_date item) = false /\
  is_holiday (item_date item) (get_holidays_and_short_days year) = false.
Proof.
  intros Hrun Hin.
  destruct (get_payday_schedule_elem _ _ _ _ _ _ _ _ _ Hrun Hin)
    as (month & a & s & _ & Hm & Hitem).
  apply payday_month_inv in Hm as (_ & Hva & Hvs & Hfa & _ & Hfs & _).
  assert (Hfound : exists nominal,
             Date.valid nominal = true /\
             get_previous_working_day nominal (get_holidays_and_short_days year)
               = Ok (item_date item)).
  { destruct Hitem as [-> | ->]; eauto. }
  destruct Hfound as (nominal & Hv & Hf).
  pose proof (get_previous_working_day_spec nominal
                (get_holidays_and_short_days year) Hv) as Hspec.
  rewrite Hf in Hspec. destruct Hspec as (Hvalid & _ & Hw & _).
  unfold is_working in Hw. apply andb_true_iff in Hw as [Hh Hwe].
  apply negb_true_iff in Hh, Hwe. auto.
Qed.

Lemma payment_dates_are_working_days_witness :
  exists item,
    Data.schedule_2025 !! 0%nat = Some item /\
    item_date item = Date.Date 2025 1 24 /\
    is_weekend (item_date item) = false /\
    is_holiday (item_date item) (Data.get_holidays_and_short_days 2025) = false.
Proof.
  eexists. split; [vm_compute; reflexivity |]. split; [reflexivity |].
  apply (payment_dates_are_working_days (ops := binary64)
           Data.get_work_calendar Data.get_holidays_and_short_days
           2025 25 BeforeTax (Data.rubles 60000) None Data.schedule_2025).
  - vm_compute. reflexivity.
  - vm_compute. left. reflexivity.
Defined.

(** ** The schedule on the calendar of the provider *)

(* every entry of the calendar is the copy of a month object of the response *)
Lemma work_calendar_entry (calendar_months : list Month) (k : Z) (entry : Month) :
  work_calendar calendar_months !! k = Some entry ->
  exists m, m ∈ calendar_months /\ id m = k - 1 /\ entry = calendar_entry m.
Proof.
  induction calendar_months as [| month months IH] using rev_ind.
  - discriminate.
  - rewrite work_calendar_snoc.
    destruct (decide (id month + 1 = k)) as [He | Hne].
    + rewrite <- He, lookup_insert_eq. intros [= <-].
      exists month. split; [apply elem_of_app; right; left |]. split; [lia | reflexivity].
    + rewrite lookup_insert_ne by exact Hne. intros H.
      destruct (IH H) as (m & Hin & Hid & He). exists m.
      split; [apply elem_of_app; left; exact Hin | auto].
Qed.

(** X24: on the calendar the provider builds from a response, the schedule
    is returned only if the response holds a month object for each of the
    ids 0..11; and it is returned, with its 24 items, when the response
    carries the ids 0..11 in order with working-day counts from 1 to 31,
    the year and the year after it are in the range of [date], the advance
    day is positive and the search from the first nominal date finds a
    working day. *)
Theorem schedule_on_fetched_calendar
  (calendar_months : list Month)
  (get_holidays_and_short_days : Z -> HolidaysData)
  (year advance_day : Z) (mode : salary_mode) (amount : spec_float) :
  let get_work_calendar := fun _ : Z => work_calendar calendar_months in
  (forall working_days sched,
      get_payday_schedule get_work_calendar get_holidays_and_short_days
        year advance_day mode amount working_days = Ok sched ->
      forall k, 1 <= k <= 12 -> exists m, m ∈ calendar_months /\ id m = k - 1) /\
  (map id calendar_months = seqZ 0 12 ->
   Forall (fun m => 1 <= workingDays m <= 31) calendar_months ->
   1 <= year /\ year + 1 <= 9999 -> 1 <= advance_day ->
   is_ok (get_previous_working_day
            (Date.Date year 1 (Z.min advance_day 31))
            (get_holidays_and_short_days year)) = true ->
   exists sched,
     get_payday_schedule get_work_calendar get_holidays_and_short_days
       year advance_day mode amount None = Ok sched /\
     length sched = 24%nat).
Proof.
  intros get_work_calendar. split.
  - intros working_days sched Hrun k Hk.
    destruct (get_payday_schedule_months _ _ _ _ _ _ _ _ Hrun) as [_ Hitems].
    destruct (Hitems k Hk) as (a & s & Hm & _).
    destruct (payday_month_Ok _ _ _ _ _ _ _ _ _ _ Hm)
      as (_ & _ & _ & _ & days & Hd & _).
    apply calendar_working_days_Ok in Hd as (entry & He & _).
    apply work_calendar_is_Some. unfold get_work_calendar in He.
    rewrite He. eauto.
  - intros Hids Hdays Hyear Had Hsearch.
    assert (Hcal : forall month m,
              get_work_calendar year !! month = Some m -> 1 <= workingDays m <= 31).
    { intros month entry He. unfold get_work_calendar in He.
      apply work_calendar_entry in He as (m & Hin & _ & ->). simpl.
      rewrite Forall_forall in Hdays. apply Hdays. exact Hin. }
    assert (Hrun : exists sched,
               get_payday_schedule get_work_calendar get_holidays_and_short_days
                 year advance_day mode amount None = Ok sched).
    { apply get_payday_schedule_returns.
      split; [lia |]. split; [lia |]. split; [exact Had |].
      split; [| split; [exact Hsearch |]].
      - intros month Hmonth.
        assert (Hin : month - 1 ∈ map id calendar_months)
          by (rewrite Hids; apply elem_of_seqZ; lia).
        apply list_elem_of_fmap in Hin as (m0 & Hid & Hin0).
        destruct (proj2 (work_calendar_is_Some calendar_months month)
                    ltac:(exists m0; auto)) as [entry He].
        pose proof (Hcal month entry He) as Hr.
        exists entry. split; [exact He |]. split; [lia |].
        apply float_in_range_small. lia.
      - intros month m Hmonth Hm.
        pose proof (Hcal month m Hm) as Hr.
        pose proof (first_half_working_days_bounds year month
                      (get_holidays_and_short_days year)) as Hb.
        apply float_in_range_small. lia. }
    destruct Hrun as [sched Hrun]. exists sched. split; [exact Hrun |].
    exact (proj1 (get_payday_schedule_months _ _ _ _ _ _ _ _ Hrun)).
Qed.

Lemma schedule_on_fetched_calendar_witness :
  (exists sched,
      get_payday_schedule (fun _ => work_calendar Samples.response_2025)
        Data.get_holidays_and_short_days 2025 25 BeforeTax (Data.rubles 60000) None
      = Ok sched /\
      length sched = 24%nat) /\
  get_payday_schedule (fun _ => work_calendar Samples.response_broken)
    Data.get_holidays_and_short_days 2025 25 BeforeTax (Data.rubles 60000) None
  = Raise (KeyError 12).
Proof.
  split; [| vm_compute; reflexivity].
  apply (schedule_on_fetched_calendar Samples.response_2025
           Data.get_holidays_and_short_days 2025 25 BeforeTax (Data.rubles 60000)).
  - reflexivity.
  - repeat constructor; simpl; lia.
  - lia.
  - lia.
  - vm_compute. reflexivity.
Defined.
